(** * A shallow embedding of the PR-review scanners

    The development follows the three scripts of the repository:

    - [security-checker.py]  (module [SecurityChecker]),
    - [scripts/lint-checker.py]  (module [LintChecker]),
    - [scripts/ai-reviewer.py]  (module [AIReviewer]).

    The scripts come first, with the string methods, the regular
    expressions and the file system they rely on; then the vocabulary of
    the specification ([Spec]) and some concrete inputs ([Examples]); then
    the properties.  A run is modelled up to the exit status, the lines
    printed and the report written; writing the report is assumed to
    succeed.

    Text is modelled as [string], i.e. sequences of 8-bit characters; the
    development covers ASCII text (code points below 128), where Python's
    Unicode-aware notions of white space, word characters and case folding
    coincide with the ones written out below.  Python integers are [Z]. *)

From Stdlib Require Import String Ascii List ZArith QArith Bool Arith Lia DecimalString Sorted Permutation.
Import ListNotations.

Local Open Scope string_scope.
Local Open Scope list_scope.
Local Open Scope Z_scope.
Local Open Scope bool_scope.

(** ** Characters and the string methods the scripts use *)

Module Text.

Definition code (c : ascii) : N := N_of_ascii c.

Definition in_range (lo hi c : ascii) : bool :=
  (code lo <=? code c)%N && (code c <=? code hi)%N.

Definition is_upper (c : ascii) : bool := in_range "A" "Z" c.
Definition is_lower (c : ascii) : bool := in_range "a" "z" c.
Definition is_digit (c : ascii) : bool := in_range "0" "9" c.

(** [str.lower()] and [str.upper()] on one character. *)
Definition lower (c : ascii) : ascii :=
  if is_upper c then ascii_of_N (code c + 32) else c.
Definition upper (c : ascii) : ascii :=
  if is_lower c then ascii_of_N (code c - 32) else c.

(** [str.isspace()]: TAB, LF, VT, FF, CR, FS, GS, RS, US and the space. *)
Definition is_space (c : ascii) : bool :=
  let n := code c in
  ((9 <=? n) && (n <=? 13) || (28 <=? n) && (n <=? 32))%N.

(** The characters matched by [\w]. *)
Definition is_word (c : ascii) : bool :=
  is_upper c || is_lower c || is_digit c || Ascii.eqb c "_".

Definition newline : ascii := "010".
Definition dquote : ascii := "034".

Definition chars (s : string) : list ascii := list_ascii_of_string s.
Definition text (l : list ascii) : string := string_of_list_ascii l.

Definition lower_string (s : string) : string := text (map lower (chars s)).

(** [s.lstrip()], [s.rstrip()], [s.strip()]. *)
Fixpoint lstrip_chars (l : list ascii) : list ascii :=
  match l with
  | c :: l' => if is_space c then lstrip_chars l' else l
  | [] => []
  end.
Definition rstrip_chars (l : list ascii) : list ascii :=
  rev (lstrip_chars (rev l)).
Definition strip (s : string) : string :=
  text (rstrip_chars (lstrip_chars (chars s))).

(** [s.split(sep)] for a one-character separator: always at least one
    field, empty fields are kept. *)
Fixpoint split_on (sep : ascii) (l : list ascii) : list (list ascii) :=
  match l with
  | [] => [[]]
  | c :: l' =>
      if Ascii.eqb c sep then [] :: split_on sep l'
      else match split_on sep l' with
           | w :: ws => (c :: w) :: ws
           | [] => [[c]]
           end
  end.

(** [content.split('\n')]. *)
Definition split_lines (content : string) : list string :=
  map text (split_on newline (chars content)).

(** [s.split()]: fields separated by runs of white space, no empty
    field. *)
Fixpoint split_ws_aux (cur : list ascii) (l : list ascii) : list (list ascii) :=
  match l with
  | [] => match cur with [] => [] | _ => [rev cur] end
  | c :: l' =>
      if is_space c
      then match cur with
           | [] => split_ws_aux [] l'
           | _ => rev cur :: split_ws_aux [] l'
           end
      else split_ws_aux (c :: cur) l'
  end.
Definition split_ws (s : string) : list string :=
  map text (split_ws_aux [] (chars s)).

(** [s.startswith(prefix)], [s.endswith(suffix)], [sub in s]. *)
Fixpoint starts_with (prefix l : list ascii) : bool :=
  match prefix, l with
  | [], _ => true
  | p :: prefix', c :: l' => Ascii.eqb p c && starts_with prefix' l'
  | _ :: _, [] => false
  end.
Definition startswith (s prefix : string) : bool :=
  starts_with (chars prefix) (chars s).
Definition endswith (s suffix : string) : bool :=
  starts_with (rev (chars suffix)) (rev (chars s)).
Fixpoint contains_chars (sub l : list ascii) : bool :=
  starts_with sub l ||
  match l with
  | [] => false
  | _ :: l' => contains_chars sub l'
  end.
Definition contains (sub s : string) : bool :=
  contains_chars (chars sub) (chars s).

(** [s.rstrip()], [s.rstrip('\n')], [s.lstrip(' ')], [s.count(' ')]. *)
Definition rstrip (s : string) : string := text (rstrip_chars (chars s)).
Fixpoint lstrip_char (c : ascii) (l : list ascii) : list ascii :=
  match l with
  | a :: l' => if Ascii.eqb a c then lstrip_char c l' else l
  | [] => []
  end.
Definition rstrip_char (c : ascii) (s : string) : string :=
  text (rev (lstrip_char c (rev (chars s)))).
Definition count_char (c : ascii) (s : string) : nat :=
  List.length (filter (Ascii.eqb c) (chars s)).

(** [f.readlines()]: every line keeps its newline; the last one may lack
    it. *)
Fixpoint readlines_aux (cur : list ascii) (l : list ascii) : list (list ascii) :=
  match l with
  | [] => match cur with [] => [] | _ => [rev cur] end
  | c :: l' =>
      if Ascii.eqb c newline then rev (c :: cur) :: readlines_aux [] l'
      else readlines_aux (c :: cur) l'
  end.
Definition readlines (content : string) : list string :=
  map text (readlines_aux [] (chars content)).

(** Python truthiness of a string. *)
Definition nonempty (s : string) : bool :=
  match s with EmptyString => false | _ => true end.

(** [enumerate(xs, 1)]. *)
Fixpoint enumerate_from {A : Type} (n : nat) (xs : list A) : list (nat * A) :=
  match xs with
  | [] => []
  | x :: xs' => (n, x) :: enumerate_from (S n) xs'
  end.

End Text.

(** ** Regular expressions: the fragment of Python's [re] the rules use *)

Module Re.
Import Text.

Inductive regex : Type :=
| Eps                                           (* the empty pattern *)
| Lit (c : ascii)                               (* a literal character *)
| Dot                                           (* [.] *)
| Cls (neg : bool) (items : list (ascii * ascii)) (* [[...]], as ranges *)
| Space                                         (* [\s] *)
| WordB                                         (* [\b] *)
| Cat (r1 r2 : regex)
| Alt (r1 r2 : regex)
| Star (r : regex)
| NotAhead (r : regex).                         (* [(?!...)] *)

Definition Plus (r : regex) : regex := Cat r (Star r).
Definition Opt (r : regex) : regex := Alt r Eps.
Fixpoint Times (n : nat) (r : regex) : regex :=
  match n with
  | O => Eps
  | S n' => Cat r (Times n' r)
  end.
(** [r{n,}] *)
Definition AtLeast (n : nat) (r : regex) : regex := Cat (Times n r) (Star r).
(** [r{n,m}] *)
Fixpoint UpTo (m : nat) (r : regex) : regex :=
  match m with
  | O => Eps
  | S m' => Opt (Cat r (UpTo m' r))
  end.

(** *** Parsing a pattern string *)

Definition is_meta (c : ascii) : bool :=
  existsb (Ascii.eqb c) (chars ".^$*+?{}[]\|()").

Definition is_alnum (c : ascii) : bool :=
  is_upper c || is_lower c || is_digit c.

(** Decimal numeral at the head of the input. *)
Fixpoint read_nat_aux (acc : nat) (seen : bool) (s : list ascii) :
  option (nat * list ascii) :=
  match s with
  | c :: s' =>
      if is_digit c then read_nat_aux (10 * acc + N.to_nat (code c - 48)) true s'
      else if seen then Some (acc, s) else None
  | [] => if seen then Some (acc, s) else None
  end.
Definition read_nat := read_nat_aux 0 false.

(** One member of a character class; an escaped punctuation character
    stands for itself. *)
Definition class_char (s : list ascii) : option (ascii * list ascii) :=
  match s with
  | "\"%char :: c :: s' => if is_alnum c then None else Some (c, s')
  | "\"%char :: [] => None
  | c :: s' => Some (c, s')
  | [] => None
  end.

(** The members of a class up to the closing bracket. *)
Fixpoint class_items (n : nat) (s : list ascii) :
  option (list (ascii * ascii) * list ascii) :=
  match n with
  | O => None
  | S n' =>
      match s with
      | "]"%char :: s' => Some ([], s')
      | _ =>
          match class_char s with
          | None => None
          | Some (lo, s1) =>
              match s1 with
              | "-"%char :: "]"%char :: s2 => Some ([(lo, lo); ("-"%char, "-"%char)], s2)
              | "-"%char :: s2 =>
                  match class_char s2 with
                  | None => None
                  | Some (hi, s3) =>
                      if (code lo <=? code hi)%N then
                        match class_items n' s3 with
                        | Some (items, s4) => Some ((lo, hi) :: items, s4)
                        | None => None
                        end
                      else None
                  end
              | _ =>
                  match class_items n' s1 with
                  | Some (items, s4) => Some ((lo, lo) :: items, s4)
                  | None => None
                  end
              end
          end
      end
  end.

(** A quantifier after an atom, if there is one. *)
Definition quantified (r : regex) (s : list ascii) : option (regex * list ascii) :=
  match s with
  | "*"%char :: s' => Some (Star r, s')
  | "+"%char :: s' => Some (Plus r, s')
  | "?"%char :: s' => Some (Opt r, s')
  | "{"%char :: s' =>
      match read_nat s' with
      | Some (lo, "}"%char :: s2) => Some (Times lo r, s2)
      | Some (lo, ","%char :: "}"%char :: s2) => Some (AtLeast lo r, s2)
      | Some (lo, ","%char :: s2) =>
          match read_nat s2 with
          | Some (hi, "}"%char :: s3) =>
              if (lo <=? hi)%nat then Some (Cat (Times lo r) (UpTo (hi - lo) r), s3)
              else None
          | _ => None
          end
      | _ => None
      end
  | _ => Some (r, s)
  end.

(** No lazy or possessive quantifier follows. *)
Definition no_second_quantifier (s : list ascii) : bool :=
  match s with
  | "*"%char :: _ | "+"%char :: _ | "?"%char :: _ => false
  | _ => true
  end.

(** The parser: alternatives, sequences, atoms.  A pattern is rejected
    ([None]) when it uses syntax outside the fragment: anchors, lazy or
    possessive quantifiers, back references, named or non-capturing
    groups, letter escapes other than [\s] and [\b]. *)
Fixpoint parse_alt (n : nat) (s : list ascii) {struct n} :
  option (regex * list ascii) :=
  match n with
  | O => None
  | S n' =>
      match parse_cat n' s with
      | Some (r1, "|"%char :: s1) =>
          match parse_alt n' s1 with
          | Some (r2, s2) => Some (Alt r1 r2, s2)
          | None => None
          end
      | other => other
      end
  end
with parse_cat (n : nat) (s : list ascii) {struct n} :
  option (regex * list ascii) :=
  match n with
  | O => None
  | S n' =>
      match s with
      | [] | "|"%char :: _ | ")"%char :: _ => Some (Eps, s)
      | _ =>
          match parse_atom n' s with
          | None => None
          | Some (a, s1) =>
              match quantified a s1 with
              | None => None
              | Some (q, s2) =>
                  if no_second_quantifier s2 then
                    match parse_cat n' s2 with
                    | Some (Eps, s3) => Some (q, s3)
                    | Some (r, s3) => Some (Cat q r, s3)
                    | None => None
                    end
                  else None
              end
          end
      end
  end
with parse_atom (n : nat) (s : list ascii) {struct n} :
  option (regex * list ascii) :=
  match n with
  | O => None
  | S n' =>
      match s with
      | "("%char :: "?"%char :: "!"%char :: s1 =>
          match parse_alt n' s1 with
          | Some (r, ")"%char :: s2) => Some (NotAhead r, s2)
          | _ => None
          end
      | "("%char :: "?"%char :: _ => None
      | "("%char :: s1 =>
          match parse_alt n' s1 with
          | Some (r, ")"%char :: s2) => Some (r, s2)
          | _ => None
          end
      | "["%char :: "^"%char :: s1 =>
          match class_items (S (List.length s1)) s1 with
          | Some ((_ :: _) as items, s2) => Some (Cls true items, s2)
          | _ => None
          end
      | "["%char :: s1 =>
          match class_items (S (List.length s1)) s1 with
          | Some ((_ :: _) as items, s2) => Some (Cls false items, s2)
          | _ => None
          end
      | "."%char :: s1 => Some (Dot, s1)
      | "\"%char :: "s"%char :: s1 => Some (Space, s1)
      | "\"%char :: "b"%char :: s1 => Some (WordB, s1)
      | "\"%char :: c :: s1 => if is_alnum c then None else Some (Lit c, s1)
      | c :: s1 => if is_meta c then None else Some (Lit c, s1)
      | [] => None
      end
  end.

(** [re.compile(pattern)] *)
Definition compile (pattern : string) : option regex :=
  let s := chars pattern in
  match parse_alt (3 * List.length s + 3) s with
  | Some (r, []) => Some r
  | _ => None
  end.

(** *** Matching *)

(** One character against a literal, with or without [re.IGNORECASE]. *)
Definition lit_matches (ic : bool) (c a : ascii) : bool :=
  if ic then Ascii.eqb (lower c) (lower a) else Ascii.eqb c a.

Definition in_items (items : list (ascii * ascii)) (a : ascii) : bool :=
  existsb (fun '(lo, hi) => in_range lo hi a) items.

(** Under [re.IGNORECASE] a class also accepts a character whose other
    case is a member. *)
Definition cls_matches (ic : bool) (neg : bool) (items : list (ascii * ascii))
  (a : ascii) : bool :=
  xorb neg
    (if ic then in_items items (lower a) || in_items items (upper a)
     else in_items items a).

Definition word_at (c : option ascii) : bool :=
  match c with Some a => is_word a | None => false end.

(** The iteration of a starred pattern whose body is matched by [body]:
    as many rounds as possible first, then the continuation.  Every round
    has to consume a character, so the length of the input bounds the
    number of rounds. *)
Fixpoint iterate
  (body : option ascii -> list ascii -> (option ascii -> list ascii -> bool) -> bool)
  (k : option ascii -> list ascii -> bool)
  (fuel : nat) (prev : option ascii) (s : list ascii) {struct fuel} : bool :=
  match fuel with
  | O => k prev s
  | S fuel' =>
      if body prev s
           (fun p' s' =>
              if (List.length s' <? List.length s)%nat then iterate body k fuel' p' s'
              else false)
      then true
      else k prev s
  end.

(** [matches ic r prev s k]: some prefix of [s] matches [r] (the
    character before [s] being [prev]) and the continuation [k] accepts
    what follows. *)
Fixpoint matches (ic : bool) (r : regex) (prev : option ascii) (s : list ascii)
  (k : option ascii -> list ascii -> bool) {struct r} : bool :=
  match r with
  | Eps => k prev s
  | Lit c =>
      match s with
      | a :: s' => if lit_matches ic c a then k (Some a) s' else false
      | [] => false
      end
  | Dot =>
      match s with
      | a :: s' => if Ascii.eqb a newline then false else k (Some a) s'
      | [] => false
      end
  | Cls neg items =>
      match s with
      | a :: s' => if cls_matches ic neg items a then k (Some a) s' else false
      | [] => false
      end
  | Space =>
      match s with
      | a :: s' => if is_space a then k (Some a) s' else false
      | [] => false
      end
  | WordB =>
      if xorb (word_at prev) (word_at (hd_error s)) then k prev s else false
  | Cat r1 r2 => matches ic r1 prev s (fun p s' => matches ic r2 p s' k)
  | Alt r1 r2 => if matches ic r1 prev s k then true else matches ic r2 prev s k
  | Star r1 => iterate (matches ic r1) k (List.length s) prev s
  | NotAhead r1 => if matches ic r1 prev s (fun _ _ => true) then false else k prev s
  end.

Definition accept : option ascii -> list ascii -> bool := fun _ _ => true.

(** A match starting at the head of [s] or at a later position. *)
Fixpoint search_from (ic : bool) (r : regex) (prev : option ascii) (s : list ascii) : bool :=
  if matches ic r prev s accept then true
  else match s with
       | a :: s' => search_from ic r (Some a) s'
       | [] => false
       end.

(** [re.search(pattern, line, flags)] as a truth value; [ic] tells
    whether [flags] is [re.IGNORECASE].  A pattern outside the fragment
    gives [None] (where Python may raise or match). *)
Definition search (ic : bool) (pattern line : string) : option bool :=
  match compile pattern with
  | Some r => Some (search_from ic r None (chars line))
  | None => None
  end.

End Re.

(** ** The environment: files, paths, decimal output *)

Module Env.
Import Text.

(** What [open(path).read()] finds.  [Readable] carries the decoded text
    ([errors='ignore'] never fails, universal newlines already applied);
    [Unreadable] is a path that exists but whose [open] raises (a
    directory, a permission error), with the text of the exception. *)
Inductive FileState : Type :=
| Missing
| Unreadable (err : string)
| Readable (content : string).

Definition FileSystem : Type := string -> FileState.

(** [os.path.exists(path)] *)
Definition exists_ (fs : FileSystem) (path : string) : bool :=
  match fs path with
  | Missing => false
  | _ => true
  end.

(** The last component of a path, as [pathlib.PurePosixPath.name]. *)
Definition name (path : string) : list ascii :=
  last (filter (fun part => match part with
                            | [] => false
                            | ["."%char] => false
                            | _ => true
                            end)
          (split_on "/" (chars path))) [].

(** Splits the reversed name at its last dot: the reversed extension and
    the reversed stem. *)
Fixpoint cut_at_dot (acc rest : list ascii) : option (list ascii * list ascii) :=
  match rest with
  | [] => None
  | c :: rest' =>
      if Ascii.eqb c "." then Some (rev acc, rest')
      else cut_at_dot (c :: acc) rest'
  end.

(** [Path(path).suffix]: from the last dot of the name, unless that dot
    starts or ends the name. *)
Definition suffix (path : string) : string :=
  match cut_at_dot [] (rev (name path)) with
  | Some ((_ :: _) as ext_rev, _ :: _) => text ("."%char :: rev ext_rev)
  | _ => ""
  end.

(** [str(n)] for a non-negative integer. *)
Definition str (n : Z) : string :=
  DecimalString.NilZero.string_of_int (Z.to_int n).

End Env.

(** ** [security-checker.py] *)

Module SecurityChecker.
Import Text Env.

Inductive Severity : Type := high | medium | low.

Definition severity_eqb (a b : Severity) : bool :=
  match a, b with
  | high, high | medium, medium | low, low => true
  | _, _ => false
  end.

(** The JSON text of a severity. *)
Definition severity_name (s : Severity) : string :=
  match s with
  | high => "high"
  | medium => "medium"
  | low => "low"
  end.

(** One entry of a category of [self.patterns]. *)
Module PatternInfo.
Record t : Type := Build
  { pattern : string; message : string; severity : Severity }.
End PatternInfo.

(** One element of [issues]; the language-specific checks leave the
    ["pattern"] key out. *)
Module Issue.
Record t : Type := Build
  { file : string;
    line : nat;
    category : string;
    severity : Severity;
    message : string;
    code_snippet : string;
    pattern : option string }.
End Issue.

(** A double quote, for the patterns that contain one. *)
Definition q : string := String dquote "".

(** The dictionary of rules, in insertion order (the order in which
    [self.patterns.items()] yields it). *)
Definition _load_security_patterns : list (string * list PatternInfo.t) :=
  [ ("sql_injection",
     [ PatternInfo.Build
         ("(SELECT|INSERT|UPDATE|DELETE).*\+.*['\" ++ q ++ "]")
         "Potential SQL injection: String concatenation in SQL query"
         high;
       PatternInfo.Build
         ("query\s*\(\s*[\" ++ q ++ "'].*\+.*[\" ++ q ++ "']\s*\)")
         "Potential SQL injection: Dynamic query construction"
         high ]);
    ("xss",
     [ PatternInfo.Build
         "innerHTML\s*=\s*.*\+.*"
         "Potential XSS: Dynamic HTML content without sanitization"
         high;
       PatternInfo.Build
         "document\.write\s*\(\s*.*\+.*\)"
         "Potential XSS: document.write with dynamic content"
         medium;
       PatternInfo.Build
         "eval\s*\(\s*.*\+.*\)"
         "Potential code injection: eval() with dynamic content"
         high ]);
    ("insecure_crypto",
     [ PatternInfo.Build
         "(md5|sha1)\s*\("
         "Insecure cryptographic hash function (MD5/SHA1)"
         medium;
       PatternInfo.Build
         "Math\.random\(\)"
         "Weak random number generator - use crypto.randomBytes() instead"
         low ]);
    ("hardcoded_secrets",
     [ PatternInfo.Build
         ("(password|secret|key|token)\s*=\s*[\" ++ q ++ "'][a-zA-Z0-9+/=]{10,}[\" ++ q ++ "']")
         "Potential hardcoded secret or password"
         high;
       PatternInfo.Build
         ("(api_key|apikey)\s*=\s*[\" ++ q ++ "'][a-zA-Z0-9_-]{20,}[\" ++ q ++ "']")
         "Potential hardcoded API key"
         high ]);
    ("path_traversal",
     [ PatternInfo.Build
         "(open|read|write).*\.\./"
         "Potential path traversal vulnerability"
         high;
       PatternInfo.Build
         "fs\.(readFile|writeFile).*\+.*"
         "Potential path injection in file operations"
         medium ]);
    ("insecure_deserialization",
     [ PatternInfo.Build
         "pickle\.loads?\s*\("
         "Insecure deserialization with pickle"
         high;
       PatternInfo.Build
         "yaml\.load\s*\(\s*.*\)"
         "Potential unsafe YAML deserialization"
         medium ]);
    ("command_injection",
     [ PatternInfo.Build
         "(system|exec|popen|subprocess)\s*\(.*\+.*\)"
         "Potential command injection: Dynamic command execution"
         high;
       PatternInfo.Build
         "os\.system\s*\(.*\+.*\)"
         "Potential command injection in os.system()"
         high ]);
    ("insecure_transport",
     [ PatternInfo.Build
         "http://(?!localhost|127\.0\.0\.1|0\.0\.0\.0)"
         "Insecure HTTP connection - use HTTPS"
         medium;
       PatternInfo.Build
         "ssl.*verify.*false|verify.*false.*ssl"
         "SSL certificate verification disabled"
         high ]) ].

(** The truth value of [re.search(pattern, line, flags)].  Every pattern
    of this file lies in the fragment of [Re.compile] (lemma
    [patterns_compile] below), so the default is never taken. *)
Definition re_search (ignorecase : bool) (pattern line : string) : bool :=
  match Re.search ignorecase pattern line with
  | Some b => b
  | None => false
  end.

(** The innermost loop of [_scan_file]: one rule over all lines. *)
Definition scan_pattern (file_path category : string) (pattern_info : PatternInfo.t)
  (lines : list string) (issues : list Issue.t) : list Issue.t :=
  let pattern := PatternInfo.pattern pattern_info in
  let message := PatternInfo.message pattern_info in
  let severity := PatternInfo.severity pattern_info in
  fold_left
    (fun issues '(line_num, line) =>
       if re_search true pattern line then
         issues ++ [ Issue.Build file_path line_num category severity message
                       (strip line) (Some pattern) ]
       else issues)
    (enumerate_from 1 lines) issues.

(** The loops over [self.patterns.items()] and over a category's list. *)
Definition scan_patterns (patterns : list (string * list PatternInfo.t))
  (file_path : string) (lines : list string) (issues : list Issue.t) : list Issue.t :=
  fold_left
    (fun issues '(category, pattern_infos) =>
       fold_left
         (fun issues pattern_info =>
            scan_pattern file_path category pattern_info lines issues)
         pattern_infos issues)
    patterns issues.

Definition _check_javascript_security (file_path content : string)
  (issues : list Issue.t) : list Issue.t :=
  let lines := split_lines content in
  fold_left
    (fun issues '(line_num, line) =>
       let issues :=
         if re_search false "\beval\s*\(" line then
           issues ++ [ Issue.Build file_path line_num "code_injection" high
                         "Use of eval() function - potential code injection risk"
                         (strip line) None ]
         else issues in
       if re_search false "__proto__|constructor\.prototype" line then
         issues ++ [ Issue.Build file_path line_num "prototype_pollution" medium
                       "Potential prototype pollution vulnerability"
                       (strip line) None ]
       else issues)
    (enumerate_from 1 lines) issues.

Definition _check_python_security (file_path content : string)
  (issues : list Issue.t) : list Issue.t :=
  let lines := split_lines content in
  fold_left
    (fun issues '(line_num, line) =>
       if re_search false "import\s+(pickle|marshal|shelve)" line then
         issues ++ [ Issue.Build file_path line_num "insecure_deserialization" high
                       "Potentially unsafe deserialization module imported"
                       (strip line) None ]
       else issues)
    (enumerate_from 1 lines) issues.

Definition _check_java_security (file_path content : string)
  (issues : list Issue.t) : list Issue.t :=
  let lines := split_lines content in
  fold_left
    (fun issues '(line_num, line) =>
       if re_search false "XMLInputFactory|DocumentBuilderFactory" line then
         issues ++ [ Issue.Build file_path line_num "xxe" medium
                       "XML parser - ensure XXE protection is enabled"
                       (strip line) None ]
       else issues)
    (enumerate_from 1 lines) issues.

Definition dangerous_functions : list string :=
  ["eval"; "exec"; "system"; "shell_exec"; "passthru"].

Definition _check_php_security (file_path content : string)
  (issues : list Issue.t) : list Issue.t :=
  let lines := split_lines content in
  fold_left
    (fun issues '(line_num, line) =>
       fold_left
         (fun issues func =>
            if re_search false ("\b" ++ func ++ "\s*\(") line then
              issues ++ [ Issue.Build file_path line_num "command_injection" high
                            ("Dangerous function '" ++ func
                               ++ "()' used - potential command injection")
                            (strip line) None ]
            else issues)
         dangerous_functions issues)
    (enumerate_from 1 lines) issues.

Definition _check_language_specific (file_path content : string)
  (issues : list Issue.t) : list Issue.t :=
  let ext := lower_string (suffix file_path) in
  if existsb (String.eqb ext) [".js"; ".ts"; ".jsx"; ".tsx"] then
    _check_javascript_security file_path content issues
  else if String.eqb ext ".py" then
    _check_python_security file_path content issues
  else if String.eqb ext ".java" then
    _check_java_security file_path content issues
  else if String.eqb ext ".php" then
    _check_php_security file_path content issues
  else issues.

(** [_scan_file]: the issues found and what it prints.  The only
    statement of the [try] block that can raise is the [open]. *)
Definition _scan_file (fs : FileSystem) (file_path : string) :
  list Issue.t * list string :=
  match fs file_path with
  | Readable content =>
      let lines := split_lines content in
      let issues := scan_patterns _load_security_patterns file_path lines [] in
      (_check_language_specific file_path content issues, [])
  | Unreadable e => ([], [("Error scanning " ++ file_path ++ ": " ++ e)%string])
  | Missing =>
      ([], [("Error scanning " ++ file_path
               ++ ": [Errno 2] No such file or directory: '" ++ file_path ++ "'")%string])
  end.

(** [self.results] *)
Record Results : Type := BuildResults
  { total_files : Z;
    files_with_issues : Z;
    errors : Z;
    warnings : Z;
    vulnerabilities : list Issue.t;
    security_score : Z }.

(** The value [__init__] gives to [self.results]. *)
Definition init_results : Results := BuildResults 0 0 0 0 [] 100.

(** One round of the loop over [files] in [check_files]. *)
Definition check_file (fs : FileSystem) (state : Results * list string)
  (file_path : string) : Results * list string :=
  let '(r, out) := state in
  if negb (exists_ fs file_path) then state
  else
    let '(file_issues, printed) := _scan_file fs file_path in
    let r1 := BuildResults (total_files r + 1) (files_with_issues r) (errors r)
                (warnings r) (vulnerabilities r) (security_score r) in
    match file_issues with
    | [] => (r1, out ++ printed)
    | _ =>
        (BuildResults (total_files r1) (files_with_issues r1 + 1) (errors r1)
           (warnings r1) (vulnerabilities r1 ++ file_issues) (security_score r1),
         out ++ printed)
    end.

(** The loop "Count errors and warnings". *)
Definition count_severities (r : Results) : Results :=
  fold_left
    (fun r vuln =>
       if severity_eqb (Issue.severity vuln) high then
         BuildResults (total_files r) (files_with_issues r) (errors r + 1)
           (warnings r) (vulnerabilities r) (security_score r)
       else
         BuildResults (total_files r) (files_with_issues r) (errors r)
           (warnings r + 1) (vulnerabilities r) (security_score r))
    (vulnerabilities r) r.

Definition _calculate_security_score (r : Results) : Results :=
  let high_severity := errors r in
  let medium_low_severity := warnings r in
  let score := 100 in
  let score := score - high_severity * 15 in
  let score := score - medium_low_severity * 5 in
  BuildResults (total_files r) (files_with_issues r) (errors r) (warnings r)
    (vulnerabilities r) (Z.max 0 score).

Definition check_files (fs : FileSystem) (files : list string) (r : Results) :
  Results * list string :=
  let out := [("🔒 Scanning " ++ str (Z.of_nat (List.length files))
                 ++ " files for security vulnerabilities...")%string] in
  let '(r, out) := fold_left (check_file fs) files (r, out) in
  let r := count_severities r in
  let r := _calculate_security_score r in
  (r, out ++ [ "🔒 Security scan complete";
               ("📊 Files scanned: " ++ str (total_files r))%string;
               ("⚠️ Files with issues: " ++ str (files_with_issues r))%string;
               ("🔴 High severity: " ++ str (errors r))%string;
               ("🟡 Medium/Low severity: " ++ str (warnings r))%string;
               ("📈 Security score: " ++ str (security_score r) ++ "/100")%string ]).

(** What a run of the script leaves behind: the exit status, the lines
    printed, and the object dumped to [security-results.json] if the
    run got that far. *)
Record Outcome : Type := BuildOutcome
  { exit_status : Z;
    stdout : list string;
    report : option Results }.

(** The list of files [main] works on, from [sys.argv] (whose head is
    the script's name); [None] when [len(sys.argv) < 2]. *)
Definition files_of_argv (argv : list string) : option (list string) :=
  match argv with
  | [] | [_] => None
  | [_; arg] =>
      Some (map strip (filter (fun f => nonempty (strip f)) (split_ws arg)))
  | _ :: args => Some args
  end.

Definition main (fs : FileSystem) (argv : list string) : Outcome :=
  match files_of_argv argv with
  | None =>
      BuildOutcome 1 ["Usage: python security-checker.py <file1> <file2> ..."] None
  | Some [] => BuildOutcome 0 ["No files to scan"] None
  | Some files =>
      let '(r, out) := check_files fs files init_results in
      if (errors r >? 0)%Z then BuildOutcome 1 out (Some r)
      else BuildOutcome 0 out (Some r)
  end.

End SecurityChecker.

(** ** [scripts/lint-checker.py] *)

Module LintChecker.
Import Text Env.

Module Issue.
Record t : Type := Build
  { file : string;
    line : Z;
    column : option Z;
    severity : string;
    message : string;
    rule : option string;
    category : string }.
End Issue.

(** The outcome of the [try] block around an external tool: [Caught] when
    one of the exceptions of the [except] clause was raised (time-out,
    tool not installed, output that is not JSON), else what the block
    computed from the tool's output. *)
Inductive ToolRun (A : Type) : Type :=
| Caught
| Ran (a : A).
Arguments Caught {A}.
Arguments Ran {A} a.

(** The external linters, which the checker only calls.  For ESLint,
    tsc, flake8 and RuboCop the value is the list of issues the method
    builds from the tool's report (an ESLint message of severity 2 and
    every recorded tsc line give severity ["error"], RuboCop's severity
    is copied, the rest are warnings); for gofmt it tells whether the
    diff was non-empty, for rustfmt whether the return code was not 0. *)
Record Tools : Type := BuildTools
  { eslint : string -> ToolRun (list Issue.t);
    tsc : string -> ToolRun (list Issue.t);
    flake8 : string -> ToolRun (list Issue.t);
    gofmt : string -> ToolRun bool;
    rustfmt : string -> ToolRun bool;
    rubocop : string -> ToolRun (list Issue.t) }.

Definition warning (file_path : string) (line_num : nat) (message category : string) :
  Issue.t :=
  Issue.Build file_path (Z.of_nat line_num) None "warning" message None category.

(** The lines a basic check iterates over, or the message it prints when
    the file cannot be read. *)
Definition reading (fs : FileSystem) (file_path : string)
  (split : string -> list string) (what : string)
  (check : list (nat * string) -> list Issue.t) : list Issue.t * list string :=
  match fs file_path with
  | Readable content => (check (enumerate_from 1 (split content)), [])
  | Unreadable e => ([], [(what ++ file_path ++ ": " ++ e)%string])
  | Missing =>
      ([], [(what ++ file_path ++ ": [Errno 2] No such file or directory: '"
               ++ file_path ++ "'")%string])
  end.

Definition _check_common_issues (fs : FileSystem) (file_path : string) :
  list Issue.t * list string :=
  reading fs file_path readlines "Error checking common issues in "
    (fun numbered => fold_left
       (fun issues '(line_num, line) =>
          let issues :=
            if negb (String.eqb (rstrip line) (rstrip_char newline line)) then
              issues ++ [warning file_path line_num "Trailing whitespace" "whitespace"]
            else issues in
          let issues :=
            if (120 <? String.length (rstrip line))%nat then
              issues ++ [warning file_path line_num
                           ("Line too long ("
                              ++ str (Z.of_nat (String.length (rstrip line)))
                              ++ " > 120 characters)")
                           "line-length"]
            else issues in
          if contains (String "009" "") line && contains "    " line then
            issues ++ [warning file_path line_num
                         "Mixed tabs and spaces for indentation" "indentation"]
          else issues)
       numbered []).

Definition _basic_javascript_check (fs : FileSystem) (file_path : string) :
  list Issue.t * list string :=
  reading fs file_path split_lines "Error in basic JavaScript check for "
    (fun numbered => fold_left
       (fun issues '(line_num, line) =>
          let stripped := strip line in
          if nonempty stripped
             && negb (existsb (endswith stripped) [";"; "{"; "}"; ":"; ","])
             && negb (existsb (startswith stripped)
                        ["if"; "for"; "while"; "function"; "class"; "const";
                         "let"; "var"; "//"])
          then issues ++ [warning file_path line_num "Missing semicolon"
                            "javascript-style"]
          else issues)
       numbered []).

Definition _basic_python_check (fs : FileSystem) (file_path : string) :
  list Issue.t * list string :=
  reading fs file_path readlines "Error in basic Python check for "
    (fun numbered => fold_left
       (fun issues '(line_num, line) =>
          if startswith line "    " || startswith line (String "009" "") then issues
          else if nonempty (strip line) && startswith line " " then
            let leading_spaces :=
              (String.length line
               - List.length (lstrip_char " " (chars line)))%nat in
            if negb (leading_spaces mod 4 =? 0)%nat then
              issues ++ [warning file_path line_num
                           ("Indentation should be multiple of 4 spaces (found "
                              ++ str (Z.of_nat leading_spaces) ++ ")")
                           "python-indentation"]
            else issues
          else issues)
       numbered []).

Definition _basic_java_check (fs : FileSystem) (file_path : string) :
  list Issue.t * list string :=
  reading fs file_path split_lines "Error in basic Java check for "
    (fun numbered => fold_left
       (fun issues '(line_num, line) =>
          let stripped := strip line in
          if endswith stripped "{"
             && negb (existsb (startswith stripped)
                        ["if"; "for"; "while"; "class"; "public"; "private";
                         "protected"])
          then
            if (0 <? count_char " " line)%nat && negb (endswith line " {") then
              issues ++ [warning file_path line_num
                           "Opening brace should be preceded by a space" "java-style"]
            else issues
          else issues)
       numbered []).

Definition _basic_cpp_check (file_path : string) : list Issue.t := [].
Definition _basic_csharp_check (file_path : string) : list Issue.t := [].
Definition _basic_php_check (file_path : string) : list Issue.t := [].
Definition _basic_ruby_check (file_path : string) : list Issue.t := [].

Section Checker.
Variable tools : Tools.
Variable fs : FileSystem.

Definition _check_javascript (file_path : string) : list Issue.t * list string :=
  match eslint tools file_path with
  | Ran issues => (issues, [])
  | Caught => _basic_javascript_check fs file_path
  end.

Definition _check_typescript (file_path : string) : list Issue.t * list string :=
  match tsc tools file_path with
  | Ran issues => (issues, [])
  | Caught => _basic_javascript_check fs file_path
  end.

Definition _check_python (file_path : string) : list Issue.t * list string :=
  match flake8 tools file_path with
  | Ran issues => (issues, [])
  | Caught => _basic_python_check fs file_path
  end.

Definition _check_java (file_path : string) : list Issue.t * list string :=
  _basic_java_check fs file_path.

Definition _check_go (file_path : string) : list Issue.t * list string :=
  match gofmt tools file_path with
  | Ran true =>
      ([warning file_path 1
          "File is not properly formatted. Run 'gofmt -w' to fix." "gofmt"], [])
  | _ => ([], [])
  end.

Definition _check_rust (file_path : string) : list Issue.t * list string :=
  match rustfmt tools file_path with
  | Ran true =>
      ([warning file_path 1
          "File is not properly formatted. Run 'rustfmt' to fix." "rustfmt"], [])
  | _ => ([], [])
  end.

Definition _check_cpp (file_path : string) : list Issue.t * list string :=
  (_basic_cpp_check file_path, []).
Definition _check_csharp (file_path : string) : list Issue.t * list string :=
  (_basic_csharp_check file_path, []).
Definition _check_php (file_path : string) : list Issue.t * list string :=
  (_basic_php_check file_path, []).

Definition _check_ruby (file_path : string) : list Issue.t * list string :=
  match rubocop tools file_path with
  | Ran issues => (issues, [])
  | Caught => (_basic_ruby_check file_path, [])
  end.

(** The routing on the extension in [check_files]. *)
Definition route (file_path : string) : list Issue.t * list string :=
  let ext := lower_string (suffix file_path) in
  let is_one_of := existsb (String.eqb ext) in
  if is_one_of [".js"; ".jsx"] then _check_javascript file_path
  else if is_one_of [".ts"; ".tsx"] then _check_typescript file_path
  else if String.eqb ext ".py" then _check_python file_path
  else if String.eqb ext ".java" then _check_java file_path
  else if String.eqb ext ".go" then _check_go file_path
  else if String.eqb ext ".rs" then _check_rust file_path
  else if is_one_of [".c"; ".cpp"; ".h"] then _check_cpp file_path
  else if String.eqb ext ".cs" then _check_csharp file_path
  else if String.eqb ext ".php" then _check_php file_path
  else if String.eqb ext ".rb" then _check_ruby file_path
  else ([], []).

(** [self.results] *)
Record Results : Type := BuildResults
  { total_files : Z;
    files_with_issues : Z;
    errors : Z;
    warnings : Z;
    style_issues : list Issue.t;
    lint_score : Z }.

Definition init_results : Results := BuildResults 0 0 0 0 [] 100.

(** One round of the loop over [files] in [check_files]. *)
Definition check_file (state : Results * list string) (file_path : string) :
  Results * list string :=
  let '(r, out) := state in
  if negb (exists_ fs file_path) then state
  else
    let r1 := BuildResults (total_files r + 1) (files_with_issues r) (errors r)
                (warnings r) (style_issues r) (lint_score r) in
    let '(issues, printed) := route file_path in
    let '(common, printed') := _check_common_issues fs file_path in
    let issues := issues ++ common in
    let out := out ++ printed ++ printed' in
    match issues with
    | [] => (r1, out)
    | _ =>
        (BuildResults (total_files r1) (files_with_issues r1 + 1) (errors r1)
           (warnings r1) (style_issues r1 ++ issues) (lint_score r1), out)
    end.

(** The loop "Count errors and warnings". *)
Definition count_severities (r : Results) : Results :=
  fold_left
    (fun r issue =>
       if String.eqb (Issue.severity issue) "error" then
         BuildResults (total_files r) (files_with_issues r) (errors r + 1)
           (warnings r) (style_issues r) (lint_score r)
       else
         BuildResults (total_files r) (files_with_issues r) (errors r)
           (warnings r + 1) (style_issues r) (lint_score r))
    (style_issues r) r.

Definition _calculate_lint_score (r : Results) : Results :=
  let errors_ := errors r in
  let warnings_ := warnings r in
  let score := 100 in
  let score := score - errors_ * 10 in
  let score := score - warnings_ * 2 in
  BuildResults (total_files r) (files_with_issues r) (errors r) (warnings r)
    (style_issues r) (Z.max 0 score).

Definition check_files (files : list string) (r : Results) :
  Results * list string :=
  let out := [("🎨 Checking code style and linting for "
                 ++ str (Z.of_nat (List.length files)) ++ " files...")%string] in
  let '(r, out) := fold_left check_file files (r, out) in
  let r := count_severities r in
  let r := _calculate_lint_score r in
  (r, out ++ [ "🎨 Lint check complete";
               ("📊 Files checked: " ++ str (total_files r))%string;
               ("⚠️ Files with issues: " ++ str (files_with_issues r))%string;
               ("🔴 Errors: " ++ str (errors r))%string;
               ("🟡 Warnings: " ++ str (warnings r))%string;
               ("📈 Lint score: " ++ str (lint_score r) ++ "/100")%string ]).

Record Outcome : Type := BuildOutcome
  { exit_status : Z;
    stdout : list string;
    report : option Results }.

Definition main (argv : list string) : Outcome :=
  match SecurityChecker.files_of_argv argv with
  | None =>
      BuildOutcome 1 ["Usage: python lint-checker.py <file1> <file2> ..."] None
  | Some [] => BuildOutcome 0 ["No files to check"] None
  | Some files =>
      let '(r, out) := check_files files init_results in
      BuildOutcome 0 out (Some r)
  end.

End Checker.

End LintChecker.

(** ** [scripts/ai-reviewer.py]: the summary and the recommendation *)

Module AIReviewer.

(** A Python dictionary with string keys, in insertion order, and its
    [d.get(key, default)]. *)
Definition dict (A : Type) : Type := list (string * A).

Fixpoint get {A : Type} (d : dict A) (key : string) (default : A) : A :=
  match d with
  | [] => default
  | (k, v) :: d' => if String.eqb k key then v else get d' key default
  end.

(** [d[key] = d.get(key, 0) + 1] *)
Fixpoint increment (d : dict Z) (key : string) : dict Z :=
  match d with
  | [] => [(key, 1)]
  | (k, v) :: d' =>
      if String.eqb k key then (k, v + 1) :: d' else (k, v) :: increment d' key
  end.

(** An element of the ["issues"] list of the model's JSON answer; only
    the keys the summary reads.  A key that is absent is [None]. *)
Module Issue.
Record t : Type := Build
  { severity : option string;
    category : option string }.
End Issue.

(** The ["analysis"] dictionary of a reviewed file. *)
Record Analysis : Type := BuildAnalysis
  { overall_score : option Q;
    issues : list Issue.t;
    suggestions : list string }.

(** What [analyze_file_changes] returns: a file without a diff (no
    ["analysis"] key), a reviewed file, or a file whose analysis raised. *)
Inductive FileResult : Type :=
| Unchanged (file : string)
| Reviewed (file language : string) (analysis : Analysis) (diff_size : Z)
| Failed (file error : string).

(** [r.get('analysis')] *)
Definition analysis_of (r : FileResult) : option Analysis :=
  match r with
  | Reviewed _ _ a _ => Some a
  | _ => None
  end.

Definition lt_bool (x y : Q) : bool := negb (Qle_bool y x).

Definition not_recommended : string :=
  "❌ **Not Recommended for Merge** - Critical issues found that should be addressed before merging.".
Definition caution : string :=
  "⚠️ **Merge with Caution** - Multiple medium-severity issues found. Consider addressing before merge.".
Definition needs_improvement : string :=
  "⚠️ **Needs Improvement** - Code quality score is below acceptable threshold.".
Definition approved_with_suggestions : string :=
  "✅ **Approved with Suggestions** - Code is acceptable but has room for improvement.".
Definition approved : string :=
  "✅ **Approved** - Code looks good! No major issues found.".

Definition _get_recommendation (severity_counts : dict Z) (avg_score : Q) : string :=
  if get severity_counts "high" 0 >? 0 then not_recommended
  else if get severity_counts "medium" 0 >? 3 then caution
  else if lt_bool avg_score 60 then needs_improvement
  else if (get severity_counts "medium" 0 >? 0) || (get severity_counts "low" 0 >? 5)
  then approved_with_suggestions
  else approved.

(** [sum(1 for issue in all_issues if issue.get('severity') == label)] *)
Definition count_severity (label : string) (all_issues : list Issue.t) : Z :=
  Z.of_nat
    (List.length
       (filter (fun issue =>
                  match Issue.severity issue with
                  | Some s => String.eqb s label
                  | None => false
                  end) all_issues)).

Record Summary : Type := BuildSummary
  { total_files_analyzed : Z;
    files_with_issues : Z;
    total_issues : Z;
    total_suggestions : Z;
    average_score : Q;
    severity_breakdown : dict Z;
    category_breakdown : dict Z }.

Record Report : Type := BuildReport
  { summary : Summary;
    recommendation : string;
    detailed_results : list FileResult }.

(** [generate_summary].  The rounding of ["average_score"] to one
    decimal is left out: the field holds the exact average. *)
Definition generate_summary (results : list FileResult) : Report :=
  let total_files := Z.of_nat (List.length results) in
  let files_with_issues :=
    Z.of_nat
      (List.length
         (filter (fun r => match analysis_of r with
                           | Some a => match issues a with [] => false | _ => true end
                           | None => false
                           end) results)) in
  let '(all_issues, all_suggestions) :=
    fold_left
      (fun '(all_issues, all_suggestions) result =>
         match analysis_of result with
         | Some a => (all_issues ++ issues a, all_suggestions ++ suggestions a)
         | None => (all_issues, all_suggestions)
         end)
      results ([], []) in
  let severity_counts :=
    [ ("high", count_severity "high" all_issues);
      ("medium", count_severity "medium" all_issues);
      ("low", count_severity "low" all_issues) ] in
  let category_counts :=
    fold_left
      (fun category_counts issue =>
         let cat := match Issue.category issue with
                    | Some c => c
                    | None => "other"
                    end in
         increment category_counts cat)
      all_issues [] in
  let scores :=
    flat_map (fun r => match analysis_of r with
                       | Some a => [match overall_score a with
                                    | Some x => x
                                    | None => 70%Q
                                    end]
                       | None => []
                       end) results in
  let avg_score :=
    match scores with
    | [] => 70%Q
    | _ => (fold_left Qplus scores 0 / inject_Z (Z.of_nat (List.length scores)))%Q
    end in
  BuildReport
    (BuildSummary total_files files_with_issues
       (Z.of_nat (List.length all_issues))
       (Z.of_nat (List.length all_suggestions))
       avg_score severity_counts category_counts)
    (_get_recommendation severity_counts avg_score)
    results.

End AIReviewer.

(** ** The vocabulary of the specification *)

Module Spec.
Import Text Env.

(** Clamping to a closed interval. *)
Definition clamp (lo hi x : Z) : Z := Z.max lo (Z.min hi x).

(** The number of elements that satisfy a test. *)
Definition count {A : Type} (p : A -> bool) (l : list A) : Z :=
  Z.of_nat (List.length (filter p l)).

(** The sum of the values of a dictionary. *)
Definition total (d : AIReviewer.dict Z) : Z :=
  fold_right Z.add 0 (map snd d).

(** A decision list: the verdict of the first rule whose condition
    holds, [otherwise] when none does. *)
Fixpoint first_match {A : Type} (rules : list (bool * A)) (otherwise : A) : A :=
  match rules with
  | [] => otherwise
  | (condition, verdict) :: rules' =>
      if condition then verdict else first_match rules' otherwise
  end.

(** Inputs of the matcher that differ at most in the case of their
    letters. *)
Module Case.
Definition same_letter (a b : ascii) : Prop := lower a = lower b.
Definition same_letter_before (p q : option ascii) : Prop :=
  match p, q with
  | Some a, Some b => same_letter a b
  | None, None => True
  | _, _ => False
  end.

(** Two continuations that agree on such inputs. *)
Definition agree (k1 k2 : option ascii -> list ascii -> bool) : Prop :=
  forall p1 p2 s1 s2,
    same_letter_before p1 p2 -> Forall2 same_letter s1 s2 -> k1 p1 s1 = k2 p2 s2.
End Case.

Module Security.
Import SecurityChecker.

Definition has_severity (s : Severity) (v : Issue.t) : bool :=
  severity_eqb (Issue.severity v) s.

(** The results a fresh checker holds once the loop over the files has
    collected [vulns]. *)
Definition collected (vulns : list Issue.t) : Results :=
  BuildResults 0 0 0 0 vulns 100.

(** The score the checker gives to a collection of findings. *)
Definition score_of (vulns : list Issue.t) : Z :=
  security_score (_calculate_security_score (count_severities (collected vulns))).

(** What one file of a batch adds to the results: whether it is
    counted, the findings it contributes, whether it counts as a file
    with issues. *)
Definition counted (fs : FileSystem) (file_path : string) : bool :=
  exists_ fs file_path.
Definition found (fs : FileSystem) (file_path : string) : list Issue.t :=
  if exists_ fs file_path then fst (_scan_file fs file_path) else [].
Definition flagged (fs : FileSystem) (file_path : string) : bool :=
  match found fs file_path with [] => false | _ => true end.

(** The rules of the catalog with their category, in catalog order. *)
Definition all_rules : list (string * PatternInfo.t) :=
  flat_map (fun '(category, pattern_infos) => map (pair category) pattern_infos)
    _load_security_patterns.

(** The finding a catalog rule reports for a line. *)
Definition universal_issue (file_path : string) (rule : string * PatternInfo.t)
  (line_num : nat) (line : string) : Issue.t :=
  Issue.Build file_path line_num (fst rule) (PatternInfo.severity (snd rule))
    (PatternInfo.message (snd rule)) (strip line)
    (Some (PatternInfo.pattern (snd rule))).

(** The language-specific checks, read as rules. *)
Record LanguageRule : Type := BuildLanguageRule
  { pattern : string; category : string; severity : Severity; message : string }.

Definition javascript_rules : list LanguageRule :=
  [ BuildLanguageRule "\beval\s*\(" "code_injection" high
      "Use of eval() function - potential code injection risk";
    BuildLanguageRule "__proto__|constructor\.prototype" "prototype_pollution" medium
      "Potential prototype pollution vulnerability" ].
Definition python_rules : list LanguageRule :=
  [ BuildLanguageRule "import\s+(pickle|marshal|shelve)" "insecure_deserialization"
      high "Potentially unsafe deserialization module imported" ].
Definition java_rules : list LanguageRule :=
  [ BuildLanguageRule "XMLInputFactory|DocumentBuilderFactory" "xxe" medium
      "XML parser - ensure XXE protection is enabled" ].
Definition php_rules : list LanguageRule :=
  map (fun func =>
         BuildLanguageRule ("\b" ++ func ++ "\s*\(") "command_injection" high
           ("Dangerous function '" ++ func
              ++ "()' used - potential command injection"))
    dangerous_functions.

Definition language_rules (file_path : string) : list LanguageRule :=
  let ext := lower_string (suffix file_path) in
  if existsb (String.eqb ext) [".js"; ".ts"; ".jsx"; ".tsx"] then javascript_rules
  else if String.eqb ext ".py" then python_rules
  else if String.eqb ext ".java" then java_rules
  else if String.eqb ext ".php" then php_rules
  else [].

Definition language_issue (file_path : string) (rule : LanguageRule)
  (line_num : nat) (line : string) : Issue.t :=
  Issue.Build file_path line_num (category rule) (severity rule) (message rule)
    (strip line) None.

(** The findings of one rule over numbered lines: one for each line the
    pattern is found in, in the order of the lines. *)
Definition hits (ignorecase : bool) (pattern : string)
  (issue : nat -> string -> Issue.t) (numbered : list (nat * string)) : list Issue.t :=
  flat_map (fun '(line_num, line) =>
              if re_search ignorecase pattern line then [issue line_num line]
              else [])
    numbered.

(** The findings of one catalog rule over the lines of a file. *)
Definition block (file_path : string) (lines : list string)
  (rule : string * PatternInfo.t) : list Issue.t :=
  hits true (PatternInfo.pattern (snd rule)) (universal_issue file_path rule)
    (enumerate_from 1 lines).

(** The findings of several rules taken line by line. *)
Definition hits_by_line (file_path : string) (rules : list LanguageRule)
  (numbered : list (nat * string)) : list Issue.t :=
  flat_map (fun '(line_num, line) =>
              flat_map (fun rule =>
                          if re_search false (pattern rule) line
                          then [language_issue file_path rule line_num line]
                          else [])
                rules)
    numbered.

(** The rules of the category "sql_injection". *)
Definition sql_injection_rules : list (string * PatternInfo.t) :=
  filter (fun rule => String.eqb (fst rule) "sql_injection") all_rules.

(** A finding reported by a rule of the catalog, by a language-specific
    rule of the file. *)
Definition from_catalog (file_path : string) (v : Issue.t) : Prop :=
  exists rule line_num line,
    In rule all_rules /\ v = universal_issue file_path rule line_num line.
Definition from_language (file_path : string) (v : Issue.t) : Prop :=
  exists rule line_num line,
    In rule (language_rules file_path)
    /\ v = language_issue file_path rule line_num line.

(** Tests on findings: the rule a finding comes from, its line. *)
Definition from_pattern (p : string) (v : Issue.t) : bool :=
  match Issue.pattern v with
  | Some p' => String.eqb p' p
  | None => false
  end.
Definition from_language_rule (rule : LanguageRule) (v : Issue.t) : bool :=
  match Issue.pattern v with
  | Some _ => false
  | None => String.eqb (Issue.message v) (message rule)
  end.
Definition on_line (n : nat) (v : Issue.t) : bool := (Issue.line v =? n)%nat.
Definition in_category (c : string) (v : Issue.t) : bool :=
  String.eqb (Issue.category v) c.

(** The place of a pattern in a list of rules (the length of the list
    when it is not there), and the place of a finding's rule in the
    catalog; a language-specific finding comes after all of them. *)
Fixpoint position (p : string) (rules : list (string * PatternInfo.t)) : nat :=
  match rules with
  | [] => O
  | rule :: rules' =>
      if String.eqb (PatternInfo.pattern (snd rule)) p then O
      else S (position p rules')
  end.
Definition rule_index_in (rules : list (string * PatternInfo.t)) (v : Issue.t) : nat :=
  match Issue.pattern v with
  | Some p => position p rules
  | None => List.length rules
  end.
Definition rule_index : Issue.t -> nat := rule_index_in all_rules.

(** Rule-major order: by rule, then by line. *)
Definition rule_then_line_in (rules : list (string * PatternInfo.t))
  (v w : Issue.t) : Prop :=
  (rule_index_in rules v < rule_index_in rules w)%nat
  \/ (rule_index_in rules v = rule_index_in rules w
      /\ (Issue.line v < Issue.line w)%nat).
Definition rule_then_line : Issue.t -> Issue.t -> Prop :=
  rule_then_line_in all_rules.

(** Line-major order. *)
Definition line_order (v w : Issue.t) : Prop :=
  (Issue.line v <= Issue.line w)%nat.

(** A list of texts without repetition. *)
Fixpoint distinct (l : list string) : bool :=
  match l with
  | [] => true
  | x :: l' => negb (existsb (String.eqb x) l') && distinct l'
  end.

(** Two findings come from the same rule: a rule is identified by its
    category and message. *)
Definition same_rule (v w : Issue.t) : bool :=
  String.eqb (Issue.category v) (Issue.category w)
  && String.eqb (Issue.message v) (Issue.message w).

(** "All findings of one rule appear together": no finding of another
    rule stands between two findings of a rule. *)
Definition rule_major (issues : list Issue.t) : Prop :=
  forall l1 v l2 u l3 w l4,
    issues = l1 ++ v :: l2 ++ u :: l3 ++ w :: l4 ->
    same_rule v w = true -> same_rule v u = true.

End Security.

Module Lint.
Import LintChecker.

Definition is_error (issue : Issue.t) : bool :=
  String.eqb (Issue.severity issue) "error".

Definition collected (style_issues : list Issue.t) : Results :=
  BuildResults 0 0 0 0 style_issues 100.

(** The score the checker gives to a collection of issues. *)
Definition score_of (style_issues : list Issue.t) : Z :=
  lint_score (_calculate_lint_score (count_severities (collected style_issues))).

(** What one file of a batch adds to the results. *)
Definition counted (fs : FileSystem) (file_path : string) : bool :=
  exists_ fs file_path.
Definition found (tools : Tools) (fs : FileSystem) (file_path : string) :
  list Issue.t :=
  if exists_ fs file_path
  then fst (route tools fs file_path) ++ fst (_check_common_issues fs file_path)
  else [].
Definition flagged (tools : Tools) (fs : FileSystem) (file_path : string) : bool :=
  match found tools fs file_path with [] => false | _ => true end.

End Lint.

Module Review.
Import AIReviewer.

(** The severities the summary has a counter for. *)
Definition tiered (issue : Issue.t) : bool :=
  match Issue.severity issue with
  | Some s => String.eqb s "high" || String.eqb s "medium" || String.eqb s "low"
  | None => false
  end.

(** The issues of all reviewed files, in order. *)
Definition all_issues (results : list FileResult) : list Issue.t :=
  flat_map (fun r => match analysis_of r with
                     | Some a => issues a
                     | None => []
                     end) results.

(** The decision list of the recommendation, in the words of the
    specification. *)
Definition recommend (high_count medium_count low_count : Z) (score : Q) : string :=
  first_match
    [ (0 <? high_count, not_recommended);
      (3 <? medium_count, caution);
      (lt_bool score 60, needs_improvement);
      ((0 <? medium_count) || (5 <? low_count), approved_with_suggestions) ]
    approved.

End Review.

End Spec.

(** ** Concrete inputs *)

Module Examples.
Import Text Env.

Definition nl : string := String newline "".

(** A file system with the given readable files and nothing else. *)
Fixpoint files (contents : list (string * string)) : FileSystem :=
  fun path =>
    match contents with
    | [] => Missing
    | (p, content) :: rest =>
        if String.eqb p path then Readable content else files rest path
    end.

Definition q : string := SecurityChecker.q.

(** [query("SELECT * FROM users WHERE id=" + userId)] *)
Definition scenario_line : string :=
  "query(" ++ q ++ "SELECT * FROM users WHERE id=" ++ q ++ " + userId)".

(** [query("SELECT * FROM users WHERE id='" + userId + "'")] *)
Definition quoted_line : string :=
  "query(" ++ q ++ "SELECT * FROM users WHERE id='" ++ q ++ " + userId + "
    ++ q ++ "'" ++ q ++ ")".

Definition scenario_fs : FileSystem := files [("app.js", scenario_line)].

(** An upper-case call of [eval] in a JavaScript file. *)
Definition shouting_fs : FileSystem := files [("a.js", "EVAL(x)")].

(** Two JavaScript-specific rules that alternate over three lines. *)
Definition alternating_fs : FileSystem :=
  files [("a.js", ("eval(x)" ++ nl ++ "a.__proto__ = b" ++ nl ++ "eval(y)")%string)].

(** A line that a catalog rule and a JavaScript rule both match. *)
Definition eval_fs : FileSystem := files [("b.js", "eval(a + b)")].

(** A weak hash on line 1 and a concatenated query on line 2. *)
Definition hash_then_query_fs : FileSystem :=
  files [("job.rb",
          ("h = md5(data)" ++ nl
             ++ "db.run('SELECT a FROM t WHERE b=' + x + '')")%string)].

(** A batch with a missing file, a file that cannot be opened and a
    readable one. *)
Definition batch_fs : FileSystem :=
  fun path =>
    if String.eqb path "locked.py"
    then Unreadable "[Errno 13] Permission denied: 'locked.py'"
    else files [("ok.py", ("import pickle" ++ nl)%string)] path.

(** ESLint reports one message of severity 2 for [app.js]; no other
    tool is installed. *)
Definition eslint_error : LintChecker.Issue.t :=
  LintChecker.Issue.Build "app.js" 1 (Some 1) "error" "'x' is not defined."
    (Some "no-undef") "eslint".

Definition eslint_only : LintChecker.Tools :=
  LintChecker.BuildTools
    (fun path => if String.eqb path "app.js"
                 then LintChecker.Ran [eslint_error] else LintChecker.Ran [])
    (fun _ => LintChecker.Caught) (fun _ => LintChecker.Caught)
    (fun _ => LintChecker.Caught) (fun _ => LintChecker.Caught)
    (fun _ => LintChecker.Caught).

Definition lint_fs : FileSystem := files [("app.js", ("x = 1;" ++ nl)%string)].

(** A review whose only issue carries a severity outside the three
    tiers. *)
Definition critical_review : list AIReviewer.FileResult :=
  [ AIReviewer.Reviewed "a.py" "Python"
      (AIReviewer.BuildAnalysis (Some 40%Q)
         [AIReviewer.Issue.Build (Some "critical") (Some "security")] [])
      12 ].

Definition tiered_review : list AIReviewer.FileResult :=
  [ AIReviewer.Reviewed "a.py" "Python"
      (AIReviewer.BuildAnalysis (Some 80%Q)
         [ AIReviewer.Issue.Build (Some "medium") (Some "quality");
           AIReviewer.Issue.Build (Some "low") None ] [])
      12;
    AIReviewer.Unchanged "b.py" ].

End Examples.

(** ** Further vocabulary *)

Module Terms.
Import Text Env.

(** A run of characters without white space. *)
Definition solid (l : list ascii) : Prop := Forall (fun c => is_space c = false) l.

(** A file name that a space-separated argument can carry: not empty
    and without white space. *)
Definition plain (name : string) : Prop := name <> "" /\ solid (chars name).

(** Text of ASCII characters, for which the white space, the word
    characters and the letter cases of Python are the ones of [Text]. *)
Definition ascii_text (s : string) : Prop :=
  Forall (fun c => (code c < 128)%N) (chars s).

(** A run of white space. *)
Definition blank (s : string) : Prop := Forall (fun c => is_space c = true) (chars s).

(** The character that precedes what follows [l], when [p] precedes
    [l]. *)
Definition prev_after (p : option ascii) (l : list ascii) : option ascii :=
  fold_left (fun _ c => Some c) l p.

(** A prefix that is empty or ends outside a word (as "// " or "# "
    do). *)
Definition detached (prefix : string) : Prop :=
  Re.word_at (prev_after None (chars prefix)) = false.

(** Two preceding characters that a word boundary cannot tell apart, and
    two continuations that agree on them. *)
Definition same_boundary (p q : option ascii) : Prop := Re.word_at p = Re.word_at q.
Definition agree_boundary (k1 k2 : option ascii -> list ascii -> bool) : Prop :=
  forall p1 p2 s, same_boundary p1 p2 -> k1 p1 s = k2 p2 s.

(** Two findings that differ at most in the snippet they quote. *)
Definition same_report (v w : SecurityChecker.Issue.t) : Prop :=
  SecurityChecker.Issue.file v = SecurityChecker.Issue.file w
  /\ SecurityChecker.Issue.line v = SecurityChecker.Issue.line w
  /\ SecurityChecker.Issue.category v = SecurityChecker.Issue.category w
  /\ SecurityChecker.Issue.severity v = SecurityChecker.Issue.severity w
  /\ SecurityChecker.Issue.message v = SecurityChecker.Issue.message w
  /\ SecurityChecker.Issue.pattern v = SecurityChecker.Issue.pattern w.

End Terms.

(** ** Vocabulary for the lint checker *)

Module LintTerms.
Import Text Env LintChecker.

(** An issue built by one of the checker's own checks for a file. *)
Definition built_in (file_path : string) (i : Issue.t) : Prop :=
  Issue.file i = file_path
  /\ Issue.severity i = "warning"
  /\ Issue.column i = None
  /\ Issue.rule i = None
  /\ 1 <= Issue.line i.

(** An issue taken from what an external linter reported for a file. *)
Definition tool_report (tools : Tools) (file_path : string) (i : Issue.t) : Prop :=
  exists l,
    In i l
    /\ (eslint tools file_path = Ran l \/ tsc tools file_path = Ran l
        \/ flake8 tools file_path = Ran l \/ rubocop tools file_path = Ran l).

(** External linters that report no issue of severity "error" (as when
    none of them is installed). *)
Definition quiet (tools : Tools) : Prop :=
  forall file_path i, tool_report tools file_path i -> Issue.severity i <> "error".

(** No external linter is installed: every call raises. *)
Definition no_tools : Tools :=
  BuildTools (fun _ => Caught) (fun _ => Caught) (fun _ => Caught)
    (fun _ => Caught) (fun _ => Caught) (fun _ => Caught).

(** The number of spaces a line starts with. *)
Fixpoint indent (l : list ascii) : nat :=
  match l with
  | c :: l' => if Ascii.eqb c " " then S (indent l') else 0
  | [] => 0
  end.

(** The warning of the basic Python check for a line that starts with
    [k] spaces. *)
Definition indentation_warning (file_path : string) (line_num k : nat) : Issue.t :=
  warning file_path line_num
    ("Indentation should be multiple of 4 spaces (found "
       ++ str (Z.of_nat k) ++ ")")
    "python-indentation".

(** The last character of a line that is not part of its final run of
    newlines. *)
Definition last_visible (line : string) : option ascii :=
  match lstrip_char newline (rev (chars line)) with
  | c :: _ => Some c
  | [] => None
  end.

Definition trailing_whitespace (file_path : string) (line_num : nat) : Issue.t :=
  warning file_path line_num "Trailing whitespace" "whitespace".

End LintTerms.

(** ** Vocabulary for the summary of a review *)

Module ReviewTerms.
Import AIReviewer.

(** [issue.get('category', 'other')] *)
Definition category_name (issue : Issue.t) : string :=
  match Issue.category issue with
  | Some c => c
  | None => "other"
  end.

Definition in_category (c : string) (issue : Issue.t) : bool :=
  String.eqb (category_name issue) c.

(** ['analysis' in r] *)
Definition reviewed (r : FileResult) : bool :=
  match analysis_of r with
  | Some _ => true
  | None => false
  end.

(** The suggestions of all reviewed files, in order. *)
Definition all_suggestions (results : list FileResult) : list string :=
  flat_map (fun r => match analysis_of r with
                     | Some a => suggestions a
                     | None => []
                     end) results.

(** The scores that enter the average: one for each reviewed file, 70
    where the answer has none. *)
Definition scores (results : list FileResult) : list Q :=
  flat_map (fun r => match analysis_of r with
                     | Some a => [match overall_score a with
                                  | Some x => x
                                  | None => 70%Q
                                  end]
                     | None => []
                     end) results.

(** [sum(scores) / len(scores) if scores else 70] *)
Definition average (scores : list Q) : Q :=
  match scores with
  | [] => 70%Q
  | _ => (fold_left Qplus scores 0 / inject_Z (Z.of_nat (List.length scores)))%Q
  end.

(** The three counters the recommendation reads. *)
Definition tiers (found : list Issue.t) : dict Z :=
  [ ("high", count_severity "high" found);
    ("medium", count_severity "medium" found);
    ("low", count_severity "low" found) ].

(** A result without the issues whose severity is none of the three
    labels. *)
Definition drop_untiered (r : FileResult) : FileResult :=
  match r with
  | Reviewed file language a diff_size =>
      Reviewed file language
        (BuildAnalysis (overall_score a) (filter Spec.Review.tiered (issues a))
           (suggestions a))
        diff_size
  | _ => r
  end.

Definition sum (l : list Q) : Q := fold_right Qplus 0%Q l.

End ReviewTerms.

(** ** The run of [scripts/ai-reviewer.py]

    The calls of [analyze_file_changes] and [_ai_analyze_code], and [main]
    from the parsed arguments on.  The file system is the one the reviewer
    sees: it opens a file without [errors='ignore'], so a file that is not
    valid UTF-8 is [Unreadable].  What the script prints is left out (its
    last line shows the average as a float). *)

Module Reviewer.
Import Text Env AIReviewer.

Definition nl : string := String newline "".
Definition q : string := String dquote "".

(** What a call that may raise gives. *)
Inductive Attempt (A : Type) : Type :=
| Raises (e : string)
| Returns (a : A).
Arguments Raises {A} e.
Arguments Returns {A} a.

(** What the [try] block around [requests.post] gets: an exception
    (raised by the request, by [response.json()], by the look-up of the
    first choice or by a content that is no text), or a response with its status code and, when that is
    200, the text of the first choice. *)
Inductive Reply : Type :=
| Failure (e : string)
| Answer (status_code : Z) (ai_response : string).

Definition _detect_language (extension : string) : string :=
  let lang_map :=
    [ (".js", "JavaScript");
      (".jsx", "JavaScript React");
      (".ts", "TypeScript");
      (".tsx", "TypeScript React");
      (".py", "Python");
      (".java", "Java");
      (".go", "Go");
      (".rs", "Rust");
      (".cpp", "C++");
      (".c", "C");
      (".h", "C/C++ Header");
      (".cs", "C#");
      (".php", "PHP");
      (".rb", "Ruby");
      (".swift", "Swift");
      (".kt", "Kotlin");
      (".scala", "Scala") ] in
  get lang_map extension "Unknown".

Definition max_content_length : nat := N.to_nat 8000.

(** [s[:max_content_length] + "\n... (truncated)"] when [s] is longer
    than that, else [s]. *)
Definition truncate (s : string) : string :=
  if (max_content_length <? String.length s)%nat
  then (substring 0 max_content_length s ++ nl ++ "... (truncated)")%string
  else s.

Definition prompt (language file_path diff content : string) : string :=
  String.concat nl
    [ "";
      ("You are an expert code reviewer. Analyze the following " ++ language
        ++ " code changes and provide a comprehensive review.")%string;
      "";
      ("File: " ++ file_path)%string;
      ("Language: " ++ language)%string;
      "";
      "Git Diff:";
      "```";
      diff;
      "```";
      "";
      "Full File Content (current):";
      ("```" ++ lower_string language)%string;
      content;
      "```";
      "";
      "Please analyze for:";
      "1. Syntax errors and compilation issues";
      "2. Security vulnerabilities (OWASP Top 10, injection attacks, etc.)";
      "3. Code quality issues (complexity, maintainability, readability)";
      "4. Linting issues and style violations";
      "5. Performance concerns";
      "6. Best practices violations";
      "7. Unnecessary whitespace or formatting issues";
      "8. Missing error handling";
      "9. Documentation and comments";
      "10. Design patterns and architecture";
      "";
      "Provide your response in the following JSON format:";
      "{";
      ("    " ++ q ++ "overall_score" ++ q ++ ": 85,")%string;
      ("    " ++ q ++ "issues" ++ q ++ ": [")%string;
      "        {";
      ("            " ++ q ++ "severity" ++ q ++ ": " ++ q ++ "high|medium|low" ++ q ++ ",")%string;
      ("            " ++ q ++ "category" ++ q ++ ": " ++ q
        ++ "security|quality|style|performance|best-practice" ++ q ++ ",")%string;
      ("            " ++ q ++ "line" ++ q ++ ": 42,")%string;
      ("            " ++ q ++ "message" ++ q ++ ": " ++ q
        ++ "Detailed description of the issue" ++ q ++ ",")%string;
      ("            " ++ q ++ "suggestion" ++ q ++ ": " ++ q ++ "How to fix this issue"
        ++ q)%string;
      "        }";
      "    ],";
      ("    " ++ q ++ "suggestions" ++ q ++ ": [")%string;
      "        {";
      ("            " ++ q ++ "type" ++ q ++ ": " ++ q
        ++ "improvement|optimization|refactor" ++ q ++ ",")%string;
      ("            " ++ q ++ "message" ++ q ++ ": " ++ q
        ++ "General suggestion for improvement" ++ q ++ ",")%string;
      ("            " ++ q ++ "reasoning" ++ q ++ ": " ++ q
        ++ "Why this improvement would help" ++ q)%string;
      "        }";
      "    ],";
      ("    " ++ q ++ "security_score" ++ q ++ ": 90,")%string;
      ("    " ++ q ++ "quality_score" ++ q ++ ": 85,")%string;
      ("    " ++ q ++ "maintainability_score" ++ q ++ ": 80")%string;
      "}";
      "";
      "Be thorough but practical. Focus on actionable feedback.";
      "" ].

(** [s.find(c)] and [s.rfind(c)] for a character: the first and the last
    index of [c], -1 when [c] does not occur. *)
Fixpoint find_char (c : ascii) (l : list ascii) : Z :=
  match l with
  | [] => -1
  | a :: l' =>
      if Ascii.eqb a c then 0
      else let i := find_char c l' in
           if i =? -1 then -1 else i + 1
  end.
Definition find (c : ascii) (s : string) : Z := find_char c (chars s).
Definition rfind (c : ascii) (s : string) : Z :=
  let i := find_char c (rev (chars s)) in
  if i =? -1 then -1 else Z.of_nat (String.length s) - 1 - i.

(** [s[start:stop]] for indices that are not negative. *)
Definition slice (start stop : Z) (s : string) : string :=
  text (firstn (Z.to_nat (stop - start)) (skipn (Z.to_nat start) (chars s))).

(** The text handed to [json.loads], when there is one. *)
Definition json_span (ai_response : string) : option string :=
  let json_start := find "{" ai_response in
  let json_end := rfind "}" ai_response + 1 in
  if negb (json_start =? -1) && negb (json_end =? -1)
  then Some (slice json_start json_end ai_response)
  else None.

(** The two analyses the method builds itself, with the keys the summary
    reads: for an answer that holds no JSON, and for a request that
    failed. *)
Definition raw_analysis : Analysis := BuildAnalysis (Some 70%Q) [] [].
Definition error_analysis : Analysis := BuildAnalysis (Some 50%Q) [] [].

(** A JSON object as [generate_summary] meets it.  The method returns
    what [json.loads] gives without looking at it: [Typed a] is an object
    the summary can process, [a] holding what it reads there; [Untyped]
    is an object on which the summary raises a [TypeError] or an
    [AttributeError] (["issues"] or ["suggestions"] that is [null] or a
    number, an issue that is no object, an ["overall_score"] that is
    [null] or a string, a category that cannot be a key). *)
Inductive Object : Type :=
| Typed (a : Analysis)
| Untyped.

(** What [analyze_file_changes] returns: a result the summary can
    process, or the result of a reviewed file whose ["analysis"] is
    [Untyped]. *)
Inductive Result : Type :=
| Summable (r : FileResult)
| Unsummable (file language : string) (diff_size : Z).

(** The results as [generate_summary] reads them, unless it raises. *)
Fixpoint summable (results : list Result) : option (list FileResult) :=
  match results with
  | [] => Some []
  | Summable r :: results' => option_map (cons r) (summable results')
  | Unsummable _ _ _ :: _ => None
  end.

Section Run.

(** The files, [git diff origin/main HEAD -- path], the chat service
    (from the API key and the prompt; the rest of the request is
    constant) and [json.loads], [None] standing for a
    [JSONDecodeError]. *)
Variable fs : FileSystem.
Variable git_diff : string -> Attempt string.
Variable post : string -> string -> Reply.
Variable loads : string -> option Object.

Definition _ai_analyze_code (api_key content diff language file_path : string) :
  Object :=
  let content := truncate content in
  let diff := truncate diff in
  match post api_key (prompt language file_path diff content) with
  | Answer status_code ai_response =>
      if status_code =? 200 then
        match json_span ai_response with
        | Some json_str =>
            match loads json_str with
            | Some analysis => analysis
            | None => Typed raw_analysis
            end
        | None => Typed raw_analysis
        end
      else Typed error_analysis
  | Failure e => Typed error_analysis
  end.

Definition analyze_file_changes (api_key file_path : string) : Result :=
  match fs file_path with
  | Readable content =>
      let ext := lower_string (suffix file_path) in
      let language := _detect_language ext in
      match git_diff file_path with
      | Returns diff_content =>
          if negb (nonempty (strip diff_content))
          then Summable (Unchanged file_path)
          else
            let diff_size := Z.of_nat (List.length (split_lines diff_content)) in
            match _ai_analyze_code api_key content diff_content language
                    file_path with
            | Typed analysis =>
                Summable (Reviewed file_path language analysis diff_size)
            | Untyped => Unsummable file_path language diff_size
            end
      | Raises e => Summable (Failed file_path e)
      end
  | Unreadable e => Summable (Failed file_path e)
  | Missing =>
      Summable
        (Failed file_path
           ("[Errno 2] No such file or directory: '" ++ file_path ++ "'"))
  end.

Record Outcome : Type := BuildOutcome
  { exit_status : Z;
    report : option Report }.

(** [main], from the value of [OPENAI_API_KEY] and of [--files].  An
    exception of [generate_summary] is not caught: the script ends with
    status 1 before it writes the report. *)
Definition main (api_key : option string) (files_arg : string) : Outcome :=
  match api_key with
  | None | Some EmptyString => BuildOutcome 1 None
  | Some api_key =>
      let files :=
        map strip (filter (fun f => nonempty (strip f)) (split_ws files_arg)) in
      match files with
      | [] => BuildOutcome 0 None
      | _ =>
          let results :=
            fold_left
              (fun results file_path =>
                 if exists_ fs file_path
                 then results ++ [analyze_file_changes api_key file_path]
                 else results)
              files [] in
          match summable results with
          | Some results => BuildOutcome 0 (Some (generate_summary results))
          | None => BuildOutcome 1 None
          end
      end
  end.

End Run.

End Reviewer.

(** ** Vocabulary for a run of the reviewer *)

Module RunTerms.
Import Text Env AIReviewer Reviewer.

Definition len (s : string) : Z := Z.of_nat (String.length s).

(** A character that does not occur in a text. *)
Definition absent (c : ascii) (s : string) : Prop := ~ In c (chars s).

(** The file a result is about. *)
Definition file_of (r : FileResult) : string :=
  match r with
  | Unchanged file => file
  | Reviewed file _ _ _ => file
  | Failed file _ => file
  end.

(** Answers of the service that hold, when they hold a JSON object, one
    the summary can process. *)
Definition well_typed (loads : string -> option Object) : Prop :=
  forall json_str, loads json_str <> Some Untyped.



(** A result on which the summary raises. *)
Definition unsummable (r : Result) : Prop :=
  match r with
  | Unsummable _ _ _ => True
  | Summable _ => False
  end.

(** The sum of the lengths of some texts. *)
Definition lengths (l : list string) : Z := fold_right (fun s n => len s + n) 0 l.

(** The file names of [--files]. *)
Definition listed (files_arg : string) : list string := split_ws files_arg.

End RunTerms.

(** ** Further concrete inputs *)

Module Cases.
Import Text Env.

(** A call of [eval], and the same line commented out. *)
Definition live_fs : FileSystem := Examples.files [("a.js", "eval(a + b)")].
Definition commented_fs : FileSystem := Examples.files [("a.js", "// eval(a + b)")].

(** A Python file whose second line starts with five spaces and whose
    third line starts with two. *)
Definition indented_fs : FileSystem :=
  Examples.files
    [("a.py", ("if x:" ++ Examples.nl ++ "     y = 1" ++ Examples.nl
                 ++ "  z = 2" ++ Examples.nl)%string)].

(** A file whose second line ends with a space. *)
Definition trailing_fs : FileSystem :=
  Examples.files
    [("notes.txt", ("first" ++ Examples.nl ++ "second " ++ Examples.nl)%string)].

(** Two files of which none was reviewed: one has no diff, the analysis
    of the other raised. *)
Definition unreviewed : list AIReviewer.FileResult :=
  [ AIReviewer.Unchanged "a.py"; AIReviewer.Failed "b.py" "[Errno 13] Permission denied: 'b.py'" ].

(** A run of the reviewer on one changed Python file: the service
    answers with a JSON object inside a Markdown fence, which holds one
    issue of severity "high". *)
Definition review_fs : FileSystem :=
  Examples.files [("a.py", ("import os" ++ Examples.nl)%string)].
Definition review_diff (file_path : string) : Reviewer.Attempt string :=
  Reviewer.Returns ("+import os" ++ Examples.nl)%string.
Definition fenced_answer : string :=
  ("```json" ++ Examples.nl ++ "{ }" ++ Examples.nl ++ "```")%string.
Definition review_post (api_key prompt : string) : Reviewer.Reply :=
  Reviewer.Answer 200 fenced_answer.
Definition review_loads (json_str : string) : option Reviewer.Object :=
  if String.eqb json_str "{ }"
  then Some (Reviewer.Typed
               (AIReviewer.BuildAnalysis (Some 90%Q)
                  [AIReviewer.Issue.Build (Some "high") (Some "security")] []))
  else None.

(** An answer whose ["issues"] is [null]. *)
Definition null_issues_loads (json_str : string) : option Reviewer.Object :=
  Some Reviewer.Untyped.


End Cases.

(** * Properties *)

(** ** Lists and loops *)

Module Loops.

(** A loop that only appends to its accumulator. *)
Lemma fold_left_append (A B : Type) (f : B -> list A) (l : list B) (acc : list A) :
  fold_left (fun acc x => acc ++ f x) l acc = acc ++ flat_map f l.
Proof.
  revert acc; induction l as [|x l IH]; intros acc; simpl.
  - now rewrite app_nil_r.
  - now rewrite IH, app_assoc.
Qed.

Lemma fold_left_ext (A B : Type) (f g : A -> B -> A) (l : list B) (a : A) :
  (forall a x, f a x = g a x) -> fold_left f l a = fold_left g l a.
Proof.
  intros E; revert a; induction l as [|x l IH]; intros a; simpl; [easy|].
  now rewrite E, IH.
Qed.

Lemma count_nonneg (A : Type) (p : A -> bool) (l : list A) : 0 <= Spec.count p l.
Proof. unfold Spec.count; lia. Qed.

Lemma count_cons (A : Type) (p : A -> bool) (x : A) (l : list A) :
  Spec.count p (x :: l) = (if p x then 1 else 0) + Spec.count p l.
Proof.
  unfold Spec.count; simpl; destruct (p x); simpl List.length; lia.
Qed.

Lemma count_app (A : Type) (p : A -> bool) (l1 l2 : list A) :
  Spec.count p (l1 ++ l2) = Spec.count p l1 + Spec.count p l2.
Proof.
  unfold Spec.count; rewrite filter_app, length_app; lia.
Qed.

Lemma count_split (A : Type) (p : A -> bool) (l : list A) :
  Spec.count p l + Spec.count (fun x => negb (p x)) l = Z.of_nat (List.length l).
Proof.
  induction l as [|x l IH]; [reflexivity|].
  rewrite !count_cons; simpl List.length; destruct (p x); simpl negb; lia.
Qed.

Lemma count_ext (A : Type) (p p' : A -> bool) (l : list A) :
  (forall x, p x = p' x) -> Spec.count p l = Spec.count p' l.
Proof.
  intros E; unfold Spec.count; now rewrite (filter_ext _ _ E).
Qed.

End Loops.

(** ** The score *)

Module Score.
Import Loops.

Section Security.
Import SecurityChecker Spec.Security.

(** The counting loop adds the number of high findings to [errors] and
    the number of the others to [warnings]. *)
Lemma count_loop (l : list Issue.t) (r : Results) :
  let step := fun r vuln =>
    if severity_eqb (Issue.severity vuln) high then
      BuildResults (total_files r) (files_with_issues r) (errors r + 1)
        (warnings r) (vulnerabilities r) (security_score r)
    else
      BuildResults (total_files r) (files_with_issues r) (errors r)
        (warnings r + 1) (vulnerabilities r) (security_score r) in
  fold_left step l r =
  BuildResults (total_files r) (files_with_issues r)
    (errors r + Spec.count (has_severity high) l)
    (warnings r + Spec.count (fun v => negb (has_severity high v)) l)
    (vulnerabilities r) (security_score r).
Proof.
  cbv zeta; revert r; induction l as [|v l IH]; intros r.
  - destruct r; cbn; f_equal; lia.
  - simpl fold_left; rewrite IH, !count_cons; unfold has_severity.
    destruct (severity_eqb (Issue.severity v) high);
      cbn [total_files files_with_issues errors warnings vulnerabilities
             security_score negb];
      f_equal; lia.
Qed.

Lemma count_severities_spec (r : Results) :
  count_severities r =
  BuildResults (total_files r) (files_with_issues r)
    (errors r + Spec.count (has_severity high) (vulnerabilities r))
    (warnings r + Spec.count (fun v => negb (has_severity high v)) (vulnerabilities r))
    (vulnerabilities r) (security_score r).
Proof. unfold count_severities; apply count_loop. Qed.

(** A finding that is not high is medium or low. *)
(** A finding that is not high is medium or low. *)
Lemma not_high (l : list Issue.t) :
  Spec.count (fun v => negb (has_severity high v)) l =
  Spec.count (has_severity medium) l + Spec.count (has_severity low) l.
Proof.
  induction l as [|v l IH]; [reflexivity|].
  rewrite !count_cons, IH; unfold has_severity.
  destruct (Issue.severity v); cbn [severity_eqb negb]; lia.
Qed.

Lemma score_of_eq (vulns : list Issue.t) :
  score_of vulns =
  Z.max 0 (100 - Spec.count (has_severity high) vulns * 15
             - Spec.count (fun v => negb (has_severity high v)) vulns * 5).
Proof.
  unfold score_of, collected; rewrite count_severities_spec; reflexivity.
Qed.

End Security.

Section Lint.
Import LintChecker Spec.Lint.

Lemma lint_count_loop (l : list Issue.t) (r : Results) :
  let step := fun r issue =>
    if String.eqb (Issue.severity issue) "error" then
      BuildResults (total_files r) (files_with_issues r) (errors r + 1)
        (warnings r) (style_issues r) (lint_score r)
    else
      BuildResults (total_files r) (files_with_issues r) (errors r)
        (warnings r + 1) (style_issues r) (lint_score r) in
  fold_left step l r =
  BuildResults (total_files r) (files_with_issues r)
    (errors r + Spec.count is_error l)
    (warnings r + Spec.count (fun i => negb (is_error i)) l)
    (style_issues r) (lint_score r).
Proof.
  cbv zeta; revert r; induction l as [|v l IH]; intros r.
  - destruct r; cbn; f_equal; lia.
  - simpl fold_left; rewrite IH, !count_cons; unfold is_error.
    destruct (String.eqb (Issue.severity v) "error");
      cbn [total_files files_with_issues errors warnings style_issues
             lint_score negb];
      f_equal; lia.
Qed.

Lemma lint_count_severities_spec (r : Results) :
  count_severities r =
  BuildResults (total_files r) (files_with_issues r)
    (errors r + Spec.count is_error (style_issues r))
    (warnings r + Spec.count (fun i => negb (is_error i)) (style_issues r))
    (style_issues r) (lint_score r).
Proof. unfold count_severities; apply lint_count_loop. Qed.

Lemma lint_score_of_eq (style_issues : list Issue.t) :
  score_of style_issues =
  Z.max 0 (100 - Spec.count is_error style_issues * 10
             - Spec.count (fun i => negb (is_error i)) style_issues * 2).
Proof.
  unfold score_of, collected; rewrite lint_count_severities_spec; reflexivity.
Qed.

End Lint.

(** C2.  For every collection of findings the score is 100 minus 15 for
    each high and 5 for each medium or low finding in the security
    checker, and 100 minus 10 for each error and 2 for each other issue
    (the checker's warnings) in the lint checker, clamped to the
    interval from 0 to 100. *)
Theorem score_is_clamped_penalty :
  (forall vulns : list SecurityChecker.Issue.t,
      Spec.Security.score_of vulns =
      Spec.clamp 0 100
        (100
         - 15 * Spec.count (Spec.Security.has_severity SecurityChecker.high) vulns
         - 5 * (Spec.count (Spec.Security.has_severity SecurityChecker.medium) vulns
                + Spec.count (Spec.Security.has_severity SecurityChecker.low) vulns)))
  /\ (forall style_issues : list LintChecker.Issue.t,
         Spec.Lint.score_of style_issues =
         Spec.clamp 0 100
           (100
            - 10 * Spec.count Spec.Lint.is_error style_issues
            - 2 * Spec.count (fun i => negb (Spec.Lint.is_error i)) style_issues)).
Proof.
  split; intros l.
  - rewrite score_of_eq, not_high; unfold Spec.clamp.
    pose proof (count_nonneg _ (Spec.Security.has_severity SecurityChecker.high) l).
    pose proof (count_nonneg _ (Spec.Security.has_severity SecurityChecker.medium) l).
    pose proof (count_nonneg _ (Spec.Security.has_severity SecurityChecker.low) l).
    lia.
  - rewrite lint_score_of_eq; unfold Spec.clamp.
    pose proof (count_nonneg _ Spec.Lint.is_error l).
    pose proof (count_nonneg _ (fun i => negb (Spec.Lint.is_error i)) l).
    lia.
Qed.

(** C8.  Adding a finding, wherever it lands in the collection and
    whatever its severity, never raises the score, and the score always
    lies between 0 and 100; in both checkers. *)
Theorem score_monotone_and_bounded :
  (forall (before after : list SecurityChecker.Issue.t) (v : SecurityChecker.Issue.t),
      Spec.Security.score_of (before ++ v :: after)
      <= Spec.Security.score_of (before ++ after)
      /\ 0 <= Spec.Security.score_of (before ++ after) <= 100)
  /\ (forall (before after : list LintChecker.Issue.t) (i : LintChecker.Issue.t),
         Spec.Lint.score_of (before ++ i :: after)
         <= Spec.Lint.score_of (before ++ after)
         /\ 0 <= Spec.Lint.score_of (before ++ after) <= 100).
Proof.
  split; intros before after v.
  - rewrite !score_of_eq, !count_app, !count_cons.
    pose proof (count_nonneg _ (Spec.Security.has_severity SecurityChecker.high) before).
    pose proof (count_nonneg _ (Spec.Security.has_severity SecurityChecker.high) after).
    pose proof (count_nonneg _
      (fun v => negb (Spec.Security.has_severity SecurityChecker.high v)) before).
    pose proof (count_nonneg _
      (fun v => negb (Spec.Security.has_severity SecurityChecker.high v)) after).
    destruct (Spec.Security.has_severity SecurityChecker.high v); cbn [negb]; lia.
  - rewrite !lint_score_of_eq, !count_app, !count_cons.
    pose proof (count_nonneg _ Spec.Lint.is_error before).
    pose proof (count_nonneg _ Spec.Lint.is_error after).
    pose proof (count_nonneg _ (fun i => negb (Spec.Lint.is_error i)) before).
    pose proof (count_nonneg _ (fun i => negb (Spec.Lint.is_error i)) after).
    destruct (Spec.Lint.is_error v); cbn [negb]; lia.
Qed.

End Score.

(** ** The recommendation and the summary of the AI reviewer *)

Module Verdict.
Import AIReviewer.

Lemma lt_bool_iff (x y : Q) : lt_bool x y = true <-> (x < y)%Q.
Proof.
  unfold lt_bool; rewrite negb_true_iff, <- not_true_iff_false, Qle_bool_iff.
  split; [apply Qnot_le_lt | apply Qlt_not_le].
Qed.

Lemma gtb_iff (x y : Z) : (x >? y) = true <-> y < x.
Proof. rewrite Z.gtb_ltb; apply Z.ltb_lt. Qed.

Ltac differ :=
  let E := fresh "E" in
  intro E; apply String.eqb_eq in E; vm_compute in E; discriminate E.

(** The five verdicts are pairwise different texts. *)
Lemma verdicts_differ :
  (not_recommended <> caution /\ not_recommended <> needs_improvement
   /\ not_recommended <> approved_with_suggestions /\ not_recommended <> approved)
  /\ (caution <> needs_improvement /\ caution <> approved_with_suggestions
      /\ caution <> approved)
  /\ (needs_improvement <> approved_with_suggestions
      /\ needs_improvement <> approved)
  /\ approved_with_suggestions <> approved.
Proof. repeat split; differ. Qed.

(** C3.  For every dictionary of severity counts and every average
    score the recommendation is the verdict of the first rule that
    applies, in the order: a high count above 0, not recommended; a
    medium count above 3, caution; a score below 60, needs improvement;
    a medium count above 0 or a low count above 5, approved with
    suggestions; otherwise approved.  Each verdict is returned exactly
    when its rule applies and none of the earlier ones does. *)
Theorem recommendation_is_first_match :
  forall (severity_counts : dict Z) (avg_score : Q),
    let high_count := get severity_counts "high" 0 in
    let medium_count := get severity_counts "medium" 0 in
    let low_count := get severity_counts "low" 0 in
    let verdict := _get_recommendation severity_counts avg_score in
    verdict = Spec.Review.recommend high_count medium_count low_count avg_score
    /\ (verdict = not_recommended <-> 0 < high_count)
    /\ (verdict = caution <-> high_count <= 0 /\ 3 < medium_count)
    /\ (verdict = needs_improvement <->
        high_count <= 0 /\ medium_count <= 3 /\ (avg_score < 60)%Q)
    /\ (verdict = approved_with_suggestions <->
        high_count <= 0 /\ medium_count <= 3 /\ ~ (avg_score < 60)%Q
        /\ (0 < medium_count \/ 5 < low_count))
    /\ (verdict = approved <->
        high_count <= 0 /\ medium_count <= 0 /\ low_count <= 5
        /\ ~ (avg_score < 60)%Q).
Proof.
  intros sc avg h m l verdict.
  destruct verdicts_differ as ((D01 & D02 & D03 & D04) & (D12 & D13 & D14)
                               & (D23 & D24) & D34).
  pose proof (lt_bool_iff avg 60) as Hs.
  subst verdict; unfold _get_recommendation, Spec.Review.recommend, Spec.first_match.
  fold h m l; rewrite !Z.gtb_ltb.
  destruct (0 <? h) eqn:Eh;
    [apply Z.ltb_lt in Eh | apply Z.ltb_ge in Eh];
    [ repeat split; intros; try tauto; try lia; exfalso;
      solve [ lia | intuition congruence ] | ].
  destruct (3 <? m) eqn:Em;
    [apply Z.ltb_lt in Em | apply Z.ltb_ge in Em];
    [ repeat split; intros; try tauto; try lia; exfalso;
      solve [ lia | intuition congruence ] | ].
  destruct (lt_bool avg 60) eqn:Es.
  { assert (avg < 60)%Q by now apply Hs.
    repeat split; intros; try tauto; try lia; exfalso;
      solve [ lia | intuition congruence ]. }
  assert (~ (avg < 60)%Q) by (rewrite <- Hs; congruence).
  destruct (0 <? m) eqn:Em0;
    [apply Z.ltb_lt in Em0 | apply Z.ltb_ge in Em0]; cbn [orb].
  { repeat split; intros; try tauto; try lia; exfalso;
      solve [ lia | intuition congruence ]. }
  destruct (5 <? l) eqn:El;
    [apply Z.ltb_lt in El | apply Z.ltb_ge in El];
    repeat split; intros; try tauto; try lia; exfalso;
      solve [ lia | intuition congruence ].
Qed.

End Verdict.

(** ** The loop over the files of a batch *)

Module Batch.
Import Env Loops.

Section Security.
Import SecurityChecker Spec.Security.

Lemma scan_loop (fs : FileSystem) (files : list string) (r : Results)
  (out : list string) :
  fst (fold_left (check_file fs) files (r, out)) =
  BuildResults
    (total_files r + Spec.count (counted fs) files)
    (files_with_issues r + Spec.count (flagged fs) files)
    (errors r) (warnings r)
    (vulnerabilities r ++ flat_map (found fs) files)
    (security_score r).
Proof.
  revert r out; induction files as [|f files IH]; intros r out.
  - destruct r; cbn; rewrite app_nil_r; f_equal; lia.
  - cbn [fold_left flat_map]; rewrite !count_cons.
    change (flagged fs f) with (match found fs f with [] => false | _ => true end).
    change (found fs f)
      with (if exists_ fs f then fst (_scan_file fs f) else []).
    change (counted fs f) with (exists_ fs f).
    unfold check_file at 2.
    destruct (exists_ fs f); cbn [negb].
    + destruct (_scan_file fs f) as [issues printed]; cbn [fst].
      destruct issues as [|v issues]; rewrite IH;
        cbn [total_files files_with_issues errors warnings vulnerabilities
               security_score];
        f_equal; try lia.
      now rewrite <- app_assoc.
    + rewrite IH; f_equal; cbn [app]; lia.
Qed.

(** The results of [check_files] on a fresh checker. *)
Lemma check_files_results (fs : FileSystem) (files : list string) :
  let vulns := flat_map (found fs) files in
  fst (check_files fs files init_results) =
  BuildResults
    (Spec.count (counted fs) files)
    (Spec.count (flagged fs) files)
    (Spec.count (Spec.Security.has_severity high) vulns)
    (Spec.count (fun v => negb (Spec.Security.has_severity high v)) vulns)
    vulns
    (Spec.Security.score_of vulns).
Proof.
  cbv zeta; unfold check_files.
  pose proof (scan_loop fs files init_results
    [("🔒 Scanning " ++ str (Z.of_nat (List.length files))
        ++ " files for security vulnerabilities...")%string]) as L.
  destruct (fold_left (check_file fs) files _) as [r out]; cbn [fst] in *.
  subst r; cbn [init_results total_files files_with_issues errors warnings
                  vulnerabilities security_score app Z.add].
  rewrite Score.score_of_eq, Score.count_severities_spec; reflexivity.
Qed.

End Security.

Section Lint.
Import LintChecker Spec.Lint.
Variable tools : Tools.
Variable fs : FileSystem.

Lemma lint_scan_loop (files : list string) (r : Results) (out : list string) :
  fst (fold_left (check_file tools fs) files (r, out)) =
  BuildResults
    (total_files r + Spec.count (counted fs) files)
    (files_with_issues r + Spec.count (flagged tools fs) files)
    (errors r) (warnings r)
    (style_issues r ++ flat_map (found tools fs) files)
    (lint_score r).
Proof.
  revert r out; induction files as [|f files IH]; intros r out.
  - destruct r; cbn; rewrite app_nil_r; f_equal; lia.
  - cbn [fold_left flat_map]; rewrite !count_cons.
    change (flagged tools fs f)
      with (match found tools fs f with [] => false | _ => true end).
    change (found tools fs f)
      with (if exists_ fs f
            then fst (route tools fs f) ++ fst (_check_common_issues fs f)
            else []).
    change (counted fs f) with (exists_ fs f).
    unfold check_file at 2.
    destruct (exists_ fs f); cbn [negb].
    + destruct (route tools fs f) as [issues printed].
      destruct (_check_common_issues fs f) as [common printed']; cbn [fst].
      destruct (issues ++ common) as [|v found]; rewrite IH;
        cbn [total_files files_with_issues errors warnings style_issues
               lint_score];
        f_equal; try lia.
      now rewrite <- app_assoc.
    + rewrite IH; f_equal; cbn [app]; lia.
Qed.

Lemma lint_check_files_results (files : list string) :
  let issues := flat_map (found tools fs) files in
  fst (check_files tools fs files init_results) =
  BuildResults
    (Spec.count (counted fs) files)
    (Spec.count (flagged tools fs) files)
    (Spec.count is_error issues)
    (Spec.count (fun i => negb (is_error i)) issues)
    issues
    (score_of issues).
Proof.
  cbv zeta; unfold check_files.
  pose proof (lint_scan_loop files init_results
    [("🎨 Checking code style and linting for "
        ++ str (Z.of_nat (List.length files)) ++ " files...")%string]) as L.
  destruct (fold_left (check_file tools fs) files _) as [r out]; cbn [fst] in *.
  subst r; cbn [init_results total_files files_with_issues errors warnings
                  style_issues lint_score app Z.add].
  rewrite Score.lint_score_of_eq, Score.lint_count_severities_spec; reflexivity.
Qed.

End Lint.

Lemma count_positive (A : Type) (p : A -> bool) (l : list A) :
  0 < Spec.count p l <-> exists x, In x l /\ p x = true.
Proof.
  induction l as [|x l IH].
  - cbn; split; [lia | intros (x & [] & _)].
  - rewrite count_cons; pose proof (count_nonneg _ p l) as N.
    destruct (p x) eqn:E; split.
    + intros _; exists x; split; [now left | exact E].
    + lia.
    + intros H; assert (H' : 0 < Spec.count p l) by lia.
      apply IH in H' as (y & Hy & Py); exists y; split; [now right | exact Py].
    + intros (y & [-> | Hy] & Py); [congruence|].
      assert (0 < Spec.count p l) by (apply IH; now exists y). lia.
Qed.

(** C1 (as the code has it).  Whenever a batch of files was scanned,
    the security checker exits with status 1 if the report holds a
    finding of high severity and with status 0 if it holds none; the
    lint checker exits with status 0 whatever the severities of its
    issues. *)
Theorem exit_status_by_checker :
  (forall (fs : FileSystem) (argv : list string) (r : SecurityChecker.Results),
      SecurityChecker.report (SecurityChecker.main fs argv) = Some r ->
      ((exists v, In v (SecurityChecker.vulnerabilities r)
                  /\ SecurityChecker.Issue.severity v = SecurityChecker.high) ->
       SecurityChecker.exit_status (SecurityChecker.main fs argv) = 1)
      /\ ((forall v, In v (SecurityChecker.vulnerabilities r) ->
                     SecurityChecker.Issue.severity v <> SecurityChecker.high) ->
          SecurityChecker.exit_status (SecurityChecker.main fs argv) = 0))
  /\ (forall (tools : LintChecker.Tools) (fs : FileSystem) (argv : list string)
             (r : LintChecker.Results),
         LintChecker.report (LintChecker.main tools fs argv) = Some r ->
         LintChecker.exit_status (LintChecker.main tools fs argv) = 0).
Proof.
  split.
  - intros fs argv r; unfold SecurityChecker.main.
    destruct (SecurityChecker.files_of_argv argv) as [[|f files]|];
      [discriminate | | discriminate].
    pose proof (check_files_results fs (f :: files)) as R; cbv zeta in R.
    destruct (SecurityChecker.check_files fs (f :: files) _) as [r' out];
      cbn [fst] in R.
    assert (E : SecurityChecker.errors r'
                = Spec.count (Spec.Security.has_severity SecurityChecker.high)
                    (SecurityChecker.vulnerabilities r'))
      by (rewrite R; reflexivity).
    rewrite Z.gtb_ltb.
    destruct (0 <? SecurityChecker.errors r') eqn:Pos;
      [apply Z.ltb_lt in Pos | apply Z.ltb_ge in Pos];
      cbn [SecurityChecker.report SecurityChecker.exit_status];
      intros [= <-]; rewrite E in Pos; split; intros H; try reflexivity; exfalso.
    + apply count_positive in Pos as (v & Hv & Sv).
      apply (H v Hv); unfold Spec.Security.has_severity in Sv.
      destruct (SecurityChecker.Issue.severity v); now try discriminate Sv.
    + destruct H as (v & Hv & Sv).
      assert (0 < Spec.count (Spec.Security.has_severity SecurityChecker.high)
                    (SecurityChecker.vulnerabilities r')); [|lia].
      apply count_positive; exists v; split; [exact Hv|].
      unfold Spec.Security.has_severity; now rewrite Sv.
  - intros tools fs argv r; unfold LintChecker.main.
    destruct (SecurityChecker.files_of_argv argv) as [[|f files]|];
      [discriminate | | discriminate].
    now destruct (LintChecker.check_files tools fs (f :: files) _).
Qed.

Lemma exit_status_by_checker_witness :
  SecurityChecker.exit_status
    (SecurityChecker.main Examples.batch_fs ["security-checker.py"; "ok.py"]) = 1
  /\ LintChecker.exit_status
       (LintChecker.main Examples.eslint_only Examples.lint_fs
          ["lint-checker.py"; "app.js"]) = 0.
Proof.
  destruct exit_status_by_checker as [S L]; split.
  - eapply S; [vm_compute; reflexivity|].
    eexists; split; [left; reflexivity | reflexivity].
  - eapply L; vm_compute; reflexivity.
Defined.

(** The lint checker exits with status 0 although its report holds an
    issue of severity "error". *)
Lemma lint_exit_ignores_errors :
  let run := LintChecker.main Examples.eslint_only Examples.lint_fs
               ["lint-checker.py"; "app.js"] in
  (exists r, LintChecker.report run = Some r
             /\ In Examples.eslint_error (LintChecker.style_issues r)
             /\ LintChecker.errors r = 1)
  /\ LintChecker.Issue.severity Examples.eslint_error = "error"
  /\ LintChecker.exit_status run = 0.
Proof.
  cbv zeta; split; [|split; reflexivity].
  eexists; split; [vm_compute; reflexivity|].
  split; [left; reflexivity | reflexivity].
Qed.

(** The list of files is empty only for a command line with exactly one
    argument (which then holds no file name). *)
Lemma empty_file_list_has_one_argument (argv : list string) :
  SecurityChecker.files_of_argv argv = Some [] ->
  exists program arg, argv = [program; arg].
Proof.
  destruct argv as [|program [|arg [|arg' rest]]]; cbn; try discriminate.
  intros _; now exists program, arg.
Qed.

(** The score a run reports is the score of the findings it reports. *)
Lemma reported_scores (tools : LintChecker.Tools) (fs : FileSystem)
  (files : list string) :
  (let r := fst (SecurityChecker.check_files fs files SecurityChecker.init_results) in
   SecurityChecker.security_score r
   = Spec.Security.score_of (SecurityChecker.vulnerabilities r))
  /\ (let r := fst (LintChecker.check_files tools fs files LintChecker.init_results) in
      LintChecker.lint_score r = Spec.Lint.score_of (LintChecker.style_issues r)).
Proof.
  cbv zeta; rewrite check_files_results, lint_check_files_results; split; reflexivity.
Qed.

(** Without any argument the scripts print their usage and exit with
    status 1. *)
Lemma no_argument_is_a_usage_error (tools : LintChecker.Tools) (fs : FileSystem)
  (program : string) :
  SecurityChecker.exit_status (SecurityChecker.main fs [program]) = 1
  /\ LintChecker.exit_status (LintChecker.main tools fs [program]) = 1.
Proof. split; reflexivity. Qed.

(** C6 (as the code has it).  A file of the batch that exists but
    cannot be opened yields no finding, only a printed error; it is
    counted in [total_files], and everything else in the results is as
    for the batch without it, so the scan of the other files goes on
    unchanged.  A file that does not exist is skipped: the results are
    those of the batch without it, [total_files] included. *)
Theorem unreadable_file_is_local :
  forall (fs : FileSystem) (before : list string) (file_path : string)
         (after : list string),
    let r := fst (SecurityChecker.check_files fs (before ++ file_path :: after)
                    SecurityChecker.init_results) in
    let r' := fst (SecurityChecker.check_files fs (before ++ after)
                     SecurityChecker.init_results) in
    (forall e, fs file_path = Unreadable e ->
               SecurityChecker._scan_file fs file_path
               = ([], [("Error scanning " ++ file_path ++ ": " ++ e)%string])
               /\ r = SecurityChecker.BuildResults
                        (SecurityChecker.total_files r' + 1)
                        (SecurityChecker.files_with_issues r')
                        (SecurityChecker.errors r')
                        (SecurityChecker.warnings r')
                        (SecurityChecker.vulnerabilities r')
                        (SecurityChecker.security_score r'))
    /\ (fs file_path = Missing -> r = r').
Proof.
  intros fs before f after r r'; subst r r'.
  assert (H : (forall content, fs f <> Readable content) ->
              Spec.Security.found fs f = [] /\ Spec.Security.flagged fs f = false).
  { intros Bad.
    assert (F : Spec.Security.found fs f = []).
    { unfold Spec.Security.found, SecurityChecker._scan_file.
      destruct (exists_ fs f); [|reflexivity].
      destruct (fs f) as [|e|content] eqn:E; try reflexivity.
      now destruct (Bad content). }
    split; [exact F | unfold Spec.Security.flagged; now rewrite F]. }
  rewrite !check_files_results; cbv zeta.
  cbn [SecurityChecker.total_files SecurityChecker.files_with_issues
         SecurityChecker.errors SecurityChecker.warnings
         SecurityChecker.vulnerabilities SecurityChecker.security_score].
  rewrite !flat_map_app; cbn [flat_map]; rewrite !count_app, !count_cons.
  change (Spec.Security.counted fs f) with (exists_ fs f).
  split; [intros e E | intros E];
    (destruct H as [F G]; [intros content; rewrite E; discriminate|]);
    rewrite F, G; cbn [app]; unfold exists_ at 1; rewrite E.
  - split; [unfold SecurityChecker._scan_file; now rewrite E|].
    f_equal; lia.
  - f_equal; lia.
Qed.

Lemma unreadable_file_is_local_witness :
  let r := fst (SecurityChecker.check_files Examples.batch_fs
                  ["gone.py"; "locked.py"; "ok.py"] SecurityChecker.init_results) in
  let r' := fst (SecurityChecker.check_files Examples.batch_fs
                   ["gone.py"; "ok.py"] SecurityChecker.init_results) in
  SecurityChecker.total_files r = SecurityChecker.total_files r' + 1
  /\ SecurityChecker.vulnerabilities r = SecurityChecker.vulnerabilities r'.
Proof.
  cbv zeta.
  destruct (unreadable_file_is_local Examples.batch_fs ["gone.py"] "locked.py"
              ["ok.py"]) as [U _].
  destruct (U "[Errno 13] Permission denied: 'locked.py'" eq_refl) as [_ E].
  cbn [app] in E; rewrite E; split; reflexivity.
Defined.

(** A file that does not exist is not counted in [total_files]: the
    batch made of it alone reports zero files. *)
Lemma missing_file_is_not_counted :
  Examples.batch_fs "gone.py" = Missing
  /\ fst (SecurityChecker.check_files Examples.batch_fs ["gone.py"]
            SecurityChecker.init_results)
     = SecurityChecker.BuildResults 0 0 0 0 [] 100.
Proof. split; vm_compute; reflexivity. Qed.

End Batch.

(** ** The severity breakdown *)

Module Breakdown.
Import Loops.

Section Review.
Import AIReviewer Spec.Review.

(** The loop that gathers the issues and suggestions of the reviewed
    files. *)
Lemma gather (results : list FileResult) (issues0 : list Issue.t)
  (suggestions0 : list string) :
  fst (fold_left
         (fun '(all_issues, all_suggestions) result =>
            match analysis_of result with
            | Some a => (all_issues ++ issues a, all_suggestions ++ suggestions a)
            | None => (all_issues, all_suggestions)
            end)
         results (issues0, suggestions0))
  = issues0 ++ all_issues results.
Proof.
  revert issues0 suggestions0; induction results as [|r results IH];
    intros issues0 suggestions0; cbn [fold_left all_issues flat_map].
  - now rewrite app_nil_r.
  - destruct (analysis_of r) as [a|]; rewrite IH; [|reflexivity].
    now rewrite app_assoc.
Qed.

Lemma summary_counts (results : list FileResult) :
  let s := summary (generate_summary results) in
  total_issues s = Z.of_nat (List.length (all_issues results))
  /\ severity_breakdown s
     = [ ("high", count_severity "high" (all_issues results));
         ("medium", count_severity "medium" (all_issues results));
         ("low", count_severity "low" (all_issues results)) ].
Proof.
  cbv zeta; unfold generate_summary.
  pose proof (gather results [] []) as G.
  destruct (fold_left _ results ([], [])) as [found suggested].
  cbn [fst app] in G; subst found; split; reflexivity.
Qed.

Lemma count_severity_cons (label : string) (i : Issue.t) (l : list Issue.t) :
  count_severity label (i :: l)
  = (if match Issue.severity i with
        | Some s => String.eqb s label
        | None => false
        end then 1 else 0) + count_severity label l.
Proof.
  exact (count_cons _ (fun issue => match Issue.severity issue with
                                    | Some s => String.eqb s label
                                    | None => false
                                    end) i l).
Qed.

(** An issue is counted in exactly one tier when its severity is one
    of the three labels, and in none otherwise. *)
Lemma tiers_partition (l : list Issue.t) :
  count_severity "high" l + count_severity "medium" l + count_severity "low" l
  = Spec.count tiered l.
Proof.
  induction l as [|i l IH]; [reflexivity|].
  rewrite !count_severity_cons, count_cons, <- IH; unfold tiered.
  destruct (Issue.severity i) as [s|]; [|lia].
  destruct (String.eqb s "high") eqn:H;
    [apply String.eqb_eq in H; subst s; cbn [String.eqb Ascii.eqb Bool.eqb orb]; lia|].
  destruct (String.eqb s "medium") eqn:M;
    [apply String.eqb_eq in M; subst s; cbn [String.eqb Ascii.eqb Bool.eqb orb]; lia|].
  destruct (String.eqb s "low"); cbn [orb]; lia.
Qed.

Lemma count_all (A : Type) (p : A -> bool) (l : list A) :
  Spec.count p l = Z.of_nat (List.length l) <-> Forall (fun x => p x = true) l.
Proof.
  induction l as [|x l IH].
  - split; [constructor | reflexivity].
  - rewrite count_cons; cbn [List.length].
    pose proof (count_split _ p l) as S.
    pose proof (count_nonneg _ (fun x => negb (p x)) l) as N.
    destruct (p x) eqn:E; split.
    + intros H; constructor; [exact E | apply IH; lia].
    + intros H; inversion H; subst.
      assert (Spec.count p l = Z.of_nat (List.length l)) by now apply IH.
      lia.
    + lia.
    + intros H; inversion H; congruence.
Qed.

End Review.

(** C7 (as the code has it).  In the security checker [errors] plus
    [warnings] is the number of findings, for every collection of
    findings and so for every run.  In the summary of the AI reviewer
    the counts for high, medium and low add up to the number of issues
    whose severity is one of these three labels; they add up to the
    total number of issues exactly when every issue carries one of
    them. *)
Theorem severity_breakdown_total :
  (forall vulns : list SecurityChecker.Issue.t,
      let r := SecurityChecker.count_severities (Spec.Security.collected vulns) in
      SecurityChecker.errors r + SecurityChecker.warnings r
      = Z.of_nat (List.length vulns))
  /\ (forall (fs : Env.FileSystem) (files : list string),
         let r := fst (SecurityChecker.check_files fs files
                         SecurityChecker.init_results) in
         SecurityChecker.errors r + SecurityChecker.warnings r
         = Z.of_nat (List.length (SecurityChecker.vulnerabilities r)))
  /\ (forall results : list AIReviewer.FileResult,
         let s := AIReviewer.summary (AIReviewer.generate_summary results) in
         let found := Spec.Review.all_issues results in
         AIReviewer.total_issues s = Z.of_nat (List.length found)
         /\ Spec.total (AIReviewer.severity_breakdown s)
            = Spec.count Spec.Review.tiered found
         /\ (Spec.total (AIReviewer.severity_breakdown s) = AIReviewer.total_issues s
             <-> Forall (fun issue => Spec.Review.tiered issue = true) found)).
Proof.
  split; [|split].
  - intros vulns; cbv zeta; rewrite Score.count_severities_spec.
    cbn [SecurityChecker.errors SecurityChecker.warnings Spec.Security.collected
           SecurityChecker.vulnerabilities Z.add].
    apply count_split.
  - intros fs files; cbv zeta; rewrite Batch.check_files_results; cbv zeta.
    cbn [SecurityChecker.errors SecurityChecker.warnings
           SecurityChecker.vulnerabilities].
    apply count_split.
  - intros results; cbv zeta.
    destruct (summary_counts results) as [T B]; cbv zeta in T, B.
    rewrite T, B; unfold Spec.total; cbn [map snd fold_right].
    rewrite Z.add_0_r, Z.add_assoc, tiers_partition.
    split; [reflexivity | split; [reflexivity | apply count_all]].
Qed.

(** An issue with the severity "critical" is counted in the total but
    in none of the three tiers: the breakdown sums to 0, the total is
    1. *)
Lemma breakdown_misses_other_severities :
  let s := AIReviewer.summary (AIReviewer.generate_summary Examples.critical_review) in
  Spec.total (AIReviewer.severity_breakdown s) = 0
  /\ AIReviewer.total_issues s = 1
  /\ Spec.total (AIReviewer.severity_breakdown s) <> AIReviewer.total_issues s.
Proof. cbv zeta; repeat split; vm_compute; discriminate. Qed.

End Breakdown.

(** ** The shape of a file's findings *)

Module Scan.
Import Text Env Loops SecurityChecker Spec.Security.

(** Every pattern of the checker lies in the fragment of [Re.compile], so
    [re_search] never falls back on its default. *)
Lemma patterns_compile :
  Forall (fun rule => Re.compile (PatternInfo.pattern (snd rule)) <> None) all_rules
  /\ Forall (fun rule => Re.compile (pattern rule) <> None)
       (javascript_rules ++ python_rules ++ java_rules ++ php_rules).
Proof. split; repeat constructor; vm_compute; discriminate. Qed.

(** A conditional [append] in a loop over numbered lines. *)
Lemma conditional_appends (A : Type) (test : nat -> string -> bool)
  (item : nat -> string -> A) (numbered : list (nat * string)) (acc : list A) :
  fold_left
    (fun acc '(line_num, line) =>
       if test line_num line then acc ++ [item line_num line] else acc)
    numbered acc
  = acc ++ flat_map (fun '(line_num, line) =>
                       if test line_num line then [item line_num line] else [])
             numbered.
Proof.
  rewrite <- fold_left_append; apply fold_left_ext.
  intros a [n line]; destruct (test n line); [reflexivity | now rewrite app_nil_r].
Qed.

Lemma scan_pattern_spec (file_path category : string) (rule : PatternInfo.t)
  (lines : list string) (issues : list Issue.t) :
  scan_pattern file_path category rule lines issues
  = issues ++ hits true (PatternInfo.pattern rule)
                (universal_issue file_path (category, rule))
                (enumerate_from 1 lines).
Proof.
  unfold scan_pattern, hits, universal_issue; cbv zeta; cbn [fst snd].
  apply (conditional_appends _
           (fun _ line => re_search true (PatternInfo.pattern rule) line)).
Qed.

(** The rules of a dictionary of patterns, in order. *)
Lemma scan_patterns_spec (patterns : list (string * list PatternInfo.t))
  (file_path : string) (lines : list string) (issues : list Issue.t) :
  scan_patterns patterns file_path lines issues
  = issues
    ++ flat_map (fun rule =>
                   hits true (PatternInfo.pattern (snd rule))
                     (universal_issue file_path rule) (enumerate_from 1 lines))
         (flat_map (fun '(category, pattern_infos) =>
                      map (pair category) pattern_infos) patterns).
Proof.
  unfold scan_patterns; revert issues.
  induction patterns as [|[category infos] patterns IH]; intros issues.
  - cbn; now rewrite app_nil_r.
  - cbn [fold_left flat_map]; rewrite IH, flat_map_app, app_assoc; f_equal.
    clear IH; revert issues; induction infos as [|info infos IH]; intros issues.
    + cbn; now rewrite app_nil_r.
    + cbn [fold_left map flat_map]; rewrite IH, scan_pattern_spec.
      now rewrite <- app_assoc.
Qed.

Lemma javascript_spec (file_path content : string) (issues : list Issue.t) :
  _check_javascript_security file_path content issues
  = issues ++ hits_by_line file_path javascript_rules
                (enumerate_from 1 (split_lines content)).
Proof.
  unfold _check_javascript_security, hits_by_line; cbv zeta.
  rewrite <- fold_left_append; apply fold_left_ext.
  intros a [n line]; cbn [flat_map javascript_rules pattern app].
  unfold language_issue; cbn [category severity message].
  destruct (re_search false "\beval\s*\(" line);
    destruct (re_search false "__proto__|constructor\.prototype" line);
    cbn [app]; rewrite <- ?app_assoc, ?app_nil_r; reflexivity.
Qed.

Lemma python_spec (file_path content : string) (issues : list Issue.t) :
  _check_python_security file_path content issues
  = issues ++ hits_by_line file_path python_rules
                (enumerate_from 1 (split_lines content)).
Proof.
  unfold _check_python_security, hits_by_line; cbv zeta.
  rewrite <- fold_left_append; apply fold_left_ext.
  intros a [n line]; cbn [flat_map python_rules pattern app].
  unfold language_issue; cbn [category severity message].
  destruct (re_search false "import\s+(pickle|marshal|shelve)" line);
    cbn [app]; rewrite ?app_nil_r; reflexivity.
Qed.

Lemma java_spec (file_path content : string) (issues : list Issue.t) :
  _check_java_security file_path content issues
  = issues ++ hits_by_line file_path java_rules
                (enumerate_from 1 (split_lines content)).
Proof.
  unfold _check_java_security, hits_by_line; cbv zeta.
  rewrite <- fold_left_append; apply fold_left_ext.
  intros a [n line]; cbn [flat_map java_rules pattern app].
  unfold language_issue; cbn [category severity message].
  destruct (re_search false "XMLInputFactory|DocumentBuilderFactory" line);
    cbn [app]; rewrite ?app_nil_r; reflexivity.
Qed.

Lemma php_spec (file_path content : string) (issues : list Issue.t) :
  _check_php_security file_path content issues
  = issues ++ hits_by_line file_path php_rules
                (enumerate_from 1 (split_lines content)).
Proof.
  unfold _check_php_security, hits_by_line; cbv zeta.
  rewrite <- fold_left_append; apply fold_left_ext.
  intros a [n line].
  rewrite <- (fold_left_append _ _
                (fun rule => if re_search false (pattern rule) line
                             then [language_issue file_path rule n line] else [])).
  unfold php_rules; generalize dangerous_functions as funcs; intros funcs.
  revert a; induction funcs as [|func funcs IH]; intros a; [reflexivity|].
  cbn [fold_left map pattern]; rewrite <- IH; f_equal.
  unfold language_issue; cbn [category severity message].
  destruct (re_search false _ line); [reflexivity | now rewrite app_nil_r].
Qed.

Lemma language_specific_spec (file_path content : string) (issues : list Issue.t) :
  _check_language_specific file_path content issues
  = issues ++ hits_by_line file_path (language_rules file_path)
                (enumerate_from 1 (split_lines content)).
Proof.
  unfold _check_language_specific, language_rules; cbv zeta.
  destruct (existsb _ _); [apply javascript_spec|].
  destruct (String.eqb _ ".py"); [apply python_spec|].
  destruct (String.eqb _ ".java"); [apply java_spec|].
  destruct (String.eqb _ ".php"); [apply php_spec|].
  unfold hits_by_line.
  induction (enumerate_from 1 (split_lines content)) as [|[n line] l IH];
    [now rewrite app_nil_r | exact IH].
Qed.

(** The findings of a readable file: the catalog rule by rule, each
    over all lines, then the language-specific rules line by line. *)
Lemma scan_file_spec (fs : FileSystem) (file_path content : string) :
  fs file_path = Readable content ->
  let numbered := enumerate_from 1 (split_lines content) in
  fst (_scan_file fs file_path)
  = flat_map (fun rule =>
                hits true (PatternInfo.pattern (snd rule))
                  (universal_issue file_path rule) numbered)
      all_rules
    ++ hits_by_line file_path (language_rules file_path) numbered.
Proof.
  intros E; cbv zeta; unfold _scan_file; rewrite E; cbn [fst].
  rewrite language_specific_spec, scan_patterns_spec; reflexivity.
Qed.

End Scan.

(** ** The order of a file's findings *)

Module Order.
Import Text Env Loops SecurityChecker Spec.Security Scan.

Lemma sorted_app (A : Type) (R : A -> A -> Prop) (l1 l2 : list A) :
  StronglySorted R l1 -> StronglySorted R l2 ->
  (forall a b, In a l1 -> In b l2 -> R a b) ->
  StronglySorted R (l1 ++ l2).
Proof.
  intros S1 S2 C; induction S1 as [|a l1 S1 IH F]; [exact S2|].
  cbn [app]; constructor.
  - apply IH; intros x y Hx; apply C; now right.
  - apply Forall_app; split; [exact F|].
    apply Forall_forall; intros y Hy; apply C; [now left | exact Hy].
Qed.

Lemma sorted_weaken (A : Type) (R R' : A -> A -> Prop) (l : list A) :
  (forall a b, In a l -> In b l -> R a b -> R' a b) ->
  StronglySorted R l -> StronglySorted R' l.
Proof.
  intros W S; induction S as [|a l S IH F]; constructor.
  - apply IH; intros x y Hx Hy; apply W; now right.
  - rewrite Forall_forall in *; intros y Hy.
    apply W; [now left | now right | now apply F].
Qed.

(** In a sorted list an element that stands before another is related
    to it. *)
Lemma sorted_pair (A : Type) (R : A -> A -> Prop) (l1 l2 l3 : list A) (a b : A) :
  StronglySorted R (l1 ++ a :: l2 ++ b :: l3) -> R a b.
Proof.
  induction l1 as [|x l1 IH]; cbn [app]; intros S; inversion S; subst.
  - match goal with H : Forall _ _ |- _ => rewrite Forall_forall in H; apply H end.
    apply in_or_app; right; now left.
  - now apply IH.
Qed.

Lemma distinct_NoDup (l : list string) : distinct l = true -> NoDup l.
Proof.
  induction l as [|x l IH]; cbn [distinct]; [constructor|].
  rewrite andb_true_iff, negb_true_iff; intros [N D]; constructor; [|now apply IH].
  intros I; assert (existsb (String.eqb x) l = true); [|congruence].
  apply existsb_exists; exists x; split; [exact I | apply String.eqb_refl].
Qed.

Lemma injective_on_NoDup (A B : Type) (f : A -> B) (l : list A) (x y : A) :
  NoDup (map f l) -> In x l -> In y l -> f x = f y -> x = y.
Proof.
  induction l as [|a l IH]; cbn [map]; [easy|].
  intros N [-> | Hx] [-> | Hy] E; inversion N; subst; try reflexivity.
  - exfalso; match goal with H : ~ In _ _ |- _ => apply H end.
    rewrite E; now apply in_map.
  - exfalso; match goal with H : ~ In _ _ |- _ => apply H end.
    rewrite <- E; now apply in_map.
  - now apply IH.
Qed.

(** *** One rule over the lines *)

Section OneRule.
Variable ignorecase : bool.
Variable p : string.
Variable issue : nat -> string -> Issue.t.
Hypothesis issue_line : forall n line, Issue.line (issue n line) = n.

Lemma hits_cons (n : nat) (line : string) (numbered : list (nat * string)) :
  hits ignorecase p issue ((n, line) :: numbered)
  = (if re_search ignorecase p line then [issue n line] else [])
      ++ hits ignorecase p issue numbered.
Proof. reflexivity. Qed.

Lemma hits_elements (numbered : list (nat * string)) (v : Issue.t) :
  In v (hits ignorecase p issue numbered) ->
  exists n line, In (n, line) numbered /\ v = issue n line.
Proof.
  unfold hits; rewrite in_flat_map; intros ([n line] & I & H).
  destruct (re_search ignorecase p line); [|easy].
  destruct H as [<- | []]; now exists n, line.
Qed.

Lemma hits_ascending (lines : list string) (k : nat) :
  StronglySorted (fun v w => (Issue.line v < Issue.line w)%nat)
    (hits ignorecase p issue (enumerate_from k lines))
  /\ Forall (fun v => (k <= Issue.line v)%nat)
       (hits ignorecase p issue (enumerate_from k lines)).
Proof.
  revert k; induction lines as [|line lines IH]; intros k.
  - split; constructor.
  - cbn [enumerate_from]; rewrite hits_cons.
    destruct (IH (S k)) as [S F].
    destruct (re_search ignorecase p line); cbn [app]; split.
    + constructor; [exact S|].
      eapply Forall_impl; [|exact F]; intros v; cbn beta.
      rewrite issue_line; lia.
    + constructor; [rewrite issue_line; lia|].
      eapply Forall_impl; [|exact F]; intros v; cbn beta; lia.
    + exact S.
    + eapply Forall_impl; [|exact F]; intros v; cbn beta; lia.
Qed.

End OneRule.

(** *** The catalog rule by rule *)

Section Universal.
Variable file_path : string.
Variable lines : list string.

Lemma block_elements (rule : string * PatternInfo.t) (v : Issue.t) :
  In v (block file_path lines rule) ->
  exists n line, In (n, line) (enumerate_from 1 lines)
                 /\ v = universal_issue file_path rule n line.
Proof. apply hits_elements. Qed.

Lemma universal_elements (rules : list (string * PatternInfo.t)) (v : Issue.t) :
  In v (flat_map (block file_path lines) rules) ->
  exists rule n line,
    In rule rules /\ In (n, line) (enumerate_from 1 lines)
    /\ v = universal_issue file_path rule n line.
Proof.
  rewrite in_flat_map; intros (rule & I & H).
  apply block_elements in H as (n & line & H & ->); now exists rule, n, line.
Qed.

Lemma position_head (rule : string * PatternInfo.t)
  (rules : list (string * PatternInfo.t)) :
  position (PatternInfo.pattern (snd rule)) (rule :: rules) = O.
Proof. cbn [position]; now rewrite String.eqb_refl. Qed.

Lemma position_tail (p : string) (rule : string * PatternInfo.t)
  (rules : list (string * PatternInfo.t)) :
  PatternInfo.pattern (snd rule) <> p ->
  position p (rule :: rules) = S (position p rules).
Proof.
  intros N; cbn [position].
  destruct (String.eqb _ p) eqn:E; [apply String.eqb_eq in E; easy | reflexivity].
Qed.

Lemma universal_sorted (rules : list (string * PatternInfo.t)) :
  NoDup (map (fun rule => PatternInfo.pattern (snd rule)) rules) ->
  StronglySorted (rule_then_line_in rules) (flat_map (block file_path lines) rules).
Proof.
  induction rules as [|rule rules IH]; intros N; [constructor|].
  inversion N as [|p ps Fresh N']; subst; cbn [flat_map]; apply sorted_app.
  - apply (sorted_weaken _ (fun v w => (Issue.line v < Issue.line w)%nat)).
    + intros a b Ha Hb L; right.
      apply block_elements in Ha as (n & l & _ & ->).
      apply block_elements in Hb as (n' & l' & _ & ->).
      unfold rule_index_in; cbn [universal_issue Issue.pattern Issue.line] in *.
      now rewrite position_head.
    + now apply hits_ascending.
  - apply (sorted_weaken _ (rule_then_line_in rules)); [|now apply IH].
    intros a b Ha Hb.
    apply universal_elements in Ha as (ra & n & l & Ia & _ & ->).
    apply universal_elements in Hb as (rb & n' & l' & Ib & _ & ->).
    unfold rule_then_line_in, rule_index_in;
      cbn [universal_issue Issue.pattern Issue.line].
    rewrite !position_tail; [lia | |];
      intros E; apply Fresh; rewrite E;
      now apply (in_map (fun rule => PatternInfo.pattern (snd rule))).
  - intros a b Ha Hb; left.
    apply block_elements in Ha as (n & l & _ & ->).
    apply universal_elements in Hb as (rb & n' & l' & Ib & _ & ->).
    unfold rule_index_in; cbn [universal_issue Issue.pattern].
    rewrite position_head, position_tail; [lia|].
    intros E; apply Fresh; rewrite E;
      now apply (in_map (fun rule => PatternInfo.pattern (snd rule))).
Qed.

(** The pattern found at the position of a pattern of the list. *)
Lemma position_found (rules : list (string * PatternInfo.t)) (p : string) :
  In p (map (fun rule => PatternInfo.pattern (snd rule)) rules) ->
  nth_error (map (fun rule => PatternInfo.pattern (snd rule)) rules)
    (position p rules) = Some p.
Proof.
  induction rules as [|rule rules IH]; cbn [map position]; [easy|].
  destruct (String.eqb _ p) eqn:E.
  - apply String.eqb_eq in E; now rewrite E.
  - intros [H | H]; [rewrite H, String.eqb_refl in E; discriminate|].
    now apply IH.
Qed.

End Universal.

Lemma patterns_distinct :
  NoDup (map (fun rule => PatternInfo.pattern (snd rule)) all_rules).
Proof. apply distinct_NoDup; vm_compute; reflexivity. Qed.

Lemma messages_distinct :
  NoDup (map (fun rule => PatternInfo.message (snd rule)) all_rules).
Proof. apply distinct_NoDup; vm_compute; reflexivity. Qed.

(** Among the findings of catalog rules, two come from the same rule
    exactly when their rules have the same place in the catalog. *)
Lemma same_rule_same_index (file_path : string) (ra rb : string * PatternInfo.t)
  (n n' : nat) (l l' : string) :
  In ra all_rules -> In rb all_rules ->
  let a := universal_issue file_path ra n l in
  let b := universal_issue file_path rb n' l' in
  same_rule a b = true <-> rule_index a = rule_index b.
Proof.
  intros Ia Ib a b; subst a b; unfold same_rule, rule_index, rule_index_in.
  cbn [universal_issue Issue.category Issue.message Issue.pattern].
  rewrite andb_true_iff, !String.eqb_eq; split.
  - intros [_ M].
    assert (ra = rb) as ->; [|reflexivity].
    eapply (injective_on_NoDup _ _ (fun rule => PatternInfo.message (snd rule)));
      eauto using messages_distinct.
  - intros P.
    assert (ra = rb) as ->; [|now split].
    eapply (injective_on_NoDup _ _ (fun rule => PatternInfo.pattern (snd rule)));
      eauto using patterns_distinct.
    pose proof (position_found all_rules _
                  (in_map (fun rule => PatternInfo.pattern (snd rule)) _ _ Ia)) as Fa.
    pose proof (position_found all_rules _
                  (in_map (fun rule => PatternInfo.pattern (snd rule)) _ _ Ib)) as Fb.
    cbv beta in Fa, Fb; rewrite P, Fb in Fa; now injection Fa.
Qed.

(** *** The language-specific rules line by line *)

Lemma by_line_elements (file_path : string) (rules : list LanguageRule)
  (numbered : list (nat * string)) (v : Issue.t) :
  In v (hits_by_line file_path rules numbered) ->
  exists rule n line,
    In rule rules /\ In (n, line) numbered
    /\ v = language_issue file_path rule n line.
Proof.
  unfold hits_by_line; rewrite in_flat_map; intros ([n line] & I & H).
  apply in_flat_map in H as (rule & R & H).
  destruct (re_search false (pattern rule) line); [|easy].
  destruct H as [<- | []]; now exists rule, n, line.
Qed.

Lemma by_line_sorted (file_path : string) (rules : list LanguageRule)
  (lines : list string) (k : nat) :
  StronglySorted line_order (hits_by_line file_path rules (enumerate_from k lines))
  /\ Forall (fun v => (k <= Issue.line v)%nat)
       (hits_by_line file_path rules (enumerate_from k lines)).
Proof.
  revert k; induction lines as [|line lines IH]; intros k.
  - split; constructor.
  - cbn [enumerate_from hits_by_line flat_map].
    destruct (IH (S k)) as [S F]; fold (hits_by_line file_path rules) in *.
    assert (H : Forall (fun v => Issue.line v = k)
                  (flat_map (fun rule =>
                               if re_search false (pattern rule) line
                               then [language_issue file_path rule k line] else [])
                     rules)).
    { apply Forall_forall; intros v Hv.
      apply in_flat_map in Hv as (rule & _ & Hv).
      destruct (re_search false (pattern rule) line); [|easy].
      now destruct Hv as [<- | []]. }
    rewrite Forall_forall in H, F; split.
    + apply sorted_app; [|exact S|].
      * clear S F IH.
        induction (flat_map _ rules) as [|x xs IHx]; constructor.
        -- apply IHx; intros v Hv; apply H; now right.
        -- apply Forall_forall; intros y Hy; unfold line_order.
           rewrite (H x), (H y); [lia | now right | now left].
      * intros a b Ha Hb; unfold line_order.
        rewrite (H a Ha); specialize (F b Hb); cbn beta in F; lia.
    + apply Forall_app; split; apply Forall_forall; intros v Hv.
      * rewrite (H v Hv); lia.
      * specialize (F v Hv); cbn beta in F; lia.
Qed.

(** *** The whole sequence *)

Lemma catalog_part_is_rule_major (file_path : string) (universal : list Issue.t) :
  Forall (from_catalog file_path) universal ->
  StronglySorted rule_then_line universal ->
  rule_major universal.
Proof.
  intros F S l1 v l2 u l3 w l4 E Same; subst universal.
  rewrite Forall_forall in F.
  assert (Hv : from_catalog file_path v).
  { apply F, in_or_app; right; now left. }
  assert (Hu : from_catalog file_path u).
  { apply F, in_or_app; right; right; apply in_or_app; right; now left. }
  assert (Hw : from_catalog file_path w).
  { apply F, in_or_app; right; right; apply in_or_app; right; right.
    apply in_or_app; right; now left. }
  pose proof (sorted_pair _ _ _ _ _ _ _ S) as Rvu.
  assert (Ruw : rule_then_line u w).
  { apply (sorted_pair _ _ (l1 ++ v :: l2) l3 l4).
    now rewrite <- app_assoc. }
  destruct Hv as (rv & nv & lv & Iv & ->), Hu as (ru & nu & lu & Iu & ->),
           Hw as (rw & nw & lw & Iw & ->).
  apply same_rule_same_index in Same; [|assumption..].
  apply same_rule_same_index; [assumption..|].
  unfold rule_then_line, rule_then_line_in in Rvu, Ruw.
  fold rule_index in Rvu, Ruw; lia.
Qed.

(** C10 (as the code has it).  The findings of a file are those of the
    catalog followed by the language-specific ones.  The first part is
    in rule-major order: sorted by the place of the rule in the catalog
    and, within a rule, by strictly increasing line, so that all
    findings of a rule stand together.  The second part is in
    line-major order.  A finding of a later line can therefore precede
    a finding of an earlier line when its rule comes earlier in the
    catalog. *)
Theorem findings_order :
  (forall (fs : FileSystem) (file_path : string),
      exists universal language : list Issue.t,
        fst (_scan_file fs file_path) = universal ++ language
        /\ Forall (from_catalog file_path) universal
        /\ Forall (from_language file_path) language
        /\ StronglySorted rule_then_line universal
        /\ rule_major universal
        /\ StronglySorted line_order language)
  /\ (exists v w : Issue.t,
         fst (_scan_file Examples.hash_then_query_fs "job.rb") = [v; w]
         /\ (Issue.line w < Issue.line v)%nat
         /\ (rule_index v < rule_index w)%nat).
Proof.
  split.
  - intros fs file_path.
    assert (Nil : rule_major []).
    { intros l1 v l2 u l3 w l4 H; destruct l1; discriminate H. }
    destruct (fs file_path) as [|e|content] eqn:E.
    1, 2: exists [], []; unfold _scan_file; rewrite E;
          repeat split; try constructor; exact Nil.
    pose proof (scan_file_spec fs file_path content E) as S; cbv zeta in S.
    eexists; eexists; split; [exact S|].
    assert (F : Forall (from_catalog file_path)
                  (flat_map
                     (fun rule =>
                        hits true (PatternInfo.pattern (snd rule))
                          (universal_issue file_path rule)
                          (enumerate_from 1 (split_lines content)))
                     all_rules)).
    { apply Forall_forall; intros v Hv.
      apply universal_elements in Hv as (rule & n & line & I & _ & ->).
      now exists rule, n, line. }
    assert (O : StronglySorted rule_then_line
                  (flat_map
                     (fun rule =>
                        hits true (PatternInfo.pattern (snd rule))
                          (universal_issue file_path rule)
                          (enumerate_from 1 (split_lines content)))
                     all_rules))
      by (apply universal_sorted, patterns_distinct).
    repeat split; try assumption.
    + apply Forall_forall; intros v Hv.
      apply by_line_elements in Hv as (rule & n & line & I & _ & ->).
      now exists rule, n, line.
    + now apply (catalog_part_is_rule_major file_path).
    + apply by_line_sorted.
  - eexists; eexists; split; [vm_compute; reflexivity|].
    split; vm_compute; lia.
Qed.

(** In a JavaScript file the findings of the [eval] rule on lines 1 and
    3 are separated by a finding of the prototype rule on line 2: the
    findings of one rule do not stand together. *)
Lemma language_findings_alternate :
  ~ rule_major (fst (_scan_file Examples.alternating_fs "a.js")).
Proof.
  intros H.
  assert (X : exists v u w,
             fst (_scan_file Examples.alternating_fs "a.js") = [v; u; w]
             /\ same_rule v w = true /\ same_rule v u = false).
  { do 3 eexists; split; [vm_compute; reflexivity|]; split; reflexivity. }
  destruct X as (v & u & w & E & T & F).
  specialize (H [] v [] u [] w [] E T); congruence.
Qed.

End Order.

(** ** Matching without regard to case *)

Module CaseFolding.
Import Text Re Spec.Case.

Ltac all_characters a :=
  destruct a as [[] [] [] [] [] [] [] []]; vm_compute; reflexivity.

Lemma newline_lower (a : ascii) : Ascii.eqb (lower a) newline = Ascii.eqb a newline.
Proof. all_characters a. Qed.
Lemma space_lower (a : ascii) : is_space (lower a) = is_space a.
Proof. all_characters a. Qed.
Lemma word_lower (a : ascii) : is_word (lower a) = is_word a.
Proof. all_characters a. Qed.
Lemma upper_lower (a : ascii) : upper (lower a) = upper a.
Proof. all_characters a. Qed.
Lemma lower_lower (a : ascii) : lower (lower a) = lower a.
Proof. all_characters a. Qed.

Section Characters.
Variables a b : ascii.
Hypothesis same : same_letter a b.

Lemma same_newline : Ascii.eqb a newline = Ascii.eqb b newline.
Proof. now rewrite <- (newline_lower a), <- (newline_lower b), same. Qed.
Lemma same_space : is_space a = is_space b.
Proof. now rewrite <- (space_lower a), <- (space_lower b), same. Qed.
Lemma same_word : is_word a = is_word b.
Proof. now rewrite <- (word_lower a), <- (word_lower b), same. Qed.
Lemma same_literal (c : ascii) : lit_matches true c a = lit_matches true c b.
Proof. unfold lit_matches; now rewrite same. Qed.
Lemma same_class (neg : bool) (items : list (ascii * ascii)) :
  cls_matches true neg items a = cls_matches true neg items b.
Proof.
  unfold cls_matches.
  now rewrite <- (upper_lower a), <- (upper_lower b), same.
Qed.
End Characters.

Lemma iterate_agree
  (body : option ascii -> list ascii -> (option ascii -> list ascii -> bool) -> bool) :
  (forall k1 k2, agree k1 k2 -> agree (fun p s => body p s k1) (fun p s => body p s k2)) ->
  forall k1 k2, agree k1 k2 ->
  forall fuel, agree (iterate body k1 fuel) (iterate body k2 fuel).
Proof.
  intros B k1 k2 K fuel; induction fuel as [|fuel IH]; intros p1 p2 s1 s2 P S.
  - now apply K.
  - cbn [iterate].
    assert (H : agree
                  (fun p' s' =>
                     if (List.length s' <? List.length s1)%nat
                     then iterate body k1 fuel p' s' else false)
                  (fun p' s' =>
                     if (List.length s' <? List.length s2)%nat
                     then iterate body k2 fuel p' s' else false)).
    { intros q1 q2 t1 t2 Q T.
      rewrite (Forall2_length T), (Forall2_length S).
      destruct (_ <? _)%nat; [now apply IH | reflexivity]. }
    now rewrite (B _ _ H p1 p2 s1 s2 P S), (K p1 p2 s1 s2 P S).
Qed.

(** Under [re.IGNORECASE] the matcher cannot tell apart two inputs that
    differ only in the case of their letters. *)
Lemma matches_agree (r : regex) :
  forall k1 k2, agree k1 k2 ->
  agree (fun p s => matches true r p s k1) (fun p s => matches true r p s k2).
Proof.
  induction r as [|c| |neg items| | |r1 IH1 r2 IH2|r1 IH1 r2 IH2|r IH|r IH];
    intros k1 k2 K p1 p2 s1 s2 P S; cbn [matches].
  - now apply K.
  - destruct S as [|a b s1 s2 AB S]; [reflexivity|].
    rewrite (same_literal a b AB c), (K (Some a) (Some b) s1 s2 AB S); reflexivity.
  - destruct S as [|a b s1 s2 AB S]; [reflexivity|].
    rewrite (same_newline a b AB), (K (Some a) (Some b) s1 s2 AB S); reflexivity.
  - destruct S as [|a b s1 s2 AB S]; [reflexivity|].
    rewrite (same_class a b AB), (K (Some a) (Some b) s1 s2 AB S); reflexivity.
  - destruct S as [|a b s1 s2 AB S]; [reflexivity|].
    rewrite (same_space a b AB), (K (Some a) (Some b) s1 s2 AB S); reflexivity.
  - assert (W : word_at p1 = word_at p2).
    { destruct p1, p2; cbn in P |- *; try easy; now apply same_word. }
    assert (H : word_at (hd_error s1) = word_at (hd_error s2)).
    { destruct S; cbn; [reflexivity | now apply same_word]. }
    now rewrite W, H, (K p1 p2 s1 s2 P S).
  - apply (IH1 _ _ (IH2 _ _ K)); assumption.
  - now rewrite (IH1 _ _ K p1 p2 s1 s2 P S), (IH2 _ _ K p1 p2 s1 s2 P S).
  - rewrite (Forall2_length S).
    now apply (iterate_agree (matches true r) IH k1 k2 K).
  - rewrite (IH (fun _ _ => true) (fun _ _ => true) (fun _ _ _ _ _ _ => eq_refl)
               p1 p2 s1 s2 P S).
    now rewrite (K p1 p2 s1 s2 P S).
Qed.

Lemma search_from_agree (r : regex) (s1 s2 : list ascii) :
  Forall2 same_letter s1 s2 ->
  forall p1 p2, same_letter_before p1 p2 ->
  search_from true r p1 s1 = search_from true r p2 s2.
Proof.
  induction 1 as [|a b s1 s2 AB S IH]; intros p1 p2 P; cbn [search_from].
  - now rewrite (matches_agree r accept accept (fun _ _ _ _ _ _ => eq_refl)
                   p1 p2 [] [] P (Forall2_nil _)).
  - rewrite (matches_agree r accept accept (fun _ _ _ _ _ _ => eq_refl)
               p1 p2 (a :: s1) (b :: s2) P (Forall2_cons _ _ AB S)).
    now rewrite (IH (Some a) (Some b) AB).
Qed.

Lemma same_letters (l1 l2 : list ascii) :
  map lower l1 = map lower l2 -> Forall2 same_letter l1 l2.
Proof.
  revert l2; induction l1 as [|a l1 IH]; intros [|b l2] E; try discriminate E.
  - constructor.
  - injection E as E1 E2; constructor; [exact E1 | now apply IH].
Qed.

(** [re.search(pattern, line, re.IGNORECASE)] gives the same answer on
    two lines whose lower-case forms are equal. *)
Lemma ignorecase_search (pattern line1 line2 : string) :
  lower_string line1 = lower_string line2 ->
  SecurityChecker.re_search true pattern line1
  = SecurityChecker.re_search true pattern line2.
Proof.
  intros E; unfold SecurityChecker.re_search, Re.search.
  destruct (compile pattern) as [r|]; [|reflexivity].
  apply search_from_agree; [|exact I].
  apply same_letters; unfold lower_string, text, chars in E.
  apply (f_equal list_ascii_of_string) in E.
  now rewrite !list_ascii_of_string_of_list_ascii in E.
Qed.

End CaseFolding.

(** ** The findings of one line *)

Module Lines.
Import Text Env Loops SecurityChecker Spec.Security Scan Order.

Lemma filter_flat_map (A B : Type) (p : B -> bool) (f : A -> list B) (l : list A) :
  filter p (flat_map f l) = flat_map (fun x => filter p (f x)) l.
Proof.
  induction l as [|x l IH]; [reflexivity|].
  cbn [flat_map]; now rewrite filter_app, IH.
Qed.

Lemma filter_none (A : Type) (p : A -> bool) (l : list A) :
  Forall (fun x => p x = false) l -> filter p l = [].
Proof.
  induction 1 as [|x l H F IH]; [reflexivity|]; cbn [filter]; now rewrite H.
Qed.

Lemma filter_all (A : Type) (p : A -> bool) (l : list A) :
  Forall (fun x => p x = true) l -> filter p l = l.
Proof.
  induction 1 as [|x l H F IH]; [reflexivity|]; cbn [filter]; now rewrite H, IH.
Qed.

Lemma later_lines_filtered (k m : nat) (l : list Issue.t) :
  (m < k)%nat -> Forall (fun v => (k <= Issue.line v)%nat) l ->
  filter (on_line m) l = [].
Proof.
  intros L F; apply filter_none; eapply Forall_impl; [|exact F].
  intros v H; cbn beta in *; unfold on_line; apply Nat.eqb_neq; lia.
Qed.

(** One rule over the lines: what it reports for the line of index
    [n]. *)
Lemma hits_on_line (ignorecase : bool) (p : string) (issue : nat -> string -> Issue.t) :
  (forall n line, Issue.line (issue n line) = n) ->
  forall (lines : list string) (k n : nat) (line : string),
    nth_error lines n = Some line ->
    filter (on_line (k + n)) (hits ignorecase p issue (enumerate_from k lines))
    = if re_search ignorecase p line then [issue (k + n)%nat line] else [].
Proof.
  intros L lines; induction lines as [|l0 lines IH]; intros k n line E;
    [now destruct n|].
  cbn [enumerate_from]; rewrite hits_cons, filter_app.
  destruct n as [|n]; cbn [nth_error] in E.
  - injection E as ->; rewrite Nat.add_0_r.
    rewrite (later_lines_filtered (S k) k
               (hits ignorecase p issue (enumerate_from (S k) lines)));
      [|lia|now apply hits_ascending].
    rewrite app_nil_r; destruct (re_search ignorecase p line); [|reflexivity].
    cbn [filter]; unfold on_line; now rewrite L, Nat.eqb_refl.
  - replace (k + S n)%nat with (S k + n)%nat by lia.
    rewrite (IH (S k) n line E).
    destruct (re_search ignorecase p l0); [|reflexivity].
    cbn [filter app]; unfold on_line at 1; rewrite L.
    destruct (Nat.eqb_spec k (S k + n)); [lia | reflexivity].
Qed.

Lemma by_line_cons (file_path : string) (rules : list LanguageRule) (n : nat)
  (line : string) (numbered : list (nat * string)) :
  hits_by_line file_path rules ((n, line) :: numbered)
  = flat_map (fun rule =>
                if re_search false (pattern rule) line
                then [language_issue file_path rule n line] else [])
      rules
    ++ hits_by_line file_path rules numbered.
Proof. reflexivity. Qed.

(** Several rules line by line: what they report for the line of index
    [n]. *)
Lemma by_line_on_line (file_path : string) (rules : list LanguageRule) :
  forall (lines : list string) (k n : nat) (line : string),
    nth_error lines n = Some line ->
    filter (on_line (k + n)) (hits_by_line file_path rules (enumerate_from k lines))
    = flat_map (fun rule =>
                  if re_search false (pattern rule) line
                  then [language_issue file_path rule (k + n)%nat line] else [])
        rules.
Proof.
  intros lines; induction lines as [|l0 lines IH]; intros k n line E;
    [now destruct n|].
  cbn [enumerate_from]; rewrite by_line_cons, filter_app.
  assert (H : forall m, Forall (fun v => on_line m v = (k =? m)%nat)
                          (flat_map (fun rule =>
                                       if re_search false (pattern rule) l0
                                       then [language_issue file_path rule k l0]
                                       else [])
                             rules)).
  { intros m; apply Forall_forall; intros v Hv.
    apply in_flat_map in Hv as (rule & _ & Hv).
    destruct (re_search false (pattern rule) l0); [|easy].
    now destruct Hv as [<- | []]. }
  destruct n as [|n]; cbn [nth_error] in E.
  - injection E as ->; rewrite Nat.add_0_r.
    rewrite (later_lines_filtered (S k) k
               (hits_by_line file_path rules (enumerate_from (S k) lines)));
      [|lia|now apply by_line_sorted].
    rewrite app_nil_r; apply filter_all.
    eapply Forall_impl; [|exact (H k)]; intros v ->; apply Nat.eqb_refl.
  - replace (k + S n)%nat with (S k + n)%nat by lia.
    rewrite (IH (S k) n line E), filter_none; [reflexivity|].
    eapply Forall_impl; [|exact (H (S k + n)%nat)]; intros v ->.
    apply Nat.eqb_neq; lia.
Qed.

(** The findings a scan reports for one line of the file. *)
Lemma findings_on_line (fs : FileSystem) (file_path content : string) (n : nat)
  (line : string) :
  fs file_path = Readable content ->
  nth_error (split_lines content) n = Some line ->
  filter (on_line (S n)) (fst (_scan_file fs file_path))
  = flat_map (fun rule =>
                if re_search true (PatternInfo.pattern (snd rule)) line
                then [universal_issue file_path rule (S n) line] else [])
      all_rules
    ++ flat_map (fun rule =>
                   if re_search false (pattern rule) line
                   then [language_issue file_path rule (S n) line] else [])
         (language_rules file_path).
Proof.
  intros R E; rewrite (scan_file_spec fs file_path content R); cbv zeta.
  rewrite filter_app, filter_flat_map; f_equal.
  - apply flat_map_ext; intros rule.
    now apply (hits_on_line true _ (universal_issue file_path rule)
                 (fun _ _ => eq_refl) _ 1%nat n line).
  - now apply (by_line_on_line file_path _ _ 1%nat n line).
Qed.

Lemma filter_both (A : Type) (p q : A -> bool) (l : list A) :
  filter (fun x => p x && q x) l = filter p (filter q l).
Proof.
  induction l as [|x l IH]; [reflexivity|]; cbn [filter].
  destruct (q x); cbn [filter]; rewrite ?andb_true_r, ?andb_false_r;
    destruct (p x); now rewrite IH.
Qed.

(** Among at-most-one-element contributions of rules with distinct
    keys, the number of those that carry the key of the rule [x]. *)
Section Singletons.
Variables A B : Type.
Variable key : A -> string.
Variable sel : A -> bool.
Variable item : A -> B.
Variable test : B -> bool.
Variable x : A.
Hypothesis test_key : forall y, test (item y) = String.eqb (key y) (key x).

Lemma count_others (rules : list A) :
  ~ In (key x) (map key rules) ->
  Spec.count test (flat_map (fun y => if sel y then [item y] else []) rules) = 0.
Proof.
  induction rules as [|y rules IH]; intros N; [reflexivity|].
  cbn [flat_map]; rewrite count_app, IH; [|intros H; apply N; now right].
  destruct (sel y); [|reflexivity].
  rewrite count_cons, test_key.
  destruct (String.eqb (key y) (key x)) eqn:E; [|reflexivity].
  apply String.eqb_eq in E; exfalso; apply N; now left.
Qed.

Lemma count_singletons (rules : list A) :
  NoDup (map key rules) -> In x rules ->
  Spec.count test (flat_map (fun y => if sel y then [item y] else []) rules)
  = if sel x then 1 else 0.
Proof.
  induction rules as [|y rules IH]; intros N I; [easy|].
  inversion N as [|k ks Fresh N']; subst.
  cbn [flat_map]; rewrite count_app.
  destruct (String.eqb (key y) (key x)) eqn:E.
  - apply String.eqb_eq in E.
    assert (y = x) as ->.
    { apply (injective_on_NoDup _ _ key (y :: rules)); auto; now left. }
    rewrite count_others by exact Fresh.
    destruct (sel x); [|reflexivity].
    now rewrite count_cons, test_key, String.eqb_refl.
  - destruct I as [-> | I]; [now rewrite String.eqb_refl in E|].
    rewrite (IH N' I).
    destruct (sel y); [|reflexivity].
    now rewrite count_cons, test_key, E.
Qed.
End Singletons.

Lemma language_messages_distinct (file_path : string) :
  NoDup (map message (language_rules file_path)).
Proof.
  unfold language_rules; cbv zeta.
  destruct (existsb _ _); [apply distinct_NoDup; reflexivity|].
  destruct (String.eqb _ ".py"); [apply distinct_NoDup; reflexivity|].
  destruct (String.eqb _ ".java"); [apply distinct_NoDup; reflexivity|].
  destruct (String.eqb _ ".php"); [apply distinct_NoDup; reflexivity|].
  constructor.
Qed.

(** C9 (as the code has it).  For every line of a scanned file, the
    findings reported for that line are: for each rule of the catalog,
    in catalog order, one finding if the pattern is found in the line
    without regard to case; then, for each language-specific rule of
    the file, one finding if the pattern is found in the line with
    regard to case.  So each rule reports at most one finding for a
    line and each rule that matches reports its own.  The test of a
    catalog rule gives the same answer on two lines that differ only in
    case; the test of a language-specific rule can tell them apart. *)
Theorem findings_of_a_line :
  (forall (fs : FileSystem) (file_path content : string) (n : nat) (line : string),
      fs file_path = Readable content ->
      nth_error (split_lines content) n = Some line ->
      let found := filter (on_line (S n)) (fst (_scan_file fs file_path)) in
      found
      = flat_map (fun rule =>
                    if re_search true (PatternInfo.pattern (snd rule)) line
                    then [universal_issue file_path rule (S n) line] else [])
          all_rules
        ++ flat_map (fun rule =>
                       if re_search false (pattern rule) line
                       then [language_issue file_path rule (S n) line] else [])
             (language_rules file_path)
      /\ (forall rule, In rule all_rules ->
            Spec.count (from_pattern (PatternInfo.pattern (snd rule))) found
            = if re_search true (PatternInfo.pattern (snd rule)) line
              then 1 else 0)
      /\ (forall rule, In rule (language_rules file_path) ->
            Spec.count (from_language_rule rule) found
            = if re_search false (pattern rule) line then 1 else 0))
  /\ (forall pattern line1 line2 : string,
         lower_string line1 = lower_string line2 ->
         re_search true pattern line1 = re_search true pattern line2)
  /\ (exists (rule : LanguageRule) (line1 line2 : string),
         In rule javascript_rules
         /\ lower_string line1 = lower_string line2
         /\ re_search false (pattern rule) line1 = true
         /\ re_search false (pattern rule) line2 = false).
Proof.
  split; [|split].
  - intros fs file_path content n line R E found; subst found.
    rewrite (findings_on_line fs file_path content n line R E).
    split; [reflexivity|]; split; intros rule I; rewrite count_app.
    + rewrite (count_singletons _ _ (fun r => PatternInfo.pattern (snd r))
                 (fun r => re_search true (PatternInfo.pattern (snd r)) line)
                 (fun r => universal_issue file_path r (S n) line)
                 _ rule (fun _ => eq_refl) all_rules patterns_distinct I).
      replace (Spec.count _ (flat_map _ (language_rules file_path))) with 0; [lia|].
      unfold Spec.count; rewrite filter_none; [reflexivity|].
      apply Forall_forall; intros v Hv; apply in_flat_map in Hv as (r & _ & Hv).
      destruct (re_search false (pattern r) line); [|easy].
      now destruct Hv as [<- | []].
    + rewrite (count_singletons _ _ message
                 (fun r => re_search false (pattern r) line)
                 (fun r => language_issue file_path r (S n) line)
                 _ rule (fun _ => eq_refl) (language_rules file_path)
                 (language_messages_distinct file_path) I).
      replace (Spec.count _ (flat_map _ all_rules)) with 0; [lia|].
      unfold Spec.count; rewrite filter_none; [reflexivity|].
      apply Forall_forall; intros v Hv; apply in_flat_map in Hv as (r & _ & Hv).
      destruct (re_search true _ line); [|easy].
      now destruct Hv as [<- | []].
  - exact CaseFolding.ignorecase_search.
  - exists (BuildLanguageRule "\beval\s*\(" "code_injection" high
              "Use of eval() function - potential code injection risk"),
      "eval(x)", "EVAL(x)".
    repeat split; [now left | vm_compute; reflexivity ..].
Qed.

Lemma findings_of_a_line_witness :
  let found := filter (on_line 1)
                 (fst (_scan_file Examples.eval_fs "b.js")) in
  List.length found = 2%nat
  /\ Spec.count (from_pattern "eval\s*\(\s*.*\+.*\)") found = 1
  /\ Spec.count (from_language_rule
                   (BuildLanguageRule "\beval\s*\(" "code_injection" high
                      "Use of eval() function - potential code injection risk"))
       found = 1.
Proof.
  cbv zeta.
  destruct findings_of_a_line as [F _].
  destruct (F Examples.eval_fs "b.js" "eval(a + b)" 0%nat "eval(a + b)"
              eq_refl eq_refl) as (E & U & L).
  split; [rewrite E; vm_compute; reflexivity|]; split.
  - refine (eq_trans
              (U ("xss", PatternInfo.Build "eval\s*\(\s*.*\+.*\)"
                           "Potential code injection: eval() with dynamic content"
                           high) _) _);
      [vm_compute; tauto | vm_compute; reflexivity].
  - refine (eq_trans (L _ _) _); [vm_compute; tauto | vm_compute; reflexivity].
Defined.

(** The JavaScript rule for [eval] would match the line [EVAL(x)] if it
    were tested without regard to case, but the scan of a JavaScript
    file made of that line reports nothing. *)
Lemma language_rules_regard_case :
  In (BuildLanguageRule "\beval\s*\(" "code_injection" high
        "Use of eval() function - potential code injection risk")
    (language_rules "a.js")
  /\ re_search true "\beval\s*\(" "EVAL(x)" = true
  /\ Examples.shouting_fs "a.js" = Readable "EVAL(x)"
  /\ fst (_scan_file Examples.shouting_fs "a.js") = [].
Proof. repeat split; vm_compute; tauto. Qed.

End Lines.

(** ** Scenario A *)

Module ScenarioA.
Import Text Env Loops SecurityChecker Spec.Security Scan Order Lines.

(** No language-specific rule matches one of the two query lines. *)
Lemma no_language_finding (file_path : string) (n : nat) (line : string) :
  line = Examples.scenario_line \/ line = Examples.quoted_line ->
  flat_map (fun rule =>
              if re_search false (pattern rule) line
              then [language_issue file_path rule n line] else [])
    (language_rules file_path) = [].
Proof.
  unfold language_rules; cbv zeta.
  intros [-> | ->];
    (destruct (existsb _ _); [reflexivity|]);
    (destruct (String.eqb _ ".py"); [reflexivity|]);
    (destruct (String.eqb _ ".java"); [reflexivity|]);
    (destruct (String.eqb _ ".php"); reflexivity).
Qed.

(** C4 (as the code has it).  Whatever the file, the line
    [query("SELECT * FROM users WHERE id=" + userId)] gets no finding of
    category "sql_injection": both patterns of the category require a
    quote after the plus sign.  When a quoted literal follows the plus
    sign, as in [query("SELECT * FROM users WHERE id='" + userId + "'")],
    the line gets one finding from each of the two rules of the
    category, both of severity high. *)
Theorem scenario_a_findings :
  forall (fs : FileSystem) (file_path content : string) (n : nat),
    fs file_path = Readable content ->
    let sql_findings :=
      filter (fun v => in_category "sql_injection" v && on_line (S n) v)
        (fst (_scan_file fs file_path)) in
    (nth_error (split_lines content) n = Some Examples.scenario_line ->
     sql_findings = [])
    /\ (nth_error (split_lines content) n = Some Examples.quoted_line ->
        sql_findings
        = map (fun rule => universal_issue file_path rule (S n) Examples.quoted_line)
            sql_injection_rules
        /\ List.length sql_findings = 2%nat
        /\ Forall (fun v => Issue.severity v = high) sql_findings).
Proof.
  intros fs file_path content n R sql_findings; subst sql_findings.
  rewrite filter_both; split; intros E.
  - rewrite (findings_on_line fs file_path content n _ R E).
    rewrite no_language_finding by now left.
    reflexivity.
  - rewrite (findings_on_line fs file_path content n _ R E).
    rewrite no_language_finding by now right.
    repeat split; try reflexivity.
    repeat constructor.
Qed.

Lemma scenario_a_findings_witness :
  filter (fun v => in_category "sql_injection" v && on_line 1 v)
    (fst (_scan_file Examples.scenario_fs "app.js")) = [].
Proof.
  apply (scenario_a_findings Examples.scenario_fs "app.js" Examples.scenario_line
           0%nat eq_refl).
  reflexivity.
Defined.

(** The scan of a JavaScript file made of the line of Scenario A
    reports no finding at all, so not one of category "sql_injection". *)
Lemma scenario_a_is_not_flagged :
  suffix "app.js" = ".js"
  /\ Examples.scenario_fs "app.js" = Readable Examples.scenario_line
  /\ split_lines Examples.scenario_line = [Examples.scenario_line]
  /\ fst (_scan_file Examples.scenario_fs "app.js") = []
  /\ Spec.count (in_category "sql_injection")
       (fst (_scan_file Examples.scenario_fs "app.js")) <> 1.
Proof. repeat split; vm_compute; congruence. Qed.

End ScenarioA.

(** * Further properties of the scripts *)

(** ** What a finding says *)

Module Findings.
Import Text Env Loops SecurityChecker Spec.Security Scan.

Lemma enumerate_in (A : Type) (xs : list A) (k n : nat) (x : A) :
  In (n, x) (enumerate_from k xs) ->
  (k <= n)%nat /\ nth_error xs (n - k) = Some x.
Proof.
  revert k; induction xs as [|y xs IH]; intros k; cbn [enumerate_from]; [easy|].
  intros [E | H].
  - injection E as -> ->; rewrite Nat.sub_diag; split; [lia | reflexivity].
  - apply IH in H as [L E]; split; [lia|].
    replace (n - k)%nat with (S (n - S k)) by lia; exact E.
Qed.

Lemma hits_sound (ignorecase : bool) (p : string) (issue : nat -> string -> Issue.t)
  (numbered : list (nat * string)) (v : Issue.t) :
  In v (hits ignorecase p issue numbered) ->
  exists n line,
    In (n, line) numbered /\ re_search ignorecase p line = true /\ v = issue n line.
Proof.
  unfold hits; rewrite in_flat_map; intros ([n line] & I & H).
  destruct (re_search ignorecase p line) eqn:E; [|easy].
  destruct H as [<- | []]; now exists n, line.
Qed.

Lemma by_line_sound (file_path : string) (rules : list LanguageRule)
  (numbered : list (nat * string)) (v : Issue.t) :
  In v (hits_by_line file_path rules numbered) ->
  exists rule n line,
    In rule rules /\ In (n, line) numbered
    /\ re_search false (pattern rule) line = true
    /\ v = language_issue file_path rule n line.
Proof.
  unfold hits_by_line; rewrite in_flat_map; intros ([n line] & I & H).
  apply in_flat_map in H as (rule & R & H).
  destruct (re_search false (pattern rule) line) eqn:E; [|easy].
  destruct H as [<- | []]; now exists rule, n, line.
Qed.

(** A finding names the file that was scanned. *)
Lemma finding_file (fs : FileSystem) (file_path : string) (v : Issue.t) :
  In v (fst (_scan_file fs file_path)) -> Issue.file v = file_path.
Proof.
  destruct (fs file_path) as [|e|content] eqn:E;
    [unfold _scan_file; rewrite E; easy .. |].
  rewrite (scan_file_spec fs file_path content E); cbv zeta.
  rewrite in_app_iff, in_flat_map; intros [(rule & _ & H) | H].
  - now apply hits_sound in H as (n & line & _ & _ & ->).
  - now apply by_line_sound in H as (rule & n & line & _ & _ & _ & ->).
Qed.

(** X1.  Every finding of a scan is justified by the file: the file
    could be read, the finding names it, its line number is the 1-based
    number of a line of the file, its snippet is that line without the
    surrounding white space, and the finding is the one a rule of the
    catalog, or a language-specific rule of the file, builds for a line
    its pattern is found in. *)
Theorem finding_is_justified :
  forall (fs : FileSystem) (file_path : string) (v : Issue.t),
    In v (fst (_scan_file fs file_path)) ->
    exists content line,
      fs file_path = Readable content
      /\ Issue.file v = file_path
      /\ (1 <= Issue.line v <= List.length (split_lines content))%nat
      /\ nth_error (split_lines content) (Issue.line v - 1) = Some line
      /\ Issue.code_snippet v = strip line
      /\ ((exists rule,
              In rule all_rules
              /\ re_search true (PatternInfo.pattern (snd rule)) line = true
              /\ v = universal_issue file_path rule (Issue.line v) line)
          \/ (exists rule,
                 In rule (language_rules file_path)
                 /\ re_search false (pattern rule) line = true
                 /\ v = language_issue file_path rule (Issue.line v) line)).
Proof.
  intros fs file_path v H.
  destruct (fs file_path) as [|e|content] eqn:E;
    [unfold _scan_file in H; rewrite E in H; easy .. |].
  rewrite (scan_file_spec fs file_path content E) in H; cbv zeta in H.
  exists content.
  assert (G : forall n line,
             In (n, line) (enumerate_from 1 (split_lines content)) ->
             (1 <= n <= List.length (split_lines content))%nat
             /\ nth_error (split_lines content) (n - 1) = Some line).
  { intros n line I; apply enumerate_in in I as [L N]; split; [|exact N].
    assert (n - 1 < List.length (split_lines content))%nat; [|lia].
    apply nth_error_Some; now rewrite N. }
  apply in_app_iff in H as [H | H].
  - apply in_flat_map in H as (rule & R & H).
    apply hits_sound in H as (n & line & I & M & ->).
    destruct (G n line I) as [B N]; exists line.
    cbn [universal_issue Issue.file Issue.line Issue.code_snippet].
    repeat split; try easy; left; now exists rule.
  - apply by_line_sound in H as (rule & n & line & R & I & M & ->).
    destruct (G n line I) as [B N]; exists line.
    cbn [language_issue Issue.file Issue.line Issue.code_snippet].
    repeat split; try easy; right; now exists rule.
Qed.

Lemma finding_is_justified_witness :
  exists content line,
    Examples.eval_fs "b.js" = Readable content
    /\ nth_error (split_lines content) 0 = Some line
    /\ re_search false "\beval\s*\(" line = true.
Proof.
  destruct (finding_is_justified Examples.eval_fs "b.js"
              (language_issue "b.js"
                 (BuildLanguageRule "\beval\s*\(" "code_injection" high
                    "Use of eval() function - potential code injection risk")
                 1 "eval(a + b)"))
    as (content & line & R & _ & _ & N & _ & _).
  - vm_compute; tauto.
  - exists content, line; split; [exact R|]; split; [exact N|].
    vm_compute in R; injection R as <-.
    vm_compute in N; injection N as <-; vm_compute; reflexivity.
Defined.

End Findings.

(** ** The counters of a batch *)

Module Counters.
Import Text Env Loops.

Lemma count_le_length (A : Type) (p : A -> bool) (l : list A) :
  Spec.count p l <= Z.of_nat (List.length l).
Proof.
  pose proof (count_split _ p l); pose proof (count_nonneg _ (fun x => negb (p x)) l).
  lia.
Qed.

Lemma count_mono (A : Type) (p q : A -> bool) (l : list A) :
  (forall x, p x = true -> q x = true) -> Spec.count p l <= Spec.count q l.
Proof.
  intros I; induction l as [|x l IH]; [reflexivity|].
  rewrite !count_cons; specialize (I x).
  destruct (p x), (q x); try lia; now discriminate I.
Qed.

Lemma count_zero (A : Type) (p : A -> bool) (l : list A) :
  Spec.count p l = 0 <-> forall x, In x l -> p x = false.
Proof.
  induction l as [|x l IH]; [easy|].
  rewrite count_cons; pose proof (count_nonneg _ p l) as N.
  destruct (p x) eqn:E; split.
  - lia.
  - intros H; rewrite (H x) in E; [discriminate | now left].
  - intros H y [<- | Hy]; [exact E | apply IH; [lia | exact Hy]].
  - intros H; apply IH; intros y Hy; apply H; now right.
Qed.

Lemma flat_map_nil (A B : Type) (f : A -> list B) (l : list A) :
  flat_map f l = [] <-> forall x, In x l -> f x = [].
Proof.
  induction l as [|x l IH]; cbn [flat_map]; [easy|].
  split.
  - intros H; apply app_eq_nil in H as [H1 H2].
    intros y [<- | Hy]; [exact H1 | now apply IH].
  - intros H; rewrite (H x) by now left.
    apply IH; intros y Hy; apply H; now right.
Qed.

(** X2.  After a run of the security checker on a batch, the number of
    files with issues is at most the number of files scanned, which is
    the number of paths of the batch that exist and so at most the length
    of the batch; no file has issues exactly when no vulnerability is
    reported; and every vulnerability reported names a path of the batch
    that exists. *)
Theorem security_batch_counters :
  forall (fs : FileSystem) (files : list string),
    let r := fst (SecurityChecker.check_files fs files SecurityChecker.init_results) in
    0 <= SecurityChecker.files_with_issues r <= SecurityChecker.total_files r
    /\ SecurityChecker.total_files r = Spec.count (exists_ fs) files
    /\ SecurityChecker.total_files r <= Z.of_nat (List.length files)
    /\ SecurityChecker.files_with_issues r
       <= Z.of_nat (List.length (SecurityChecker.vulnerabilities r))
    /\ (SecurityChecker.files_with_issues r = 0
        <-> SecurityChecker.vulnerabilities r = [])
    /\ (forall v, In v (SecurityChecker.vulnerabilities r) ->
                  In (SecurityChecker.Issue.file v) files
                  /\ exists_ fs (SecurityChecker.Issue.file v) = true).
Proof.
  intros fs files r; subst r; rewrite Batch.check_files_results; cbv zeta.
  cbn [SecurityChecker.files_with_issues SecurityChecker.total_files
         SecurityChecker.vulnerabilities].
  assert (F : forall f, Spec.Security.flagged fs f = true ->
                        Spec.Security.counted fs f = true).
  { intros f; unfold Spec.Security.flagged, Spec.Security.found,
      Spec.Security.counted.
    now destruct (exists_ fs f). }
  repeat split.
  - apply count_nonneg.
  - now apply count_mono.
  - apply count_le_length.
  - induction files as [|f files IH]; [reflexivity|].
    cbn [flat_map]; rewrite count_cons, length_app.
    unfold Spec.Security.flagged at 1.
    destruct (Spec.Security.found fs f); cbn [List.length]; lia.
  - rewrite count_zero, flat_map_nil; intros H f Hf; specialize (H f Hf).
    unfold Spec.Security.flagged in H.
    now destruct (Spec.Security.found fs f).
  - rewrite count_zero, flat_map_nil; intros H f Hf.
    unfold Spec.Security.flagged; now rewrite (H f Hf).
  - apply in_flat_map in H as (f & Hf & H); unfold Spec.Security.found in H.
    destruct (exists_ fs f); [|easy].
    now rewrite (Findings.finding_file fs f v H).
  - apply in_flat_map in H as (f & Hf & H); unfold Spec.Security.found in H.
    destruct (exists_ fs f) eqn:E; [|easy].
    now rewrite (Findings.finding_file fs f v H).
Qed.

(** X3.  After a run of the lint checker on a batch, the number of files
    with issues is at most the number of files checked, which is the
    number of paths of the batch that exist; no file has issues exactly
    when no style issue is reported; and the errors and the warnings add
    up to the number of style issues, none of the two being negative. *)
Theorem lint_batch_counters :
  forall (tools : LintChecker.Tools) (fs : FileSystem) (files : list string),
    let r := fst (LintChecker.check_files tools fs files LintChecker.init_results) in
    0 <= LintChecker.files_with_issues r <= LintChecker.total_files r
    /\ LintChecker.total_files r = Spec.count (exists_ fs) files
    /\ LintChecker.total_files r <= Z.of_nat (List.length files)
    /\ (LintChecker.files_with_issues r = 0 <-> LintChecker.style_issues r = [])
    /\ 0 <= LintChecker.errors r
    /\ 0 <= LintChecker.warnings r
    /\ LintChecker.errors r + LintChecker.warnings r
       = Z.of_nat (List.length (LintChecker.style_issues r)).
Proof.
  intros tools fs files r; subst r; rewrite Batch.lint_check_files_results; cbv zeta.
  cbn [LintChecker.files_with_issues LintChecker.total_files LintChecker.errors
         LintChecker.warnings LintChecker.style_issues].
  assert (F : forall f, Spec.Lint.flagged tools fs f = true ->
                        Spec.Lint.counted fs f = true).
  { intros f; unfold Spec.Lint.flagged, Spec.Lint.found, Spec.Lint.counted.
    now destruct (exists_ fs f). }
  repeat split.
  - apply count_nonneg.
  - now apply count_mono.
  - apply count_le_length.
  - rewrite count_zero, flat_map_nil; intros H f Hf; specialize (H f Hf).
    unfold Spec.Lint.flagged in H.
    now destruct (Spec.Lint.found tools fs f).
  - rewrite count_zero, flat_map_nil; intros H f Hf.
    unfold Spec.Lint.flagged; now rewrite (H f Hf).
  - apply count_nonneg.
  - apply count_nonneg.
  - apply count_split.
Qed.

End Counters.

(** ** The extremes of the score *)

Module Extremes.
Import Text Env Loops.

Lemma no_element (A : Type) (p : A -> bool) (l : list A) :
  Spec.count p l = 0 -> Spec.count (fun x => negb (p x)) l = 0 -> l = [].
Proof.
  intros P N; pose proof (count_split _ p l) as S; rewrite P, N in S.
  destruct l; [reflexivity | discriminate S].
Qed.

(** X4.  The security score of a run is 100 exactly when no
    vulnerability is reported and 0 exactly when the penalties, 15 for
    each error and 5 for each warning, reach 100; it is a multiple of 5,
    and at most 85 as soon as one finding is of high severity.  The lint
    score is 100 exactly when no style issue is reported and 0 exactly
    when the penalties, 10 for each error and 2 for each warning, reach
    100; it is even. *)
Theorem score_extremes :
  (forall (fs : FileSystem) (files : list string),
      let r := fst (SecurityChecker.check_files fs files
                      SecurityChecker.init_results) in
      (SecurityChecker.security_score r = 100
       <-> SecurityChecker.vulnerabilities r = [])
      /\ (SecurityChecker.security_score r = 0
          <-> 100 <= 15 * SecurityChecker.errors r + 5 * SecurityChecker.warnings r)
      /\ (0 < SecurityChecker.errors r -> SecurityChecker.security_score r <= 85)
      /\ SecurityChecker.security_score r mod 5 = 0)
  /\ (forall (tools : LintChecker.Tools) (fs : FileSystem) (files : list string),
         let r := fst (LintChecker.check_files tools fs files
                         LintChecker.init_results) in
         (LintChecker.lint_score r = 100 <-> LintChecker.style_issues r = [])
         /\ (LintChecker.lint_score r = 0
             <-> 100 <= 10 * LintChecker.errors r + 2 * LintChecker.warnings r)
         /\ LintChecker.lint_score r mod 2 = 0).
Proof.
  split.
  - intros fs files r; subst r; rewrite Batch.check_files_results; cbv zeta.
    cbn [SecurityChecker.security_score SecurityChecker.vulnerabilities
           SecurityChecker.errors SecurityChecker.warnings].
    rewrite Score.score_of_eq.
    set (vulns := flat_map (Spec.Security.found fs) files).
    pose proof (count_nonneg _ (Spec.Security.has_severity SecurityChecker.high)
                  vulns) as H.
    pose proof (count_nonneg _
                  (fun v => negb (Spec.Security.has_severity SecurityChecker.high v))
                  vulns) as W.
    set (h := Spec.count (Spec.Security.has_severity SecurityChecker.high) vulns) in *.
    set (w := Spec.count
                (fun v => negb (Spec.Security.has_severity SecurityChecker.high v))
                vulns) in *.
    repeat split; try lia.
    + intros E; apply (no_element _ (Spec.Security.has_severity SecurityChecker.high));
        fold h; fold w; lia.
    + intros E; subst h w; rewrite E; reflexivity.
    + destruct (Z.max_spec 0 (100 - h * 15 - w * 5)) as [[_ ->] | [_ ->]];
        [|reflexivity].
      replace (100 - h * 15 - w * 5) with ((20 - h * 3 - w) * 5) by lia.
      apply Z_mod_mult.
  - intros tools fs files r; subst r; rewrite Batch.lint_check_files_results;
      cbv zeta.
    cbn [LintChecker.lint_score LintChecker.style_issues LintChecker.errors
           LintChecker.warnings].
    rewrite Score.lint_score_of_eq.
    set (issues := flat_map (Spec.Lint.found tools fs) files).
    pose proof (count_nonneg _ Spec.Lint.is_error issues) as H.
    pose proof (count_nonneg _ (fun i => negb (Spec.Lint.is_error i)) issues) as W.
    set (e := Spec.count Spec.Lint.is_error issues) in *.
    set (w := Spec.count (fun i => negb (Spec.Lint.is_error i)) issues) in *.
    repeat split; try lia.
    + intros E; apply (no_element _ Spec.Lint.is_error); fold e; fold w; lia.
    + intros E; subst e w; rewrite E; reflexivity.
    + destruct (Z.max_spec 0 (100 - e * 10 - w * 2)) as [[_ ->] | [_ ->]];
        [|reflexivity].
      replace (100 - e * 10 - w * 2) with ((50 - e * 5 - w) * 2) by lia.
      apply Z_mod_mult.
Qed.

Lemma score_extremes_witness :
  SecurityChecker.security_score
    (fst (SecurityChecker.check_files Examples.batch_fs ["ok.py"]
            SecurityChecker.init_results)) <= 85.
Proof.
  destruct score_extremes as [S _].
  destruct (S Examples.batch_fs ["ok.py"]) as (_ & _ & B & _).
  apply B; vm_compute; reflexivity.
Defined.

(** What a run of [main] that scanned a batch has done. *)
Lemma main_run (fs : FileSystem) (argv : list string) (r : SecurityChecker.Results) :
  SecurityChecker.report (SecurityChecker.main fs argv) = Some r ->
  exists files,
    SecurityChecker.files_of_argv argv = Some files
    /\ files <> []
    /\ r = fst (SecurityChecker.check_files fs files SecurityChecker.init_results)
    /\ SecurityChecker.exit_status (SecurityChecker.main fs argv)
       = if 0 <? SecurityChecker.errors r then 1 else 0.
Proof.
  unfold SecurityChecker.main.
  destruct (SecurityChecker.files_of_argv argv) as [[|f files]|];
    [discriminate | | discriminate].
  destruct (SecurityChecker.check_files fs (f :: files) _) as [r' out] eqn:E.
  rewrite Z.gtb_ltb.
  destruct (0 <? SecurityChecker.errors r') eqn:P;
    cbn [SecurityChecker.report SecurityChecker.exit_status]; intros [= <-];
    exists (f :: files); rewrite P; repeat split;
    first [discriminate | now rewrite E].
Qed.

(** X5.  The exit status of the security checker bounds the score it
    reports: a run that exits with status 1 reports a score of at most
    85, and a run that scanned a batch and exits with status 0 reports
    100 minus 5 for each finding, or 0 if that is negative. *)
Theorem exit_status_bounds_score :
  forall (fs : FileSystem) (argv : list string) (r : SecurityChecker.Results),
    SecurityChecker.report (SecurityChecker.main fs argv) = Some r ->
    (SecurityChecker.exit_status (SecurityChecker.main fs argv) = 1 ->
     SecurityChecker.security_score r <= 85)
    /\ (SecurityChecker.exit_status (SecurityChecker.main fs argv) = 0 ->
        SecurityChecker.security_score r
        = Z.max 0 (100 - 5 * Z.of_nat (List.length (SecurityChecker.vulnerabilities r)))).
Proof.
  intros fs argv r R; apply main_run in R as (files & _ & _ & -> & ->).
  rewrite Batch.check_files_results; cbv zeta.
  cbn [SecurityChecker.security_score SecurityChecker.vulnerabilities
         SecurityChecker.errors].
  rewrite Score.score_of_eq.
  set (vulns := flat_map (Spec.Security.found fs) files).
  pose proof (count_split _ (Spec.Security.has_severity SecurityChecker.high) vulns) as S.
  pose proof (count_nonneg _ (Spec.Security.has_severity SecurityChecker.high) vulns).
  pose proof (count_nonneg _
                (fun v => negb (Spec.Security.has_severity SecurityChecker.high v))
                vulns).
  destruct (0 <? _) eqn:P; [apply Z.ltb_lt in P | apply Z.ltb_ge in P];
    split; intros E; try discriminate E; lia.
Qed.

Lemma exit_status_bounds_score_witness :
  exists r,
    SecurityChecker.report
      (SecurityChecker.main Examples.batch_fs ["security-checker.py"; "ok.py"])
    = Some r
    /\ SecurityChecker.security_score r <= 85.
Proof.
  eexists; split; [vm_compute; reflexivity|].
  eapply (exit_status_bounds_score Examples.batch_fs
            ["security-checker.py"; "ok.py"]);
    vm_compute; reflexivity.
Defined.

End Extremes.

(** ** The command line *)

Module CommandLine.
Import Text Env Terms.

Lemma chars_text (l : list ascii) : chars (text l) = l.
Proof. apply list_ascii_of_string_of_list_ascii. Qed.

Lemma text_chars (s : string) : text (chars s) = s.
Proof. apply string_of_list_ascii_of_string. Qed.

Lemma chars_append (s t : string) : chars (s ++ t) = chars s ++ chars t.
Proof. induction s as [|c s IH]; [reflexivity|]; cbn; now f_equal. Qed.

Lemma solid_rev (l : list ascii) : solid l -> solid (rev l).
Proof. apply Forall_rev. Qed.

Lemma lstrip_solid (l : list ascii) : solid l -> lstrip_chars l = l.
Proof. intros H; destruct H as [|c l C H]; cbn; [reflexivity | now rewrite C]. Qed.

Lemma strip_solid (l : list ascii) : solid l -> strip (text l) = text l.
Proof.
  intros H; unfold strip, rstrip_chars.
  rewrite chars_text, (lstrip_solid l H), (lstrip_solid _ (solid_rev l H)).
  now rewrite rev_involutive.
Qed.

(** The fields of [s.split()] are not empty and hold no white space. *)
Lemma split_ws_aux_fields (l cur : list ascii) :
  solid cur ->
  Forall (fun field => field <> [] /\ solid field) (split_ws_aux cur l).
Proof.
  revert cur; induction l as [|c l IH]; intros cur H; cbn [split_ws_aux].
  - destruct cur as [|a cur]; constructor; [|constructor].
    split; [|now apply solid_rev].
    intros E; apply (f_equal (@List.length ascii)) in E.
    rewrite length_rev in E; discriminate E.
  - destruct (is_space c) eqn:C.
    + destruct cur as [|a cur]; [apply IH; constructor|].
      constructor; [|apply IH; constructor].
      split; [|now apply solid_rev].
      intros E; apply (f_equal (@List.length ascii)) in E.
      rewrite length_rev in E; discriminate E.
    + apply IH; now constructor.
Qed.

Lemma split_ws_aux_nil (l cur : list ascii) :
  split_ws_aux cur l = [] <-> cur = [] /\ Forall (fun c => is_space c = true) l.
Proof.
  revert cur; induction l as [|c l IH]; intros cur; cbn [split_ws_aux].
  - destruct cur; split; try easy; now intros [? _].
  - destruct (is_space c) eqn:C.
    + destruct cur as [|a cur].
      * rewrite IH; split; intros [_ H]; split; try reflexivity;
          [now constructor | now inversion H].
      * split; [discriminate | now intros [? _]].
    + rewrite IH; split; [now intros [? _]|].
      intros [_ H]; inversion H; congruence.
Qed.

(** A solid run in front of the input joins the field being read. *)
Lemma split_ws_aux_solid (t l cur : list ascii) :
  solid t -> split_ws_aux cur (t ++ l) = split_ws_aux (rev t ++ cur) l.
Proof.
  intros H; revert cur; induction H as [|c t C H IH]; intros cur; [reflexivity|].
  cbn [app split_ws_aux rev]; rewrite C, IH, <- app_assoc; reflexivity.
Qed.

Lemma split_ws_fields (arg : string) : Forall plain (split_ws arg).
Proof.
  unfold split_ws; apply Forall_map.
  eapply Forall_impl; [|apply (split_ws_aux_fields (chars arg) []); constructor].
  intros field [N S]; split; [|now rewrite chars_text].
  intros E; apply N; apply (f_equal chars) in E; now rewrite chars_text in E.
Qed.

Lemma single_argument_shape (program arg : string) :
  SecurityChecker.files_of_argv [program; arg] = Some (split_ws arg).
Proof.
  cbn [SecurityChecker.files_of_argv]; f_equal.
  pose proof (split_ws_fields arg) as F.
  induction F as [|name names [N S] F IH]; [reflexivity|].
  assert (T : strip name = name)
    by (rewrite <- (text_chars name); now apply strip_solid).
  cbn [filter]; rewrite T.
  destruct name; [easy|]; cbn [nonempty map]; now rewrite T, IH.
Qed.

(** X6.  With a single argument of ASCII text, the list of files is the
    argument split at white space: the stripping and the filter of the
    comprehension change nothing.  Every name of the list is non-empty
    and free of white space, and the list is empty exactly when the
    argument holds nothing but white space. *)
Theorem single_argument_is_split :
  forall program arg : string,
    ascii_text arg ->
    SecurityChecker.files_of_argv [program; arg] = Some (split_ws arg)
    /\ Forall plain (split_ws arg)
    /\ (SecurityChecker.files_of_argv [program; arg] = Some [] <-> blank arg).
Proof.
  intros program arg _.
  split; [apply single_argument_shape|]; split; [apply split_ws_fields|].
  rewrite single_argument_shape; unfold blank, split_ws; split.
  - intros [= H]; apply map_eq_nil in H; now apply split_ws_aux_nil in H.
  - intros H; f_equal.
    replace (split_ws_aux [] (chars arg)) with (@nil (list ascii)); [reflexivity|].
    symmetry; now apply split_ws_aux_nil.
Qed.

Lemma single_argument_is_split_witness :
  SecurityChecker.files_of_argv ["lint-checker.py"; " a.py  src/b.js "]
  = Some ["a.py"; "src/b.js"]
  /\ ~ blank " a.py  src/b.js ".
Proof.
  destruct (single_argument_is_split "lint-checker.py" " a.py  src/b.js ")
    as (S & _ & B); [repeat constructor|].
  split; [exact S|].
  intros H; apply B in H; discriminate H.
Defined.

Lemma split_join (names : list string) :
  Forall plain names -> split_ws (String.concat " " names) = names.
Proof.
  unfold split_ws; induction 1 as [|name names [N S] F IH]; [reflexivity|].
  assert (R : rev (chars name) <> []).
  { intros E; apply N; rewrite <- (text_chars name).
    apply (f_equal (@rev ascii)) in E; rewrite rev_involutive in E.
    now rewrite E. }
  destruct names as [|name' names].
  - cbn [String.concat].
    rewrite <- (app_nil_r (chars name)), (split_ws_aux_solid _ _ _ S), app_nil_r.
    cbn [split_ws_aux]; destruct (rev (chars name)) eqn:E; [easy|].
    rewrite <- E, rev_involutive; cbn [map]; now rewrite text_chars.
  - change (String.concat " " (name :: name' :: names))
      with (name ++ " " ++ String.concat " " (name' :: names))%string.
    rewrite !chars_append, (split_ws_aux_solid _ _ _ S), app_nil_r.
    change (chars " ") with [" "%char]; cbn [app split_ws_aux].
    change (is_space " ") with true; cbv iota.
    destruct (rev (chars name)) eqn:E; [easy|].
    rewrite <- E, rev_involutive; cbn [map]; now rewrite text_chars, IH.
Qed.

(** X7.  The two ways of passing the files agree: for names of ASCII
    text that are non-empty and free of white space, one argument holding
    the names separated by spaces and one argument for each name give the
    same list of files, the names in order. *)
Theorem invocation_forms_agree :
  forall (program : string) (names : list string),
    names <> [] -> Forall ascii_text names -> Forall plain names ->
    SecurityChecker.files_of_argv [program; String.concat " " names] = Some names
    /\ SecurityChecker.files_of_argv (program :: names) = Some names.
Proof.
  intros program names N _ P.
  assert (J : forall l, Forall plain l ->
                SecurityChecker.files_of_argv [program; String.concat " " l]
                = Some l).
  { intros l Pl; now rewrite single_argument_shape, split_join. }
  split; [now apply J|].
  destruct names as [|name [|name' names]]; [easy | | reflexivity].
  now apply (J [name]).
Qed.

Lemma invocation_forms_agree_witness :
  SecurityChecker.files_of_argv ["security-checker.py"; "a.py src/b.js"]
  = Some ["a.py"; "src/b.js"]
  /\ SecurityChecker.files_of_argv ["security-checker.py"; "a.py"; "src/b.js"]
     = Some ["a.py"; "src/b.js"].
Proof.
  apply (invocation_forms_agree "security-checker.py" ["a.py"; "src/b.js"]).
  - discriminate.
  - repeat constructor.
  - repeat constructor; discriminate.
Defined.

End CommandLine.

(** ** A command line without files *)

Module NoFiles.
Import Text Env Terms.

(** C5 (as the code has it).  A command line supplies no file in two
    ways.  With exactly one argument that holds no name (it is empty or
    white space) the list of files is empty: both checkers print that
    there are no files, scan nothing, write no report and exit with
    status 0.  Without any argument both print their usage and exit with
    status 1, again without a report. *)
Theorem no_files_supplied :
  forall (tools : LintChecker.Tools) (fs : FileSystem) (argv : list string),
    (SecurityChecker.files_of_argv argv = Some [] ->
     SecurityChecker.main fs argv
     = SecurityChecker.BuildOutcome 0 ["No files to scan"] None
     /\ LintChecker.main tools fs argv
        = LintChecker.BuildOutcome 0 ["No files to check"] None)
    /\ (SecurityChecker.files_of_argv argv = None ->
        SecurityChecker.main fs argv
        = SecurityChecker.BuildOutcome 1
            ["Usage: python security-checker.py <file1> <file2> ..."] None
        /\ LintChecker.main tools fs argv
           = LintChecker.BuildOutcome 1
               ["Usage: python lint-checker.py <file1> <file2> ..."] None)
    /\ (SecurityChecker.files_of_argv argv = Some [] ->
        exists program arg, argv = [program; arg])
    /\ (SecurityChecker.files_of_argv argv = None <-> (List.length argv < 2)%nat)
    /\ (forall program arg,
           argv = [program; arg] -> blank arg ->
           SecurityChecker.files_of_argv argv = Some []).
Proof.
  intros tools fs argv.
  split; [|split; [|split; [|split]]].
  - intros E; unfold SecurityChecker.main, LintChecker.main; now rewrite E.
  - intros E; unfold SecurityChecker.main, LintChecker.main; now rewrite E.
  - apply Batch.empty_file_list_has_one_argument.
  - destruct argv as [|program [|arg [|arg' rest]]]; cbn; split;
      try reflexivity; try discriminate; lia.
  - intros program arg -> B.
    rewrite CommandLine.single_argument_shape; f_equal; unfold split_ws.
    replace (split_ws_aux [] (chars arg)) with (@nil (list ascii)); [reflexivity|].
    symmetry; now apply CommandLine.split_ws_aux_nil.
Qed.

Lemma no_files_supplied_witness :
  SecurityChecker.main Examples.batch_fs ["security-checker.py"; "  "]
  = SecurityChecker.BuildOutcome 0 ["No files to scan"] None
  /\ LintChecker.main Examples.eslint_only Examples.lint_fs ["lint-checker.py"; "  "]
     = LintChecker.BuildOutcome 0 ["No files to check"] None.
Proof.
  split.
  - apply (no_files_supplied Examples.eslint_only Examples.batch_fs
             ["security-checker.py"; "  "]).
    reflexivity.
  - apply (no_files_supplied Examples.eslint_only Examples.lint_fs
             ["lint-checker.py"; "  "]).
    reflexivity.
Defined.

(** Called without any argument, no file is supplied, and yet both
    checkers end with status 1. *)
Lemma no_argument_exits_one :
  SecurityChecker.files_of_argv ["security-checker.py"] = None
  /\ SecurityChecker.main Examples.batch_fs ["security-checker.py"]
     = SecurityChecker.BuildOutcome 1
         ["Usage: python security-checker.py <file1> <file2> ..."] None
  /\ LintChecker.main Examples.eslint_only Examples.lint_fs ["lint-checker.py"]
     = LintChecker.BuildOutcome 1
         ["Usage: python lint-checker.py <file1> <file2> ..."] None
  /\ SecurityChecker.exit_status
       (SecurityChecker.main Examples.batch_fs ["security-checker.py"]) <> 0.
Proof. repeat split; discriminate. Qed.

End NoFiles.

(** ** Text in front of a line *)

Module Prefix.
Import Text Env Re Terms SecurityChecker Spec.Security.

Lemma iterate_boundary
  (body : option ascii -> list ascii -> (option ascii -> list ascii -> bool) -> bool) :
  (forall k1 k2, agree_boundary k1 k2 ->
                 agree_boundary (fun p s => body p s k1) (fun p s => body p s k2)) ->
  forall k1 k2, agree_boundary k1 k2 ->
  forall fuel, agree_boundary (iterate body k1 fuel) (iterate body k2 fuel).
Proof.
  intros B k1 k2 K fuel; induction fuel as [|fuel IH]; intros p1 p2 s P.
  - now apply K.
  - cbn [iterate].
    assert (H : agree_boundary
                  (fun p' s' =>
                     if (List.length s' <? List.length s)%nat
                     then iterate body k1 fuel p' s' else false)
                  (fun p' s' =>
                     if (List.length s' <? List.length s)%nat
                     then iterate body k2 fuel p' s' else false)).
    { intros q1 q2 t Q; destruct (_ <? _)%nat; [now apply IH | reflexivity]. }
    now rewrite (B _ _ H p1 p2 s P), (K p1 p2 s P).
Qed.

(** The matcher looks at the preceding character only to tell whether it
    is a word character. *)
Lemma matches_boundary (ic : bool) (r : regex) :
  forall k1 k2, agree_boundary k1 k2 ->
  agree_boundary (fun p s => matches ic r p s k1) (fun p s => matches ic r p s k2).
Proof.
  induction r as [|c| |neg items| | |r1 IH1 r2 IH2|r1 IH1 r2 IH2|r IH|r IH];
    intros k1 k2 K p1 p2 s P; cbn [matches].
  - now apply K.
  - destruct s as [|a s]; [reflexivity|]; now rewrite (K (Some a) (Some a) s eq_refl).
  - destruct s as [|a s]; [reflexivity|]; now rewrite (K (Some a) (Some a) s eq_refl).
  - destruct s as [|a s]; [reflexivity|]; now rewrite (K (Some a) (Some a) s eq_refl).
  - destruct s as [|a s]; [reflexivity|]; now rewrite (K (Some a) (Some a) s eq_refl).
  - unfold same_boundary in P; now rewrite P, (K p1 p2 s P).
  - apply (IH1 _ _ (IH2 _ _ K)); assumption.
  - now rewrite (IH1 _ _ K p1 p2 s P), (IH2 _ _ K p1 p2 s P).
  - now apply (iterate_boundary (matches ic r) IH k1 k2 K).
  - rewrite (IH (fun _ _ => true) (fun _ _ => true) (fun _ _ _ _ => eq_refl) p1 p2 s P).
    now rewrite (K p1 p2 s P).
Qed.

Lemma search_boundary (ic : bool) (r : regex) (p1 p2 : option ascii) (s : list ascii) :
  same_boundary p1 p2 -> search_from ic r p1 s = search_from ic r p2 s.
Proof.
  intros P; destruct s as [|a s]; cbn [search_from];
    now rewrite (matches_boundary ic r accept accept (fun _ _ _ _ => eq_refl) p1 p2 _ P).
Qed.

(** A match is still found when text is put in front of the input. *)
Lemma search_after_prefix (ic : bool) (r : regex) (pre s : list ascii) :
  forall p, search_from ic r (prev_after p pre) s = true ->
            search_from ic r p (pre ++ s) = true.
Proof.
  induction pre as [|a pre IH]; intros p H; [exact H|].
  cbn [app search_from]; destruct (matches ic r p _ accept); [reflexivity|].
  now apply IH.
Qed.

Lemma re_search_after_prefix (ic : bool) (pattern prefix line : string) :
  detached prefix ->
  re_search ic pattern line = true ->
  re_search ic pattern (prefix ++ line) = true.
Proof.
  unfold re_search, Re.search, detached.
  destruct (compile pattern) as [r|]; [|easy]; intros D H.
  rewrite CommandLine.chars_append; apply search_after_prefix.
  now rewrite (search_boundary ic r _ None).
Qed.

Lemma singleton_in (A B : Type) (test : A -> bool) (item : A -> B) (rules : list A)
  (v : B) :
  In v (flat_map (fun rule => if test rule then [item rule] else []) rules)
  <-> exists rule, In rule rules /\ test rule = true /\ v = item rule.
Proof.
  rewrite in_flat_map; split; intros (rule & I & H); exists rule.
  - destruct (test rule); [|easy]; now destruct H as [<- | []].
  - destruct H as [T ->]; rewrite T; split; [exact I | now left].
Qed.

(** X8.  In files of ASCII text, text put in front of a line does not
    silence its findings, when that text is empty or ends outside a word,
    as a comment mark followed by a space does: every finding a scan
    reports for the line is reported, by the same rule and for the same
    line number, by the scan of a file that has the prefixed line at that
    place. *)
Theorem prefix_keeps_findings :
  forall (fs fs' : FileSystem) (file_path content content' : string) (n : nat)
         (line prefix : string),
    ascii_text file_path -> ascii_text content -> ascii_text content' ->
    fs file_path = Readable content ->
    fs' file_path = Readable content' ->
    nth_error (split_lines content) n = Some line ->
    nth_error (split_lines content') n = Some (prefix ++ line)%string ->
    detached prefix ->
    forall v, In v (fst (_scan_file fs file_path)) -> Issue.line v = S n ->
              exists v', In v' (fst (_scan_file fs' file_path)) /\ same_report v v'.
Proof.
  intros fs fs' file_path content content' n line prefix _ _ _ R R' N N' D v I L.
  assert (F : In v (filter (on_line (S n)) (fst (_scan_file fs file_path)))).
  { apply filter_In; split; [exact I|]; unfold on_line; rewrite L.
    apply Nat.eqb_refl. }
  rewrite (Lines.findings_on_line fs file_path content n line R N) in F.
  assert (G : forall v', In v' (filter (on_line (S n)) (fst (_scan_file fs' file_path)))
                         -> In v' (fst (_scan_file fs' file_path)))
    by (intros v' H; now apply filter_In in H).
  rewrite (Lines.findings_on_line fs' file_path content' n _ R' N') in G.
  apply in_app_iff in F as [F | F]; apply singleton_in in F as (rule & Ir & M & ->).
  - exists (universal_issue file_path rule (S n) (prefix ++ line)); split.
    + apply G, in_or_app; left; apply singleton_in; exists rule.
      repeat split; [exact Ir | now apply re_search_after_prefix].
    + repeat split.
  - exists (language_issue file_path rule (S n) (prefix ++ line)); split.
    + apply G, in_or_app; right; apply singleton_in; exists rule.
      repeat split; [exact Ir | now apply re_search_after_prefix].
    + repeat split.
Qed.

Lemma prefix_keeps_findings_witness :
  exists v',
    In v' (fst (_scan_file Cases.commented_fs "a.js"))
    /\ Issue.category v' = "code_injection" /\ Issue.line v' = 1%nat.
Proof.
  destruct (prefix_keeps_findings Cases.live_fs Cases.commented_fs "a.js"
              "eval(a + b)" "// eval(a + b)" 0 "eval(a + b)" "// "
              ltac:(repeat constructor) ltac:(repeat constructor)
              ltac:(repeat constructor)
              eq_refl eq_refl eq_refl eq_refl eq_refl
              (language_issue "a.js"
                 (BuildLanguageRule "\beval\s*\(" "code_injection" high
                    "Use of eval() function - potential code injection risk")
                 1 "eval(a + b)"))
    as (v' & I & _ & L & C & _).
  - vm_compute; tauto.
  - reflexivity.
  - exists v'; split; [exact I|]; split; [now rewrite <- C | now rewrite <- L].
Defined.

End Prefix.

(** ** The lint checker's own checks *)

Module Builtin.
Import Text Env Loops LintChecker LintTerms Spec.Lint.

Lemma loop_invariant (A B : Type) (P : A -> Prop) (f : A -> B -> A) (l : list B) :
  forall acc, P acc -> (forall acc x, In x l -> P acc -> P (f acc x)) ->
              P (fold_left f l acc).
Proof.
  induction l as [|x l IH]; intros acc H S; [exact H|].
  cbn [fold_left]; apply IH.
  - apply S; [now left | exact H].
  - intros acc' y I; apply S; now right.
Qed.

Lemma reading_invariant (P : list Issue.t -> Prop) (fs : FileSystem)
  (file_path : string) (split : string -> list string) (what : string)
  (check : list (nat * string) -> list Issue.t) :
  P [] ->
  (forall content, fs file_path = Readable content ->
                   P (check (enumerate_from 1 (split content)))) ->
  P (fst (reading fs file_path split what check)).
Proof.
  intros N R; unfold reading; destruct (fs file_path); [exact N .. | now apply R].
Qed.

Lemma warning_built_in (file_path : string) (line_num : nat) (message category : string) :
  (1 <= line_num)%nat -> built_in file_path (warning file_path line_num message category).
Proof. intros L; repeat split; cbn; lia. Qed.

Lemma built_in_snoc (file_path : string) (issues : list Issue.t) (line_num : nat)
  (message category : string) :
  (1 <= line_num)%nat -> Forall (built_in file_path) issues ->
  Forall (built_in file_path) (issues ++ [warning file_path line_num message category]).
Proof.
  intros L H; apply Forall_app; split; [exact H|].
  constructor; [now apply warning_built_in | constructor].
Qed.

Ltac warnings_only :=
  apply reading_invariant; [constructor|]; intros content _;
  apply loop_invariant; [constructor|];
  intros acc [n line] I H; apply Findings.enumerate_in in I as [L _];
  repeat match goal with
         | |- context [if ?c then _ else _] => destruct c
         end;
  repeat apply built_in_snoc; assumption.

Lemma common_built_in (fs : FileSystem) (file_path : string) :
  Forall (built_in file_path) (fst (_check_common_issues fs file_path)).
Proof. unfold _check_common_issues; warnings_only. Qed.

Lemma javascript_built_in (fs : FileSystem) (file_path : string) :
  Forall (built_in file_path) (fst (_basic_javascript_check fs file_path)).
Proof. unfold _basic_javascript_check; warnings_only. Qed.

Lemma python_built_in (fs : FileSystem) (file_path : string) :
  Forall (built_in file_path) (fst (_basic_python_check fs file_path)).
Proof. unfold _basic_python_check; warnings_only. Qed.

Lemma java_built_in (fs : FileSystem) (file_path : string) :
  Forall (built_in file_path) (fst (_basic_java_check fs file_path)).
Proof. unfold _basic_java_check; warnings_only. Qed.

(** What the check selected by the extension returns was built by the
    checker or reported by a tool. *)
Lemma route_origin (tools : Tools) (fs : FileSystem) (file_path : string) :
  Forall (fun i => built_in file_path i \/ tool_report tools file_path i)
    (fst (route tools fs file_path)).
Proof.
  assert (B : forall l, Forall (built_in file_path) l ->
                        Forall (fun i => built_in file_path i
                                         \/ tool_report tools file_path i) l)
    by (intros l; apply Forall_impl; now left).
  assert (T : forall l,
             eslint tools file_path = Ran l \/ tsc tools file_path = Ran l
             \/ flake8 tools file_path = Ran l \/ rubocop tools file_path = Ran l ->
             Forall (fun i => built_in file_path i
                              \/ tool_report tools file_path i) l).
  { intros l H; apply Forall_forall; intros i I; right; now exists l. }
  unfold route; cbv zeta.
  repeat match goal with
         | |- context [if ?c then _ else _] => destruct c
         end;
    unfold _check_javascript, _check_typescript, _check_python, _check_java,
      _check_go, _check_rust, _check_cpp, _check_csharp, _check_php, _check_ruby,
      _basic_cpp_check, _basic_csharp_check, _basic_php_check, _basic_ruby_check;
    try (cbn [fst]; constructor).
  - destruct (eslint tools file_path) eqn:E;
      [apply B, javascript_built_in | apply T; tauto].
  - destruct (tsc tools file_path) eqn:E;
      [apply B, javascript_built_in | apply T; tauto].
  - destruct (flake8 tools file_path) eqn:E;
      [apply B, python_built_in | apply T; tauto].
  - apply B, java_built_in.
  - destruct (gofmt tools file_path) as [|[|]]; cbn [fst];
      [constructor | | constructor].
    constructor; [left; apply warning_built_in; lia | constructor].
  - destruct (rustfmt tools file_path) as [|[|]]; cbn [fst];
      [constructor | | constructor].
    constructor; [left; apply warning_built_in; lia | constructor].
  - destruct (rubocop tools file_path) eqn:E; [constructor | apply T; tauto].
Qed.

Lemma found_origin (tools : Tools) (fs : FileSystem) (files : list string)
  (i : Issue.t) :
  In i (flat_map (found tools fs) files) ->
  exists file_path,
    In file_path files /\ exists_ fs file_path = true
    /\ (built_in file_path i \/ tool_report tools file_path i).
Proof.
  rewrite in_flat_map; intros (f & F & I); exists f; split; [exact F|].
  unfold found in I; destruct (exists_ fs f); [split; [reflexivity|] | easy].
  apply in_app_iff in I as [I | I].
  - exact (proj1 (Forall_forall _ _) (route_origin tools fs f) i I).
  - left; exact (proj1 (Forall_forall _ _) (common_built_in fs f) i I).
Qed.

Lemma no_tools_quiet : quiet no_tools.
Proof. intros file_path i (l & _ & [H | [H | [H | H]]]); discriminate H. Qed.

(** X9.  Every style issue of a lint report belongs to a path of the
    batch that exists, and it was either built by one of the checker's own
    checks, which only build warnings without column and rule and with a
    line number of at least 1, or taken from what ESLint, tsc, flake8 or
    RuboCop reported for that path. *)
Theorem style_issue_origin :
  forall (tools : Tools) (fs : FileSystem) (files : list string) (i : Issue.t),
    In i (style_issues (fst (check_files tools fs files init_results))) ->
    exists file_path,
      In file_path files /\ exists_ fs file_path = true
      /\ (built_in file_path i \/ tool_report tools file_path i).
Proof.
  intros tools fs files i; rewrite Batch.lint_check_files_results; cbv zeta.
  cbn [style_issues]; apply found_origin.
Qed.

Lemma style_issue_origin_witness :
  exists file_path,
    In file_path ["app.js"] /\ exists_ Examples.lint_fs file_path = true
    /\ (built_in file_path Examples.eslint_error
        \/ tool_report Examples.eslint_only file_path Examples.eslint_error).
Proof.
  apply (style_issue_origin Examples.eslint_only Examples.lint_fs ["app.js"]).
  vm_compute; tauto.
Defined.

(** X10.  When the external linters report no issue of severity "error",
    as when none of them is installed, a lint report has no error: every
    style issue is counted as a warning and the score is 100 minus 2 for
    each issue, but not less than 0. *)
Theorem quiet_tools_give_warnings :
  forall (tools : Tools) (fs : FileSystem) (files : list string),
    quiet tools ->
    let r := fst (check_files tools fs files init_results) in
    errors r = 0
    /\ warnings r = Z.of_nat (List.length (style_issues r))
    /\ lint_score r = Z.max 0 (100 - 2 * Z.of_nat (List.length (style_issues r))).
Proof.
  intros tools fs files Q r; subst r; rewrite Batch.lint_check_files_results;
    cbv zeta; cbn [errors warnings style_issues lint_score].
  rewrite Score.lint_score_of_eq.
  set (issues := flat_map (found tools fs) files).
  assert (E : Spec.count is_error issues = 0).
  { apply Counters.count_zero; intros i I.
    apply found_origin in I as (f & _ & _ & [B | T]).
    - destruct B as (_ & S & _); unfold is_error; now rewrite S.
    - unfold is_error; apply String.eqb_neq; exact (Q f i T). }
  pose proof (count_split _ is_error issues) as S; rewrite E in *.
  repeat split; [lia|]; f_equal; lia.
Qed.

Lemma quiet_tools_give_warnings_witness :
  let r := fst (check_files no_tools Examples.lint_fs ["app.js"] init_results) in
  errors r = 0
  /\ warnings r = Z.of_nat (List.length (style_issues r))
  /\ lint_score r = Z.max 0 (100 - 2 * Z.of_nat (List.length (style_issues r))).
Proof.
  apply (quiet_tools_give_warnings no_tools Examples.lint_fs ["app.js"]).
  exact no_tools_quiet.
Defined.

End Builtin.

(** ** The line checks of the lint checker *)

Module LineChecks.
Import Text Env Loops LintChecker LintTerms Terms.

Lemma enumerate_nth (A : Type) (xs : list A) (k n : nat) (x : A) :
  In (n, x) (enumerate_from k xs)
  <-> exists m, n = (k + m)%nat /\ nth_error xs m = Some x.
Proof.
  revert k; induction xs as [|y xs IH]; intros k; cbn [enumerate_from In].
  - split; [easy | now intros ([|m] & _ & H)].
  - rewrite IH; split.
    + intros [E | (m & -> & H)].
      * injection E as -> ->; exists 0%nat; split; [lia | reflexivity].
      * exists (S m); split; [lia | exact H].
    + intros ([|m] & -> & H).
      * injection H as ->; left; f_equal; lia.
      * right; exists m; split; [lia | exact H].
Qed.

Lemma length_chars (s : string) : String.length s = List.length (chars s).
Proof. induction s as [|c s IH]; [reflexivity | cbn; now f_equal]. Qed.

Lemma lstrip_char_length (c : ascii) (l : list ascii) :
  (List.length (lstrip_char c l) <= List.length l)%nat.
Proof.
  induction l as [|a l IH]; [reflexivity|].
  cbn [lstrip_char]; destruct (Ascii.eqb a c); cbn [List.length]; lia.
Qed.

(** The number the Python check computes is the number of leading
    spaces. *)
Lemma leading_spaces_indent (l : list ascii) :
  (List.length l - List.length (lstrip_char " " l))%nat = indent l.
Proof.
  induction l as [|a l IH]; [reflexivity|].
  cbn [lstrip_char indent]; destruct (Ascii.eqb a " ").
  - pose proof (lstrip_char_length " " l); cbn [List.length]; lia.
  - apply Nat.sub_diag.
Qed.

Lemma starts_with_space (l : list ascii) :
  starts_with [" "%char] l = (1 <=? indent l)%nat.
Proof.
  destruct l as [|a l]; [reflexivity|].
  cbn [starts_with indent]; rewrite (Ascii.eqb_sym " " a), andb_true_r.
  now destruct (Ascii.eqb a " ").
Qed.

Lemma starts_with_four_spaces (l : list ascii) :
  starts_with [" "; " "; " "; " "]%char l = (4 <=? indent l)%nat.
Proof.
  do 4 (destruct l as [|? l]; cbn [starts_with indent];
        [reflexivity
        |rewrite (Ascii.eqb_sym " "); destruct (Ascii.eqb _ " "); [|reflexivity];
         cbn [andb]]).
  reflexivity.
Qed.

Lemma starts_with_tab (l : list ascii) :
  starts_with ["009"%char] l = true -> indent l = 0%nat.
Proof.
  destruct l as [|a l]; [reflexivity|].
  cbn [starts_with indent]; rewrite andb_true_r; intros E.
  apply Ascii.eqb_eq in E; now subst a.
Qed.

Lemma lstrip_chars_nil (l : list ascii) :
  lstrip_chars l = [] <-> Forall (fun c => is_space c = true) l.
Proof.
  induction l as [|c l IH]; [now split|].
  cbn [lstrip_chars]; destruct (is_space c) eqn:C.
  - rewrite IH; split; [now constructor | now inversion 1].
  - split; [easy | inversion 1; congruence].
Qed.

Lemma lstrip_chars_blank (l : list ascii) :
  Forall (fun c => is_space c = true) (lstrip_chars l)
  <-> Forall (fun c => is_space c = true) l.
Proof.
  induction l as [|c l IH]; [reflexivity|].
  cbn [lstrip_chars]; destruct (is_space c) eqn:C; [|reflexivity].
  rewrite IH; split; [now constructor | now inversion 1].
Qed.

Lemma text_nil (l : list ascii) : text l = "" <-> l = [].
Proof.
  split; [|now intros ->].
  intros E; apply (f_equal chars) in E; now rewrite CommandLine.chars_text in E.
Qed.

(** [line.strip()] is empty exactly for a line of white space. *)
Lemma strip_blank (line : string) : nonempty (strip line) = false <-> blank line.
Proof.
  unfold blank, strip, rstrip_chars.
  set (m := lstrip_chars (chars line)).
  assert (N : nonempty (text (rev (lstrip_chars (rev m)))) = false
              <-> lstrip_chars (rev m) = []).
  { split.
    - intros E; destruct (text _) eqn:T; [|discriminate E].
      apply text_nil in T.
      apply (f_equal (@rev ascii)) in T; now rewrite rev_involutive in T.
    - now intros ->. }
  rewrite N, lstrip_chars_nil, <- (lstrip_chars_blank (chars line)); fold m.
  split; intros F; apply Forall_rev in F; now rewrite ?rev_involutive in F.
Qed.

Lemma python_check_spec (fs : FileSystem) (file_path content : string) :
  fs file_path = Readable content ->
  fst (_basic_python_check fs file_path)
  = flat_map
      (fun '(line_num, line) =>
         let k := indent (chars line) in
         if (1 <=? k)%nat && (k <=? 3)%nat && nonempty (strip line)
         then [indentation_warning file_path line_num k] else [])
      (enumerate_from 1 (readlines content)).
Proof.
  intros R; unfold _basic_python_check, reading; rewrite R; cbn [fst].
  rewrite <- (app_nil_l (flat_map _ _)), <- fold_left_append.
  apply fold_left_ext; intros acc [n line]; cbv zeta.
  unfold startswith.
  change (chars "    ") with [" "; " "; " "; " "]%char.
  change (chars " ") with [" "%char].
  change (chars (String "009" "")) with ["009"%char].
  rewrite starts_with_four_spaces, starts_with_space, length_chars,
    leading_spaces_indent.
  destruct (starts_with ["009"%char] (chars line)) eqn:T.
  - rewrite (starts_with_tab _ T), orb_true_r; cbn; now rewrite app_nil_r.
  - rewrite orb_false_r.
    set (k := indent (chars line)).
    destruct (4 <=? k)%nat eqn:F.
    + apply Nat.leb_le in F.
      replace (k <=? 3)%nat with false by (symmetry; apply Nat.leb_gt; lia).
      rewrite andb_false_r; cbn; now rewrite app_nil_r.
    + apply Nat.leb_gt in F.
      replace (k <=? 3)%nat with true by (symmetry; apply Nat.leb_le; lia).
      rewrite andb_true_r, (andb_comm (nonempty _)).
      destruct ((1 <=? k)%nat && nonempty (strip line)) eqn:B;
        [|now rewrite app_nil_r].
      apply andb_true_iff in B as [O _]; apply Nat.leb_le in O.
      replace (k mod 4 =? 0)%nat with false; [reflexivity|].
      symmetry; apply Nat.eqb_neq.
      rewrite Nat.mod_small by lia; lia.
Qed.

(** X11.  On a file of ASCII text the basic Python check, run when
    flake8 is not available, reports exactly the lines that are not blank
    and start with one, two or three spaces, each with the number of its leading spaces: a line
    that starts with four spaces or more is passed over before its
    indentation is counted, so five leading spaces are never reported. *)
Theorem python_indentation_check :
  forall (fs : FileSystem) (file_path content : string),
    ascii_text content ->
    fs file_path = Readable content ->
    forall i : Issue.t,
      In i (fst (_basic_python_check fs file_path))
      <-> exists n line,
            nth_error (readlines content) n = Some line
            /\ (1 <= indent (chars line) <= 3)%nat
            /\ ~ blank line
            /\ i = indentation_warning file_path (S n) (indent (chars line)).
Proof.
  intros fs file_path content _ R i.
  rewrite (python_check_spec fs file_path content R).
  rewrite in_flat_map; split.
  - intros ([m line] & I & H); cbv zeta in H.
    apply enumerate_nth in I as (n & -> & N).
    destruct (_ && _) eqn:B in H; [|easy]; destruct H as [<- | []].
    apply andb_true_iff in B as [B S]; apply andb_true_iff in B as [L U].
    apply Nat.leb_le in L, U.
    exists n, line; repeat split; try assumption.
    intros K; apply strip_blank in K; congruence.
  - intros (n & line & N & [L U] & K & ->).
    exists (S n, line); split; [apply enumerate_nth; now exists n|].
    cbv zeta; apply Nat.leb_le in L, U; rewrite L, U; cbn [andb].
    destruct (nonempty (strip line)) eqn:S; [now left|].
    now apply strip_blank in S.
Qed.

Lemma python_indentation_check_witness :
  In (indentation_warning "a.py" 3 2)
    (fst (_basic_python_check Cases.indented_fs "a.py"))
  /\ ~ In (indentation_warning "a.py" 2 5)
         (fst (_basic_python_check Cases.indented_fs "a.py")).
Proof.
  pose proof (fun A => python_indentation_check Cases.indented_fs "a.py" _ A
                          eq_refl) as H.
  specialize (H ltac:(vm_compute; repeat constructor)).
  split.
  - apply H; exists 2%nat, ("  z = 2" ++ Examples.nl)%string.
    repeat split; [cbn; lia .. |].
    intros B; apply strip_blank in B; vm_compute in B; discriminate B.
  - intros I; apply H in I as (n & line & N & [_ U] & _ & E).
    injection E as E1 E2.
    assert (n = 1%nat) by lia; subst n.
    vm_compute in N; injection N as <-; vm_compute in U; lia.
Defined.

Lemma lstrip_newlines (l : list ascii) :
  lstrip_chars l = lstrip_chars (lstrip_char newline l).
Proof.
  induction l as [|a l IH]; [reflexivity|].
  cbn [lstrip_char]; destruct (Ascii.eqb a newline) eqn:E; [|reflexivity].
  apply Ascii.eqb_eq in E; subst a; exact IH.
Qed.

Lemma lstrip_chars_length (l : list ascii) :
  (List.length (lstrip_chars l) <= List.length l)%nat.
Proof.
  induction l as [|a l IH]; [reflexivity|].
  cbn [lstrip_chars]; destruct (is_space a); cbn [List.length]; lia.
Qed.

Lemma text_injective (l1 l2 : list ascii) : text l1 = text l2 -> l1 = l2.
Proof.
  intros E; apply (f_equal chars) in E; now rewrite !CommandLine.chars_text in E.
Qed.

(** The test for trailing white space looks at the last character of the
    line that is not a final newline. *)
Lemma trailing_test (line : string) :
  negb (String.eqb (rstrip line) (rstrip_char newline line)) = true
  <-> exists c, last_visible line = Some c /\ is_space c = true.
Proof.
  rewrite negb_true_iff, String.eqb_neq.
  unfold rstrip, rstrip_chars, rstrip_char, last_visible.
  rewrite (lstrip_newlines (rev (chars line))).
  destruct (lstrip_char newline (rev (chars line))) as [|c l].
  - split; [now intros H | now intros (c & H & _)].
  - cbn [lstrip_chars]; destruct (is_space c) eqn:C.
    + split; [intros _; now exists c|]; intros _ E.
      apply text_injective in E.
      apply (f_equal (@rev ascii)) in E; rewrite !rev_involutive in E.
      pose proof (lstrip_chars_length l) as L; rewrite E in L; cbn in L; lia.
    + split; [now intros H | intros (c' & H & S); congruence].
Qed.

Lemma common_issues_spec (fs : FileSystem) (file_path content : string) :
  fs file_path = Readable content ->
  fst (_check_common_issues fs file_path)
  = flat_map
      (fun '(line_num, line) =>
         (if negb (String.eqb (rstrip line) (rstrip_char newline line))
          then [trailing_whitespace file_path line_num] else [])
         ++ (if (120 <? String.length (rstrip line))%nat
             then [warning file_path line_num
                     ("Line too long ("
                        ++ str (Z.of_nat (String.length (rstrip line)))
                        ++ " > 120 characters)")
                     "line-length"]
             else [])
         ++ (if contains (String "009" "") line && contains "    " line
             then [warning file_path line_num
                     "Mixed tabs and spaces for indentation" "indentation"]
             else []))
      (enumerate_from 1 (readlines content)).
Proof.
  intros R; unfold _check_common_issues, reading; rewrite R; cbn [fst].
  rewrite <- (app_nil_l (flat_map _ _)), <- fold_left_append.
  apply fold_left_ext; intros acc [n line]; cbv zeta.
  unfold trailing_whitespace.
  destruct (negb _), (_ <? _)%nat, (_ && _);
    cbn [app]; rewrite <- ?app_assoc, ?app_nil_r; reflexivity.
Qed.

(** X12.  On a file of ASCII text the check for trailing white space
    reports line [n] exactly when the last character of the line that is not a final newline is
    a white-space character; a line made of a newline alone is not
    reported. *)
Theorem trailing_whitespace_check :
  forall (fs : FileSystem) (file_path content : string),
    ascii_text content ->
    fs file_path = Readable content ->
    forall n : nat,
      In (trailing_whitespace file_path (S n)) (fst (_check_common_issues fs file_path))
      <-> exists line c,
            nth_error (readlines content) n = Some line
            /\ last_visible line = Some c /\ is_space c = true.
Proof.
  intros fs file_path content _ R n.
  rewrite (common_issues_spec fs file_path content R).
  rewrite in_flat_map; split.
  - intros ([m line] & I & H).
    apply enumerate_nth in I as (k & -> & N).
    assert (T : negb (String.eqb (rstrip line) (rstrip_char newline line)) = true
                /\ k = n).
    { apply in_app_iff in H as [H | H]; [|apply in_app_iff in H as [H | H]].
      - destruct (negb _); [|easy]; destruct H as [E | []].
        injection E as E; split; [reflexivity | lia].
      - destruct (_ <? _)%nat; [|easy]; destruct H as [E | []]; discriminate E.
      - destruct (_ && _); [|easy]; destruct H as [E | []]; discriminate E. }
    destruct T as [T ->]; apply trailing_test in T as (c & L & W).
    now exists line, c.
  - intros (line & c & N & L & W).
    exists (S n, line); split; [apply enumerate_nth; now exists n|].
    apply in_or_app; left.
    replace (negb _) with true; [now left|].
    symmetry; apply trailing_test; now exists c.
Qed.

Lemma trailing_whitespace_check_witness :
  In (trailing_whitespace "notes.txt" 2)
    (fst (_check_common_issues Cases.trailing_fs "notes.txt"))
  /\ ~ In (trailing_whitespace "notes.txt" 1)
         (fst (_check_common_issues Cases.trailing_fs "notes.txt")).
Proof.
  pose proof (fun A => trailing_whitespace_check Cases.trailing_fs "notes.txt" _ A
                          eq_refl) as H.
  specialize (H ltac:(vm_compute; repeat constructor)).
  split.
  - apply (H 1%nat); exists ("second " ++ Examples.nl)%string, " "%char.
    repeat split.
  - intros I; apply (H 0%nat) in I as (line & c & N & L & S).
    vm_compute in N; injection N as <-.
    vm_compute in L; injection L as <-; discriminate S.
Defined.

End LineChecks.

(** ** The summary of a review *)

Module Summaries.
Import Loops AIReviewer ReviewTerms Spec.Review.

(** The summary, field by field. *)
Lemma summary_fields (results : list FileResult) :
  generate_summary results
  = BuildReport
      (BuildSummary
         (Z.of_nat (List.length results))
         (Spec.count (fun r => match analysis_of r with
                               | Some a => match issues a with
                                           | [] => false
                                           | _ => true
                                           end
                               | None => false
                               end) results)
         (Z.of_nat (List.length (all_issues results)))
         (Z.of_nat (List.length (all_suggestions results)))
         (average (scores results))
         (tiers (all_issues results))
         (fold_left (fun counts issue => increment counts (category_name issue))
            (all_issues results) []))
      (_get_recommendation (tiers (all_issues results)) (average (scores results)))
      results.
Proof.
  unfold generate_summary.
  assert (G : forall issues0 suggestions0,
             fold_left
               (fun '(all_issues, all_suggestions) result =>
                  match analysis_of result with
                  | Some a => (all_issues ++ issues a, all_suggestions ++ suggestions a)
                  | None => (all_issues, all_suggestions)
                  end)
               results (issues0, suggestions0)
             = (issues0 ++ all_issues results, suggestions0 ++ all_suggestions results)).
  { induction results as [|r results IH]; intros issues0 suggestions0;
      cbn [fold_left all_issues all_suggestions flat_map].
    - now rewrite !app_nil_r.
    - destruct (analysis_of r) as [a|]; rewrite IH; [|reflexivity].
      now rewrite !app_assoc. }
  rewrite (G [] []); reflexivity.
Qed.

Lemma get_increment (d : dict Z) (key c : string) :
  get (increment d key) c 0 = get d c 0 + (if String.eqb key c then 1 else 0).
Proof.
  induction d as [|[k v] d IH]; cbn [increment get].
  - destruct (String.eqb key c); lia.
  - destruct (String.eqb k key) eqn:E; cbn [get].
    + apply String.eqb_eq in E; subst k.
      destruct (String.eqb key c); lia.
    + destruct (String.eqb k c) eqn:C; [|exact IH].
      apply String.eqb_eq in C; subst k; rewrite String.eqb_sym, E; lia.
Qed.

Lemma total_increment (d : dict Z) (key : string) :
  Spec.total (increment d key) = Spec.total d + 1.
Proof.
  unfold Spec.total; induction d as [|[k v] d IH]; cbn [increment]; [reflexivity|].
  destruct (String.eqb k key); cbn [map snd fold_right] in *; lia.
Qed.

Lemma keys_increment (d : dict Z) (key c : string) :
  In c (map fst (increment d key)) <-> In c (map fst d) \/ c = key.
Proof.
  induction d as [|[k v] d IH]; cbn [increment map fst In].
  - intuition congruence.
  - destruct (String.eqb k key) eqn:E; cbn [map fst In].
    + apply String.eqb_eq in E; subst k; intuition congruence.
    + rewrite IH; tauto.
Qed.

Lemma keys_distinct (d : dict Z) (key : string) :
  NoDup (map fst d) -> NoDup (map fst (increment d key)).
Proof.
  induction d as [|[k v] d IH]; cbn [increment map fst]; intros N.
  - repeat constructor; easy.
  - inversion N as [|? ? K N']; subst.
    destruct (String.eqb k key) eqn:E; cbn [map fst]; [now constructor|].
    constructor; [|now apply IH].
    rewrite keys_increment; intros [I | ->]; [now apply K|].
    now rewrite String.eqb_refl in E.
Qed.

Lemma values_positive (d : dict Z) (key : string) :
  Forall (fun kv => 1 <= snd kv) d -> Forall (fun kv => 1 <= snd kv) (increment d key).
Proof.
  induction 1 as [|[k v] d P F IH]; cbn [increment]; [repeat constructor; cbn; lia|].
  destruct (String.eqb k key); constructor; cbn [snd] in *; try assumption; lia.
Qed.

(** The loop that counts the categories, from any dictionary. *)
Lemma category_loop (found : list Issue.t) :
  forall d : dict Z,
    let d' := fold_left (fun counts issue => increment counts (category_name issue))
                found d in
    (forall c, get d' c 0 = get d c 0 + Spec.count (in_category c) found)
    /\ Spec.total d' = Spec.total d + Z.of_nat (List.length found)
    /\ (NoDup (map fst d) -> NoDup (map fst d'))
    /\ (Forall (fun kv => 1 <= snd kv) d -> Forall (fun kv => 1 <= snd kv) d')
    /\ (forall c, In c (map fst d')
                  <-> In c (map fst d) \/ exists i, In i found /\ category_name i = c).
Proof.
  induction found as [|i found IH]; intros d; cbv zeta.
  - cbn [fold_left List.length]; unfold Spec.count; cbn [filter List.length].
    split; [intros c; lia|]; split; [lia|]; split; [tauto|]; split; [tauto|].
    intros c; split; [now left | now intros [H | (i & [] & _)]].
  - cbn [fold_left]; destruct (IH (increment d (category_name i))) as (G & T & N & P & K).
    split; [|split; [|split; [|split]]].
    + intros c; rewrite G, get_increment, count_cons; unfold in_category at 2; lia.
    + rewrite T, total_increment; cbn [List.length]; lia.
    + intros H; now apply N, keys_distinct.
    + intros H; now apply P, values_positive.
    + intros c; split.
      * intros H; apply K in H as [H | (j & J & E)].
        -- apply keys_increment in H as [H | ->]; [now left|].
           right; exists i; split; [now left | reflexivity].
        -- right; exists j; split; [now right | exact E].
      * intros [H | (j & [<- | J] & E)]; apply K.
        -- left; apply keys_increment; now left.
        -- left; apply keys_increment; now right.
        -- right; now exists j.
Qed.

(** X13.  The category breakdown of a summary counts every issue once:
    the entry of a category is the number of issues of that category, an
    issue without category being counted under "other"; the entries are
    at least 1, their keys are pairwise different and are the categories
    that occur, and they add up to the total number of issues. *)
Theorem category_breakdown_counts :
  forall results : list FileResult,
    let s := summary (generate_summary results) in
    let found := all_issues results in
    (forall c, get (category_breakdown s) c 0 = Spec.count (in_category c) found)
    /\ Spec.total (category_breakdown s) = total_issues s
    /\ NoDup (map fst (category_breakdown s))
    /\ Forall (fun kv => 1 <= snd kv) (category_breakdown s)
    /\ (forall c, In c (map fst (category_breakdown s))
                  <-> exists i, In i found /\ category_name i = c).
Proof.
  intros results; cbv zeta; rewrite summary_fields;
    cbn [summary category_breakdown total_issues].
  destruct (category_loop (all_issues results) []) as (G & T & N & P & K).
  split; [|split; [|split; [|split]]].
  - intros c; now rewrite G.
  - now rewrite T.
  - apply N; constructor.
  - apply P; constructor.
  - intros c; split; [intros H; now apply K in H as [[] | H]|].
    intros H; apply K; now right.
Qed.

Lemma flat_map_length_positive (A B : Type) (f : A -> list B) (l : list A) :
  Spec.count (fun x => match f x with [] => false | _ => true end) l
  <= Z.of_nat (List.length (flat_map f l)).
Proof.
  induction l as [|x l IH]; [reflexivity|].
  rewrite count_cons; cbn [flat_map]; rewrite length_app.
  destruct (f x); cbn [List.length]; lia.
Qed.

(** X14.  In a summary, the number of files analysed is the number of
    results, the files with issues are at most the reviewed files and at
    most the issues, no file has issues exactly when there is no issue,
    and the results are handed on unchanged. *)
Theorem summary_counters :
  forall results : list FileResult,
    let s := summary (generate_summary results) in
    total_files_analyzed s = Z.of_nat (List.length results)
    /\ 0 <= files_with_issues s <= Spec.count reviewed results
    /\ Spec.count reviewed results <= total_files_analyzed s
    /\ files_with_issues s <= total_issues s
    /\ (files_with_issues s = 0 <-> total_issues s = 0)
    /\ total_suggestions s = Z.of_nat (List.length (all_suggestions results))
    /\ detailed_results (generate_summary results) = results.
Proof.
  intros results; cbv zeta; rewrite summary_fields;
    cbn [summary total_files_analyzed files_with_issues total_issues
           total_suggestions detailed_results].
  set (flagged := fun r => match analysis_of r with
                           | Some a => match issues a with [] => false | _ => true end
                           | None => false
                           end).
  set (issues_of := fun r => match analysis_of r with
                             | Some a => issues a
                             | None => []
                             end).
  assert (F : Spec.count flagged results
              = Spec.count (fun r => match issues_of r with
                                     | [] => false
                                     | _ => true
                                     end) results).
  { apply count_ext; intros r; unfold flagged, issues_of.
    now destruct (analysis_of r). }
  repeat split.
  - apply count_nonneg.
  - apply Counters.count_mono; intros r; unfold flagged, reviewed.
    now destruct (analysis_of r).
  - apply Counters.count_le_length.
  - rewrite F; apply (flat_map_length_positive _ _ issues_of).
  - intros Z; rewrite F in Z.
    assert (E : all_issues results = []).
    { apply Counters.flat_map_nil; intros r I.
      apply (proj1 (Counters.count_zero _ _ _) Z) in I.
      change (issues_of r = []); cbv beta in I; now destruct (issues_of r). }
    now rewrite E.
  - intros Z; rewrite F.
    assert (E : all_issues results = [])
      by (destruct (all_issues results); [reflexivity | discriminate Z]).
    apply Counters.count_zero; intros r I.
    pose proof (proj1 (Counters.flat_map_nil _ _ _ _) E r I) as N.
    change (issues_of r = []) in N; cbv beta; now rewrite N.
Qed.

Lemma tiers_high (found : list Issue.t) :
  get (tiers found) "high" 0 = count_severity "high" found.
Proof. reflexivity. Qed.

Lemma count_severity_positive (label : string) (found : list Issue.t) :
  0 < count_severity label found
  <-> exists i, In i found /\ Issue.severity i = Some label.
Proof.
  induction found as [|i found IH]; [split; [easy | now intros (i & [] & _)]|].
  rewrite Breakdown.count_severity_cons.
  assert (N : 0 <= count_severity label found) by apply count_nonneg.
  destruct (Issue.severity i) as [s|] eqn:E.
  - destruct (String.eqb s label) eqn:L.
    + apply String.eqb_eq in L; subst s.
      split; [intros _; exists i; split; [now left | exact E] | lia].
    + apply String.eqb_neq in L; rewrite Z.add_0_l, IH; split.
      * intros (j & J & S); exists j; split; [now right | exact S].
      * intros (j & [<- | J] & S); [congruence | now exists j].
  - rewrite Z.add_0_l, IH; split.
    + intros (j & J & S); exists j; split; [now right | exact S].
    + intros (j & [<- | J] & S); [congruence | now exists j].
Qed.

Lemma in_all_issues (results : list FileResult) (i : Issue.t) :
  In i (all_issues results)
  <-> exists r a, In r results /\ analysis_of r = Some a /\ In i (issues a).
Proof.
  unfold all_issues; rewrite in_flat_map; split.
  - intros (r & R & I); destruct (analysis_of r) as [a|] eqn:A; [|easy].
    now exists r, a.
  - intros (r & a & R & A & I); exists r; split; [exact R | now rewrite A].
Qed.

(** X15.  One issue of severity "high" in the answer for any file
    decides the verdict: the recommendation of a summary is "Not
    Recommended for Merge" exactly when some reviewed file has an issue
    whose severity is "high", whatever the scores and the other issues. *)
Theorem high_issue_blocks_the_merge :
  forall results : list FileResult,
    recommendation (generate_summary results) = not_recommended
    <-> exists r a i,
          In r results /\ analysis_of r = Some a /\ In i (issues a)
          /\ Issue.severity i = Some "high".
Proof.
  intros results; rewrite summary_fields; cbn [recommendation].
  unfold _get_recommendation; rewrite tiers_high.
  pose proof (count_severity_positive "high" (all_issues results)) as P.
  destruct Verdict.verdicts_differ as ((D1 & D2 & D3 & D4) & _).
  destruct (count_severity "high" (all_issues results) >? 0) eqn:H.
  - apply Verdict.gtb_iff in H; apply P in H as (i & I & S).
    apply in_all_issues in I as (r & a & R & A & I).
    split; [intros _; now exists r, a, i | reflexivity].
  - split.
    + repeat match goal with
             | |- context [if ?c then _ else _] => destruct c
             end; intros E; symmetry in E; contradiction.
    + intros (r & a & i & R & A & I & S).
      assert (L : 0 < count_severity "high" (all_issues results)).
      { apply P; exists i; split; [|exact S].
        apply in_all_issues; now exists r, a. }
      apply Verdict.gtb_iff in L; congruence.
Qed.

Lemma unreviewed_nothing (results : list FileResult) :
  (forall r, In r results -> analysis_of r = None) ->
  all_issues results = [] /\ scores results = [] /\ all_suggestions results = [].
Proof.
  intros N; repeat split; apply Counters.flat_map_nil; intros r I;
    now rewrite (N r I).
Qed.

(** X16.  When no file of a run was reviewed, because none has a diff
    or every analysis raised, the summary counts no issue and no
    suggestion, gives the default average of 70 and recommends
    "Approved". *)
Theorem nothing_reviewed_is_approved :
  forall results : list FileResult,
    (forall r, In r results -> analysis_of r = None) ->
    let report := generate_summary results in
    total_issues (summary report) = 0
    /\ files_with_issues (summary report) = 0
    /\ total_suggestions (summary report) = 0
    /\ average_score (summary report) = 70%Q
    /\ category_breakdown (summary report) = []
    /\ recommendation report = approved.
Proof.
  intros results N; cbv zeta; rewrite summary_fields;
    cbn [summary total_issues files_with_issues total_suggestions average_score
           category_breakdown recommendation].
  destruct (unreviewed_nothing results N) as (-> & -> & ->).
  repeat split.
  apply Counters.count_zero; intros r I; now rewrite (N r I).
Qed.

Lemma nothing_reviewed_is_approved_witness :
  recommendation (generate_summary Cases.unreviewed) = approved.
Proof.
  apply (nothing_reviewed_is_approved Cases.unreviewed).
  intros r [<- | [<- | []]]; reflexivity.
Defined.

Lemma count_permutation (A : Type) (p : A -> bool) (l l' : list A) :
  Permutation l l' -> Spec.count p l = Spec.count p l'.
Proof.
  induction 1 as [|x l l' _ IH|x y l|l l' l'' _ IH1 _ IH2];
    rewrite ?count_cons; try lia; congruence.
Qed.

Lemma count_severity_permutation (label : string) (l l' : list Issue.t) :
  Permutation l l' -> count_severity label l = count_severity label l'.
Proof.
  exact (count_permutation _ (fun issue => match Issue.severity issue with
                                           | Some s => String.eqb s label
                                           | None => false
                                           end) l l').
Qed.

Lemma fold_sum (l : list Q) (a : Q) : (fold_left Qplus l a == a + sum l)%Q.
Proof.
  revert a; induction l as [|x l IH]; intros a; cbn [fold_left].
  - change (sum []) with 0%Q; ring.
  - rewrite IH; change (sum (x :: l)) with (x + sum l)%Q; ring.
Qed.

Lemma sum_permutation (l l' : list Q) : Permutation l l' -> (sum l == sum l')%Q.
Proof.
  induction 1 as [|x l l' _ IH|x y l|l l' l'' _ IH1 _ IH2].
  - reflexivity.
  - change (x + sum l == x + sum l')%Q; now rewrite IH.
  - change (y + (x + sum l) == x + (y + sum l))%Q; ring.
  - now rewrite IH1.
Qed.

Lemma average_permutation (l l' : list Q) :
  Permutation l l' -> (average l == average l')%Q.
Proof.
  intros P; pose proof (Permutation_length P) as L.
  destruct l as [|x l], l' as [|x' l']; try discriminate L; [reflexivity|].
  unfold average; rewrite !fold_sum, (sum_permutation _ _ P), L; reflexivity.
Qed.


(** X17.  The counts of a summary do not depend on the order in which
    the files were analysed: for two lists of results that are
    permutations of each other the counters, the severity breakdown and
    every entry of the category breakdown are the same.  So is the
    recommendation whenever the severities decide it, that is when there
    is an issue of severity "high" or more than three of severity
    "medium"; otherwise it reads the average, a sum of floating-point
    numbers in the code, which is left out here. *)
Theorem summary_ignores_order :
  forall results results' : list FileResult,
    Permutation results results' ->
    let report := generate_summary results in
    let report' := generate_summary results' in
    total_files_analyzed (summary report) = total_files_analyzed (summary report')
    /\ files_with_issues (summary report) = files_with_issues (summary report')
    /\ total_issues (summary report) = total_issues (summary report')
    /\ total_suggestions (summary report) = total_suggestions (summary report')
    /\ severity_breakdown (summary report) = severity_breakdown (summary report')
    /\ (forall c, get (category_breakdown (summary report)) c 0
                  = get (category_breakdown (summary report')) c 0)
    /\ (0 < get (severity_breakdown (summary report)) "high" 0
        \/ 3 < get (severity_breakdown (summary report)) "medium" 0 ->
        recommendation report = recommendation report').
Proof.
  intros results results' P; cbv zeta; rewrite !summary_fields;
    cbn [summary recommendation total_files_analyzed files_with_issues total_issues
           total_suggestions severity_breakdown category_breakdown].
  assert (I : Permutation (all_issues results) (all_issues results'))
    by now apply Permutation_flat_map.
  assert (S : Permutation (all_suggestions results) (all_suggestions results'))
    by now apply Permutation_flat_map.
  assert (T : tiers (all_issues results) = tiers (all_issues results')).
  { unfold tiers; now rewrite !(count_severity_permutation _ _ _ I). }
  split; [now rewrite (Permutation_length P)|].
  split; [now apply count_permutation|].
  split; [now rewrite (Permutation_length I)|].
  split; [now rewrite (Permutation_length S)|].
  split; [exact T|].
  split.
  - intros c.
    destruct (category_loop (all_issues results) []) as (G & _).
    destruct (category_loop (all_issues results') []) as (G' & _).
    now rewrite G, G', (count_permutation _ _ _ _ I).
  - rewrite <- T; unfold _get_recommendation.
    intros [H | M].
    + apply Verdict.gtb_iff in H; now rewrite H.
    + apply Verdict.gtb_iff in M; rewrite M.
      now destruct (get (tiers (all_issues results)) "high" 0 >? 0).
Qed.

Lemma summary_ignores_order_witness :
  let report := generate_summary Examples.tiered_review in
  let report' := generate_summary (rev Examples.tiered_review) in
  total_issues (summary report) = total_issues (summary report')
  /\ severity_breakdown (summary report) = severity_breakdown (summary report').
Proof.
  destruct (summary_ignores_order Examples.tiered_review
              (rev Examples.tiered_review) (Permutation_rev _))
    as (_ & _ & T & _ & S & _).
  split; [exact T | exact S].
Defined.

Lemma tiered_issues (results : list FileResult) :
  all_issues (map drop_untiered results) = filter tiered (all_issues results).
Proof.
  induction results as [|r results IH]; [reflexivity|].
  cbn [map all_issues flat_map]; rewrite filter_app; f_equal; [|exact IH].
  now destruct r.
Qed.

Lemma tiered_scores (results : list FileResult) :
  scores (map drop_untiered results) = scores results.
Proof.
  induction results as [|r results IH]; [reflexivity|].
  cbn [map scores flat_map]; f_equal; [|exact IH].
  now destruct r.
Qed.

Lemma count_severity_tiered (label : string) (found : list Issue.t) :
  label = "high" \/ label = "medium" \/ label = "low" ->
  count_severity label (filter tiered found) = count_severity label found.
Proof.
  intros L; induction found as [|i found IH]; [reflexivity|].
  cbn [filter]; destruct (tiered i) eqn:T;
    rewrite !Breakdown.count_severity_cons, ?IH; [reflexivity|].
  unfold tiered in T; destruct (Issue.severity i) as [s|]; [|lia].
  replace (String.eqb s label) with false; [lia|].
  apply orb_false_iff in T as [T L3]; apply orb_false_iff in T as [L1 L2].
  destruct L as [-> | [-> | ->]]; congruence.
Qed.

(** X18.  An issue whose severity is none of "high", "medium" and "low"
    (or is missing) has no influence on the verdict: without such issues
    the severity breakdown, the average and the recommendation are the
    same, and the total of the issues drops to the number of issues that
    carry one of the three labels. *)
Theorem untiered_issues_are_ignored :
  forall results : list FileResult,
    let report := generate_summary results in
    let report' := generate_summary (map drop_untiered results) in
    recommendation report' = recommendation report
    /\ severity_breakdown (summary report') = severity_breakdown (summary report)
    /\ average_score (summary report') = average_score (summary report)
    /\ total_issues (summary report') = Spec.count tiered (all_issues results).
Proof.
  intros results; cbv zeta; rewrite !summary_fields;
    cbn [summary recommendation severity_breakdown average_score total_issues].
  rewrite tiered_issues, tiered_scores.
  assert (T : tiers (filter tiered (all_issues results)) = tiers (all_issues results)).
  { unfold tiers; rewrite !count_severity_tiered by tauto; reflexivity. }
  rewrite T; repeat split.
Qed.

End Summaries.

(** ** A run of the reviewer *)

Module Reviews.
Import Text Env Loops AIReviewer Reviewer ReviewTerms RunTerms Terms.

Lemma summable_some (results : list Result) (typed : list FileResult) :
  summable results = Some typed <-> results = map Summable typed.
Proof.
  revert typed; induction results as [|[r|f l d] results IH]; intros typed;
    cbn [summable].
  - split; [intros [= <-]; reflexivity | now destruct typed].
  - destruct (summable results) as [rs|]; cbn [option_map].
    + split.
      * intros [= <-]; cbn [map]; f_equal; now apply IH.
      * destruct typed as [|r' typed]; [easy|]; cbn [map]; intros [= <- E].
        apply IH in E; now injection E as ->.
    + split; [easy|].
      destruct typed as [|r' typed]; [easy|]; cbn [map]; intros [= <- E].
      now apply IH in E.
  - split; [easy | now destruct typed].
Qed.

Lemma summable_none (results : list Result) :
  summable results = None <-> exists r, In r results /\ unsummable r.
Proof.
  induction results as [|[r|f l d] results IH]; cbn [summable].
  - split; [easy | now intros (r & [] & _)].
  - destruct (summable results) as [rs|]; cbn [option_map].
    + split; [easy|]; intros (x & [<- | I] & U); [easy|].
      enough (Some rs = None) by easy; apply IH; now exists x.
    + split; [|reflexivity]; intros _.
      destruct (proj1 IH eq_refl) as (x & I & U); exists x; split; [now right | exact U].
  - split; [|reflexivity]; intros _.
    exists (Unsummable f l d); split; [now left | exact I].
Qed.

Section Run.
Variable fs : FileSystem.
Variable git_diff : string -> Attempt string.
Variable post : string -> string -> Reply.
Variable loads : string -> option Object.

(** The loop of [main] over the files. *)
Lemma results_loop (api_key : string) (files : list string) (acc : list Result) :
  fold_left
    (fun results file_path =>
       if exists_ fs file_path
       then results ++ [analyze_file_changes fs git_diff post loads api_key file_path]
       else results)
    files acc
  = acc ++ map (analyze_file_changes fs git_diff post loads api_key)
             (filter (exists_ fs) files).
Proof.
  revert acc; induction files as [|f files IH]; intros acc; cbn [fold_left filter map].
  - now rewrite app_nil_r.
  - rewrite IH; destruct (exists_ fs f); [|reflexivity].
    now rewrite <- app_assoc.
Qed.

Lemma parsed_files (files_arg : string) :
  map strip (filter (fun f => nonempty (strip f)) (split_ws files_arg))
  = listed files_arg.
Proof.
  pose proof (CommandLine.single_argument_shape "" files_arg) as H.
  cbn [SecurityChecker.files_of_argv] in H; now injection H.
Qed.

(** What [main] does with a key and at least one file name. *)
Lemma main_outcome (api_key files_arg : string) :
  api_key <> "" -> listed files_arg <> [] ->
  main fs git_diff post loads (Some api_key) files_arg
  = match summable (map (analyze_file_changes fs git_diff post loads api_key)
                      (filter (exists_ fs) (listed files_arg))) with
    | Some results => BuildOutcome 0 (Some (generate_summary results))
    | None => BuildOutcome 1 None
    end.
Proof.
  intros K L; unfold main; rewrite parsed_files.
  destruct api_key as [|c key]; [easy|].
  destruct (listed files_arg) as [|f files] eqn:E; [easy|].
  now rewrite results_loop.
Qed.

(** A result of [analyze_file_changes] that the summary can process is
    about the file that was analysed. *)
Lemma analysis_file (api_key file_path : string) (r : FileResult) :
  analyze_file_changes fs git_diff post loads api_key file_path = Summable r ->
  file_of r = file_path.
Proof.
  unfold analyze_file_changes.
  destruct (fs file_path); [now intros [= <-] .. |].
  destruct (git_diff file_path); [now intros [= <-]|].
  destruct (negb _); [now intros [= <-]|]; cbv zeta.
  destruct (_ai_analyze_code _ _ _ _ _ _ _); [now intros [= <-] | easy].
Qed.

Lemma well_typed_analysis (api_key content diff language file_path : string) :
  well_typed loads ->
  _ai_analyze_code post loads api_key content diff language file_path <> Untyped.
Proof.
  intros W; unfold _ai_analyze_code; cbv zeta.
  destruct (post api_key _) as [e|code answer]; [easy|].
  destruct (code =? 200); [|easy].
  destruct (json_span answer) as [json_str|]; [|easy].
  specialize (W json_str); destruct (loads json_str) as [[a|]|]; easy.
Qed.

Lemma well_typed_results (api_key : string) (files : list string) :
  well_typed loads ->
  exists typed,
    map (analyze_file_changes fs git_diff post loads api_key) files
    = map Summable typed.
Proof.
  intros W; induction files as [|f files (typed & IH)]; [now exists []|].
  assert (S : exists r, analyze_file_changes fs git_diff post loads api_key f
                        = Summable r).
  { unfold analyze_file_changes.
    destruct (fs f) as [|e|content]; [now eexists .. |].
    destruct (git_diff f) as [e|d]; [now eexists|].
    destruct (negb _); [now eexists|]; cbv zeta.
    pose proof (well_typed_analysis api_key content d
                  (_detect_language (lower_string (suffix f))) f W) as N.
    destruct (_ai_analyze_code _ _ _ _ _ _ _); [now eexists | easy]. }
  destruct S as (r & S); exists (r :: typed); cbn [map]; now rewrite S, IH.
Qed.

End Run.

(** X19.  The exit status of the reviewer does not depend on what the
    review says: whenever a report is written the status is 0, also when
    the recommendation is "Not Recommended for Merge".  The status is 1
    exactly when the key is missing or empty, or when the answer for a
    listed file that exists is a JSON object on which the summary raises;
    in both cases no report is written. *)
Theorem reviewer_exit_ignores_verdict :
  forall (fs : FileSystem) (git_diff : string -> Attempt string)
         (post : string -> string -> Reply) (loads : string -> option Object)
         (api_key : option string) (files_arg : string),
    ascii_text files_arg ->
    let outcome := main fs git_diff post loads api_key files_arg in
    (exit_status outcome = 0 \/ exit_status outcome = 1)
    /\ (forall r, report outcome = Some r -> exit_status outcome = 0)
    /\ (exit_status outcome = 1 -> report outcome = None)
    /\ (exit_status outcome = 1
        <-> api_key = None \/ api_key = Some ""
            \/ exists key file_path,
                 api_key = Some key
                 /\ In file_path (listed files_arg)
                 /\ exists_ fs file_path = true
                 /\ unsummable
                      (analyze_file_changes fs git_diff post loads key file_path)).
Proof.
  intros fs git_diff post loads api_key files_arg _; cbv zeta.
  destruct api_key as [key|].
  2:{ cbn [main exit_status report]; split; [now right|].
      split; [easy|]; split; [easy|]; split; [now left | reflexivity]. }
  destruct (string_dec key "") as [-> | K].
  { cbn [main exit_status report]; split; [now right|].
    split; [easy|]; split; [easy|]; split; [now right; left | reflexivity]. }
  destruct (listed files_arg) as [|f files] eqn:L.
  { assert (M : main fs git_diff post loads (Some key) files_arg
                = BuildOutcome 0 None).
    { unfold main; rewrite parsed_files, L; now destruct key. }
    rewrite M; cbn [exit_status report]; split; [now left|].
    split; [easy|]; split; [easy|]; split; [easy|].
    intros [H | [H | (k & p & _ & [] & _)]]; [discriminate H|].
    injection H as H; contradiction. }
  rewrite (main_outcome fs git_diff post loads key files_arg K)
    by (rewrite L; discriminate).
  rewrite L.
  destruct (summable _) as [typed|] eqn:S; cbn [exit_status report].
  - split; [now left|]; split; [easy|]; split; [easy|]; split; [easy|].
    intros [H | [H | (k & p & E & I & X & U)]];
      [discriminate H | injection H as H; contradiction|].
    injection E as <-.
    assert (N : summable
                  (map (analyze_file_changes fs git_diff post loads key)
                     (filter (exists_ fs) (f :: files))) = None).
    { apply summable_none; eexists; split; [|exact U].
      apply in_map, filter_In; split; assumption. }
    rewrite S in N; discriminate N.
  - split; [now right|]; split; [easy|]; split; [easy|]; split; [|reflexivity].
    intros _; right; right.
    apply summable_none in S as (r & I & U).
    apply in_map_iff in I as (p & <- & I); apply filter_In in I as [I X].
    now exists key, p.
Qed.

Lemma reviewer_exit_ignores_verdict_witness :
  (let outcome := main Cases.review_fs Cases.review_diff Cases.review_post
                    Cases.review_loads (Some "sk-test") "a.py" in
   exit_status outcome = 0
   /\ option_map recommendation (report outcome) = Some not_recommended)
  /\ exit_status (main Cases.review_fs Cases.review_diff Cases.review_post
                    Cases.null_issues_loads (Some "sk-test") "a.py") = 1.
Proof.
  assert (A : ascii_text "a.py") by (repeat constructor).
  split.
  - cbv zeta.
    destruct (reviewer_exit_ignores_verdict Cases.review_fs Cases.review_diff
                Cases.review_post Cases.review_loads (Some "sk-test") "a.py" A)
      as (_ & Z & _).
    split; [|vm_compute; reflexivity].
    eapply Z; vm_compute; reflexivity.
  - destruct (reviewer_exit_ignores_verdict Cases.review_fs Cases.review_diff
                Cases.review_post Cases.null_issues_loads (Some "sk-test") "a.py" A)
      as (_ & _ & _ & O).
    apply O; right; right; exists "sk-test", "a.py".
    split; [reflexivity|]; split; [now left|]; split; [reflexivity|].
    vm_compute; exact I.
Defined.

(** X20.  When the answers of the service hold objects the summary can
    process, the report of a run lists one result for every file name of
    [--files] that exists, in the order of the list and under that name;
    a name that does not exist is passed over, and a file that exists but
    cannot be read is kept, as a failed result. *)
Theorem one_result_per_existing_file :
  forall (fs : FileSystem) (git_diff : string -> Attempt string)
         (post : string -> string -> Reply) (loads : string -> option Object)
         (api_key files_arg : string),
    ascii_text files_arg ->
    api_key <> "" -> listed files_arg <> [] ->
    well_typed loads ->
    exists r,
      report (main fs git_diff post loads (Some api_key) files_arg) = Some r
      /\ map file_of (detailed_results r) = filter (exists_ fs) (listed files_arg)
      /\ total_files_analyzed (summary r)
         = Spec.count (exists_ fs) (listed files_arg)
      /\ (forall file_path e,
             In file_path (listed files_arg) -> fs file_path = Unreadable e ->
             In (Failed file_path e) (detailed_results r)).
Proof.
  intros fs git_diff post loads api_key files_arg _ K L W.
  rewrite (main_outcome fs git_diff post loads api_key files_arg K L).
  destruct (well_typed_results fs git_diff post loads api_key
              (filter (exists_ fs) (listed files_arg)) W) as (typed & T).
  rewrite (proj2 (summable_some _ typed) T).
  eexists; split; [reflexivity|].
  rewrite Summaries.summary_fields;
    cbn [detailed_results summary total_files_analyzed].
  assert (F : map file_of typed = filter (exists_ fs) (listed files_arg)).
  { revert typed T; induction (filter (exists_ fs) (listed files_arg)) as [|f l IH];
      intros [|r typed]; cbn [map]; try easy.
    intros [= A T]; f_equal; [|now apply IH].
    exact (analysis_file fs git_diff post loads api_key f r A). }
  split; [exact F|]; split.
  - rewrite <- (length_map file_of), F; reflexivity.
  - intros f e I U.
    assert (X : In (Summable (Failed f e))
                  (map (analyze_file_changes fs git_diff post loads api_key)
                     (filter (exists_ fs) (listed files_arg)))).
    { apply in_map_iff; exists f; split.
      - unfold analyze_file_changes; now rewrite U.
      - apply filter_In; split; [exact I | unfold exists_; now rewrite U]. }
    rewrite T in X; apply in_map_iff in X as (r & [= ->] & X); exact X.
Qed.

Lemma one_result_per_existing_file_witness :
  exists r,
    report (main Examples.batch_fs Cases.review_diff Cases.review_post
              Cases.review_loads (Some "sk-test") "missing.py locked.py ok.py")
    = Some r
    /\ map file_of (detailed_results r) = ["locked.py"; "ok.py"].
Proof.
  destruct (one_result_per_existing_file Examples.batch_fs Cases.review_diff
              Cases.review_post Cases.review_loads "sk-test"
              "missing.py locked.py ok.py")
    as (r & R & F & _).
  - repeat constructor.
  - discriminate.
  - discriminate.
  - intros json_str; unfold Cases.review_loads.
    destruct (String.eqb json_str "{ }"); discriminate.
  - exists r; split; [exact R | exact F].
Defined.

Section Service.
Variable fs : FileSystem.
Variable git_diff : string -> Attempt string.
Variable post : string -> string -> Reply.
Variable loads : string -> option Object.




End Service.




End Reviews.

(** ** The request and the answer of the service *)

Module Requests.
Import Text Env AIReviewer Reviewer RunTerms.

Lemma len_append (s t : string) : len (s ++ t) = len s + len t.
Proof.
  unfold len; induction s as [|c s IH]; cbn [append String.length]; lia.
Qed.

Lemma len_text (l : list ascii) : len (text l) = Z.of_nat (List.length l).
Proof. unfold len; now rewrite LineChecks.length_chars, CommandLine.chars_text. Qed.

Lemma len_chars (s : string) : Z.of_nat (List.length (chars s)) = len s.
Proof. unfold len; now rewrite LineChecks.length_chars. Qed.

Lemma text_app (l1 l2 : list ascii) : text (l1 ++ l2) = (text l1 ++ text l2)%string.
Proof. induction l1 as [|c l1 IH]; [reflexivity | cbn; now f_equal]. Qed.

Lemma substring_prefix (n : nat) (s : string) :
  substring 0 n s = text (firstn n (chars s)).
Proof.
  revert s; induction n as [|n IH]; intros [|c s]; cbn; try reflexivity.
  now rewrite IH.
Qed.

Lemma len_lower (s : string) : len (lower_string s) = len s.
Proof.
  unfold lower_string; now rewrite len_text, length_map, len_chars.
Qed.

Lemma len_concat (sep : string) (l : list string) :
  l <> [] ->
  len (String.concat sep l) = lengths l + len sep * (Z.of_nat (List.length l) - 1).
Proof.
  intros N; induction l as [|s l IH]; [easy|].
  destruct l as [|t l]; [cbn [String.concat lengths fold_right List.length]; lia|].
  change (String.concat sep (s :: t :: l))
    with (s ++ sep ++ String.concat sep (t :: l))%string.
  rewrite !len_append, IH by easy.
  change (lengths (s :: t :: l)) with (len s + lengths (t :: l)).
  cbn [List.length]; lia.
Qed.

Lemma limit : Z.of_nat max_content_length = 8000.
Proof. unfold max_content_length; now rewrite N_nat_Z. Qed.

Lemma truncate_long (s : string) :
  (max_content_length < String.length s)%nat ->
  truncate s
  = (text (firstn max_content_length (chars s)) ++ nl ++ "... (truncated)")%string.
Proof.
  intros L; unfold truncate; apply Nat.ltb_lt in L; rewrite L.
  now rewrite substring_prefix.
Qed.

Lemma truncate_short (s : string) :
  (String.length s <= max_content_length)%nat -> truncate s = s.
Proof.
  intros L; unfold truncate.
  replace (max_content_length <? String.length s)%nat with false; [reflexivity|].
  symmetry; apply Nat.ltb_ge; exact L.
Qed.

Lemma len_truncate (s : string) : len (truncate s) <= 8016.
Proof.
  pose proof limit as M.
  destruct (Nat.lt_ge_cases max_content_length (String.length s)) as [L | L].
  - rewrite (truncate_long s L), !len_append, len_text, length_firstn.
    rewrite LineChecks.length_chars in L.
    rewrite Nat.min_l by lia.
    change (len nl) with 1; change (len "... (truncated)") with 15; lia.
  - rewrite (truncate_short s L); unfold len; lia.
Qed.

Lemma truncate_twice (s : string) : truncate (truncate s) = truncate s.
Proof.
  destruct (Nat.lt_ge_cases max_content_length (String.length s)) as [L | L].
  - rewrite (truncate_long s L).
    set (kept := firstn max_content_length (chars s)).
    assert (K : List.length kept = max_content_length).
    { unfold kept; rewrite length_firstn, <- LineChecks.length_chars; lia. }
    rewrite truncate_long.
    + rewrite CommandLine.chars_append, CommandLine.chars_text, firstn_app, K.
      rewrite Nat.sub_diag, firstn_O, app_nil_r.
      rewrite <- K at 1; now rewrite firstn_all.
    + assert (H : len (text kept ++ nl ++ "... (truncated)")
                  = Z.of_nat max_content_length + 16).
      { rewrite !len_append, len_text, K.
        change (len nl) with 1; change (len "... (truncated)") with 15; lia. }
      unfold len in H; lia.
  - now rewrite !(truncate_short s L).
Qed.

Lemma len_prompt (language file_path diff content : string) :
  len (prompt language file_path diff content)
  = 1355 + 3 * len language + len file_path + len diff + len content.
Proof.
  unfold prompt; rewrite len_concat by discriminate.
  cbn [lengths fold_right List.length].
  rewrite !len_append, len_lower.
  change (len nl) with 1; change (len q) with 1.
  repeat match goal with
         | |- context [len (String ?c ?s)] =>
             let n := eval vm_compute in (len (String c s)) in
             change (len (String c s)) with n
         end.
  change (len "") with 0.
  lia.
Qed.

Lemma len_language (extension : string) : len (_detect_language extension) <= 16.
Proof.
  unfold _detect_language; cbv zeta; cbn [get].
  repeat match goal with
         | |- context [if ?c then _ else _] => destruct c; [now vm_compute|]
         end.
  now vm_compute.
Qed.

(** X22.  The texts put into a request are cut at 8000 characters: what
    [truncate] keeps is never longer than 8016 characters, a text of at
    most 8000 characters is kept as it is, and cutting twice is cutting
    once.  So the prompt for a file is at most 17435 characters longer
    than the file's path, however long the file and its diff are. *)
Theorem request_size_is_bounded :
  (forall s, len (truncate s) <= 8016)
  /\ (forall s, len s <= 8000 -> truncate s = s)
  /\ (forall s, truncate (truncate s) = truncate s)
  /\ (forall file_path content diff : string,
         len (prompt (_detect_language (lower_string (suffix file_path))) file_path
                (truncate diff) (truncate content))
         <= 17435 + len file_path).
Proof.
  split; [exact len_truncate|]; split; [|split; [exact truncate_twice|]].
  - intros s L; apply truncate_short; pose proof limit; unfold len in L; lia.
  - intros file_path content diff; rewrite len_prompt.
    pose proof (len_truncate diff); pose proof (len_truncate content).
    pose proof (len_language (lower_string (suffix file_path))); lia.
Qed.

Lemma find_char_absent (c : ascii) (l : list ascii) :
  ~ In c l -> find_char c l = -1.
Proof.
  induction l as [|a l IH]; [reflexivity|]; intros N; cbn [find_char].
  destruct (Ascii.eqb a c) eqn:E; [apply Ascii.eqb_eq in E; subst a; now destruct N; left|].
  rewrite IH by (intros I; apply N; now right); reflexivity.
Qed.

Lemma find_char_first (c : ascii) (l rest : list ascii) :
  ~ In c l -> find_char c (l ++ c :: rest) = Z.of_nat (List.length l).
Proof.
  induction l as [|a l IH]; intros N; cbn [app find_char List.length].
  - now rewrite Ascii.eqb_refl.
  - destruct (Ascii.eqb a c) eqn:E;
      [apply Ascii.eqb_eq in E; subst a; now destruct N; left|].
    rewrite IH by (intros I; apply N; now right).
    destruct (Z.of_nat (List.length l) =? -1) eqn:Z; [apply Z.eqb_eq in Z|]; lia.
Qed.

Lemma find_char_present (c : ascii) (l : list ascii) :
  In c l -> 0 <= find_char c l.
Proof.
  induction l as [|a l IH]; [easy|]; intros I; cbn [find_char].
  destruct (Ascii.eqb a c) eqn:E; [lia|].
  destruct I as [-> | I]; [now rewrite Ascii.eqb_refl in E|].
  specialize (IH I); destruct (find_char c l =? -1) eqn:Z;
    [apply Z.eqb_eq in Z|]; lia.
Qed.

(** X23.  Text around the JSON object of an answer is dropped: what is
    handed to [json.loads] runs from the first opening brace to the last
    closing brace.  An answer without an opening brace is not parsed at
    all, and for an answer that has an opening brace but no closing one
    the empty text is parsed. *)
Theorem json_span_strips_wrapping :
  (forall before inside after : string,
      absent "{" before -> absent "}" after ->
      json_span (before ++ "{" ++ inside ++ "}" ++ after)
      = Some ("{" ++ inside ++ "}")%string)
  /\ (forall ai_response, absent "{" ai_response -> json_span ai_response = None)
  /\ (forall ai_response,
         ~ absent "{" ai_response -> absent "}" ai_response ->
         json_span ai_response = Some "").
Proof.
  split; [|split].
  - intros before inside after B A; unfold json_span, find, rfind, slice; cbv zeta.
    rewrite !CommandLine.chars_append.
    change (chars "{") with ["{"%char]; change (chars "}") with ["}"%char].
    cbn [app].
    set (P := chars before); set (M := chars inside); set (T := chars after).
    rewrite (find_char_first "{" P _ B).
    assert (R : rev (P ++ "{"%char :: M ++ "}"%char :: T)
                = rev T ++ "}"%char :: rev (P ++ "{"%char :: M)).
    { replace (P ++ "{"%char :: M ++ "}"%char :: T)
        with ((P ++ "{"%char :: M) ++ "}"%char :: T)
        by now rewrite <- app_assoc.
      rewrite rev_app_distr; cbn [rev]; now rewrite <- app_assoc. }
    rewrite R, find_char_first by (rewrite <- in_rev; exact A).
    rewrite length_rev.
    assert (L : Z.of_nat (String.length (before ++ "{" ++ inside ++ "}" ++ after))
                = Z.of_nat (List.length P) + 1 + Z.of_nat (List.length M) + 1
                  + Z.of_nat (List.length T)).
    { fold (len (before ++ "{" ++ inside ++ "}" ++ after)).
      rewrite !len_append; unfold P, M, T; rewrite !len_chars.
      change (len "{") with 1; change (len "}") with 1; lia. }
    rewrite L.
    repeat match goal with
           | |- context [?a =? -1] =>
               replace (a =? -1) with false by (symmetry; apply Z.eqb_neq; lia)
           end.
    cbn [negb andb]; f_equal.
    rewrite Nat2Z.id, skipn_app, Nat.sub_diag, skipn_all, skipn_O, app_nil_l.
    replace (Z.to_nat _) with (List.length ("{"%char :: M ++ ["}"%char]))
      by (cbn [List.length]; rewrite length_app; cbn [List.length]; lia).
    change ("{"%char :: M ++ "}"%char :: T)
      with (("{"%char :: M) ++ "}"%char :: T).
    replace (("{"%char :: M) ++ "}"%char :: T)
      with (("{"%char :: M ++ ["}"%char]) ++ T)
      by (cbn [app]; now rewrite <- app_assoc).
    rewrite firstn_app, Nat.sub_diag, firstn_O, app_nil_r, firstn_all.
    change ("{"%char :: M ++ ["}"%char]) with (["{"%char] ++ M ++ ["}"%char]).
    rewrite !text_app; unfold M; now rewrite CommandLine.text_chars.
  - intros s A; unfold json_span, find; cbv zeta.
    now rewrite (find_char_absent "{" (chars s) A).
  - intros s B A; unfold json_span, find, rfind, slice; cbv zeta.
    assert (I : In "{"%char (chars s)).
    { destruct (in_dec ascii_dec "{"%char (chars s)) as [I | N]; [exact I|].
      now destruct B. }
    pose proof (find_char_present _ _ I) as F.
    rewrite (find_char_absent "}" (rev (chars s))) by (rewrite <- in_rev; exact A).
    rewrite Z.eqb_refl; change (-1 + 1) with 0; change (0 =? -1) with false.
    destruct (find_char "{" (chars s) =? -1) eqn:E;
      [apply Z.eqb_eq in E; lia|].
    cbn [negb andb]; f_equal.
    replace (Z.to_nat _) with 0%nat by lia; reflexivity.
Qed.

Lemma json_span_strips_wrapping_witness :
  json_span Cases.fenced_answer = Some "{ }".
Proof.
  apply (proj1 json_span_strips_wrapping ("```json" ++ Examples.nl)%string " "
           (Examples.nl ++ "```")%string).
  - intros I; vm_compute in I; intuition discriminate.
  - intros I; vm_compute in I; intuition discriminate.
Defined.

End Requests.
